(** * FinancePlotter: indicator arithmetic and chart construction

    A shallow embedding of
      - [financeplotter/charts/base.py]        (module [Base]),
      - [financeplotter/indicators/technical.py] (module [Technical]),
      - [financeplotter/ml/visualizations.py]  (module [Visualizations]),
    together with the parts of pandas and plotly those files call
    (modules [Pandas] and [Plotly], written from the libraries' documented
    behaviour).  scikit-learn's [roc_curve] and [auc], the square root and the
    rendering of floats are parameters.  Module [Reference] states the
    indicator formulas the way a textbook does; the properties at the end
    relate the code to them.

    Numbers.  A Python float is modelled by [pyfloat]: an exact rational, one
    of the two infinities, or NaN.  Finite arithmetic is exact (no rounding,
    no overflow, one unsigned zero); the special values follow IEEE 754. *)

From Stdlib Require Import QArith Qcanon Qround.
From stdpp Require Import base decidable option list numbers strings pretty gmap.

Local Open Scope Qc_scope.

(** ** Python floats *)

Module Float.

Inductive pyfloat : Type :=
  | Num (q : Qc)
  | PInf
  | NInf
  | NaN.

Global Instance pyfloat_eq_dec : EqDecision pyfloat.
Proof. solve_decision. Defined.

Definition of_Z (z : Z) : pyfloat := Num (Qc_of_Z z).

Definition fneg (x : pyfloat) : pyfloat :=
  match x with
  | Num q => Num (- q)
  | PInf => NInf
  | NInf => PInf
  | NaN => NaN
  end.

Definition fadd (x y : pyfloat) : pyfloat :=
  match x, y with
  | NaN, _ | _, NaN => NaN
  | Num a, Num b => Num (a + b)
  | PInf, NInf | NInf, PInf => NaN
  | PInf, _ | _, PInf => PInf
  | NInf, _ | _, NInf => NInf
  end.

Definition fsub (x y : pyfloat) : pyfloat := fadd x (fneg y).

(** The infinity whose sign is the sign of [q]; [0 * inf] is NaN. *)
Definition signed_inf (q : Qc) : pyfloat :=
  if decide (q = 0) then NaN
  else if decide (0 < q) then PInf else NInf.

Definition fmul (x y : pyfloat) : pyfloat :=
  match x, y with
  | NaN, _ | _, NaN => NaN
  | Num a, Num b => Num (a * b)
  | Num a, PInf | PInf, Num a => signed_inf a
  | Num a, NInf | NInf, Num a => signed_inf (- a)
  | PInf, PInf | NInf, NInf => PInf
  | PInf, NInf | NInf, PInf => NInf
  end.

(** Division of numpy floats never raises: a nonzero number over zero is an
    infinity, zero over zero is NaN. *)
Definition fdiv (x y : pyfloat) : pyfloat :=
  match x, y with
  | NaN, _ | _, NaN => NaN
  | Num a, Num b => if decide (b = 0) then signed_inf a else Num (a / b)
  | Num _, PInf | Num _, NInf => Num 0
  | PInf, Num b => if decide (0 ≤ b) then PInf else NInf
  | NInf, Num b => if decide (0 ≤ b) then NInf else PInf
  | _, _ => NaN
  end.

(** [x < y]; every comparison with NaN is false. *)
Definition flt (x y : pyfloat) : bool :=
  match x, y with
  | NaN, _ | _, NaN => false
  | Num a, Num b => bool_decide (a < b)
  | NInf, NInf | PInf, _ | _, NInf => false
  | NInf, _ | _, PInf => true
  end.

End Float.
Export Float.

(** ** Python exceptions and fallible computations *)

Inductive exn : Type :=
  | NameError (name : string)
  | KeyError (key : string)
  | ValueError (msg : string)
  | PyException (msg : string)
  | SystemError (msg : string).

Global Instance exn_eq_dec : EqDecision exn.
Proof. solve_decision. Defined.

Inductive result (A : Type) : Type :=
  | Ok (a : A)
  | Raise (e : exn).
Arguments Ok {A} a.
Arguments Raise {A} e.

Definition rbind {A B} (r : result A) (k : A → result B) : result B :=
  match r with
  | Ok a => k a
  | Raise e => Raise e
  end.

Definition raises {A} (r : result A) : Prop :=
  match r with Ok _ => False | Raise _ => True end.

Global Instance result_ret : MRet result := @Ok.
Global Instance result_bind : MBind result := λ A B k r, rbind r k.
Global Instance result_fmap : FMap result := λ A B f r, rbind r (λ a, Ok (f a)).

(** ** pandas: Series, DataFrame, rolling and exponentially weighted windows *)

Module Pandas.

(** The values of a Series; the row labels live in the DataFrame, and every
    Series below is taken from one DataFrame, so element-wise operations
    align position by position. *)
Abbreviation Series := (list pyfloat).

Record DataFrame : Type := mkDataFrame {
  index : list Z;
  columns : list (string * Series)
}.

Definition column_names (df : DataFrame) : list string := (columns df).*1.

Fixpoint assoc (key : string) (cols : list (string * Series)) : option Series :=
  match cols with
  | [] => None
  | (k, v) :: rest => if decide (k = key) then Some v else assoc key rest
  end.

(** [df[column]] *)
Definition getitem (df : DataFrame) (column : string) : result Series :=
  match assoc column (columns df) with
  | Some s => Ok s
  | None => Raise (KeyError column)
  end.

(** Element-wise arithmetic. *)
Definition sub (a b : Series) : Series := zip_with fsub a b.
Definition add (a b : Series) : Series := zip_with fadd a b.
Definition div (a b : Series) : Series := zip_with fdiv a b.
Definition neg (a : Series) : Series := fneg <$> a.
Definition mul_scalar (a : Series) (k : pyfloat) : Series := (λ x, fmul x k) <$> a.
Definition scalar_add (k : pyfloat) (a : Series) : Series := fadd k <$> a.
Definition scalar_sub (k : pyfloat) (a : Series) : Series := fsub k <$> a.
Definition scalar_div (k : pyfloat) (a : Series) : Series := fdiv k <$> a.
Definition gt_scalar (a : Series) (k : pyfloat) : list bool := (λ x, flt k x) <$> a.
Definition lt_scalar (a : Series) (k : pyfloat) : list bool := (λ x, flt x k) <$> a.

(** [s.diff()]: first element NaN, then [s[i] - s[i-1]]. *)
Definition diff (s : Series) : Series :=
  match s with
  | [] => []
  | _ :: t => NaN :: zip_with fsub t s
  end.

(** [s.where(cond, other)]: keep [s[i]] where [cond[i]], else [other]. *)
Definition where_ (s : Series) (cond : list bool) (other : pyfloat) : Series :=
  zip_with (λ x (c : bool), if c then x else other) s cond.

(** Window functions see infinities as missing values. *)
Definition observation (x : pyfloat) : option Qc :=
  match x with Num q => Some q | _ => None end.

Definition observations (w : Series) : list Qc := omap observation w.

Definition Qc_of_nat (n : nat) : Qc := Qc_of_Z (Z.of_nat n).

Definition sum (l : list Qc) : Qc := foldr Qcplus 0 l.

(** [s.rolling(window=w)], with [min_periods] left at its default, which for
    an integer window is the window size. *)
Record Rolling : Type := mkRolling { obj : Series; window : nat; min_periods : nat }.

Definition rolling (s : Series) (w : Z) : result Rolling :=
  if decide (w < 0)%Z then Raise (ValueError "window must be an integer 0 or greater")
  else Ok (mkRolling s (Z.to_nat w) (Z.to_nat w)).

(** The window ending at position [i]: positions [max 0 (i+1-w) .. i]. *)
Definition window_at (w i : nat) (s : Series) : Series :=
  drop (S i - w) (take (S i) s).

Definition roll_apply (f : list Qc → pyfloat) (r : Rolling) : Series :=
  (λ i, let obs := observations (window_at (window r) i (obj r)) in
        if decide (min_periods r ≤ length obs)%nat then f obs else NaN)
    <$> seq 0 (length (obj r)).

Definition mean_of (obs : list Qc) : pyfloat :=
  if decide (length obs = 0)%nat then NaN
  else Num (sum obs / Qc_of_nat (length obs)).

(** [.rolling(...).mean()] *)
Definition mean (r : Rolling) : Series := roll_apply mean_of r.

(** Sample variance (ddof = 1); undefined on fewer than two observations. *)
Definition var_of (obs : list Qc) : pyfloat :=
  let n := length obs in
  if decide (n ≤ 1)%nat then NaN
  else
    let m := sum obs / Qc_of_nat n in
    Num (sum ((λ x, (x - m) * (x - m)) <$> obs) / Qc_of_nat (n - 1)).

Definition std_of (sqrt : Qc → Qc) (obs : list Qc) : pyfloat :=
  match var_of obs with
  | Num v => Num (sqrt v)
  | other => other
  end.

(** [.rolling(...).std()]; the square root is a parameter of the model. *)
Definition std (sqrt : Qc → Qc) (r : Rolling) : Series := roll_apply (std_of sqrt) r.

(** [s.ewm(span=span, adjust=False)]: [alpha = 2 / (span + 1)];
    [ignore_na] is left at its default [False], [min_periods] at 0. *)
Record EWM : Type := mkEWM { ewm_obj : Series; alpha : Qc }.

Definition ewm (s : Series) (span : Z) : result EWM :=
  if decide (span < 1)%Z then Raise (ValueError "span must satisfy: span >= 1")
  else Ok (mkEWM s (Qc_of_Z 2 / (Qc_of_Z span + 1))).

(** State of the recursion: the running average ([None] before the first
    observation) and the weight the running average carries. *)
Record ewm_state : Type := mkSt { weighted : option Qc; old_wt : Qc }.

Definition ewm_step (a : Qc) (st : ewm_state) (cur : pyfloat) : ewm_state :=
  match weighted st, observation cur with
  | Some w, Some c =>
      let ow := old_wt st * (1 - a) in
      mkSt (Some (if decide (w = c) then w else (ow * w + a * c) / (ow + a))) 1
  | Some w, None => mkSt (Some w) (old_wt st * (1 - a))
  | None, Some c => mkSt (Some c) (old_wt st)
  | None, None => st
  end.

Definition ewm_out (st : ewm_state) : pyfloat :=
  match weighted st with Some w => Num w | None => NaN end.

Fixpoint ewm_run (a : Qc) (st : ewm_state) (s : Series) : Series :=
  match s with
  | [] => []
  | cur :: rest => let st' := ewm_step a st cur in ewm_out st' :: ewm_run a st' rest
  end.

(** [.ewm(...).mean()] *)
Definition ewm_mean (e : EWM) : Series := ewm_run (alpha e) (mkSt None 1) (ewm_obj e).

End Pandas.

(** ** plotly: traces, figures, subplot grids *)

Module Plotly.

Import Pandas.

(** Values of trace and layout properties.  Nested properties are keyed by
    their dotted path ([line=dict(width=1)] is the key ["line.width"]). *)
Inductive value : Type :=
  | VBool (b : bool)
  | VInt (z : Z)
  | VNum (x : pyfloat)
  | VStr (s : string)
  | VStrs (l : list string)
  | VInts (l : list Z)
  | VSeries (s : Series).

Inductive trace_kind : Type := Candlestick | Scatter | Bar.

Global Instance trace_kind_eq_dec : EqDecision trace_kind.
Proof. solve_decision. Defined.

(** Keyword arguments; a keyword bound to [None] leaves the property unset. *)
Definition kwargs : Type := list (string * option value).

Definition set_props (kw : kwargs) (m : gmap string value) : gmap string value :=
  foldl (λ acc kv, match kv.2 with
                   | Some v => <[kv.1 := v]> acc
                   | None => delete kv.1 acc
                   end) m kw.

Record Trace : Type := mkTrace {
  kind : trace_kind;
  props : gmap string value
}.

(** [go.Candlestick(...)], [go.Scatter(...)], [go.Bar(...)] *)
Definition new_trace (k : trace_kind) (kw : kwargs) : Trace :=
  mkTrace k (set_props kw ∅).

Record Grid : Type := mkGrid {
  rows : nat;
  cols : nat;
  shared_xaxes : bool;
  vertical_spacing : Qc;
  row_heights : list Qc
}.

Record Shape : Type := mkShape {
  shape_y : Z;
  line_dash : string;
  line_color : string;
  shape_cell : nat * nat
}.

(** A figure: the subplot grid ([None] for a plain [go.Figure()]), the traces
    in the order they were added, each with the grid cell it was placed in,
    the layout properties and the shapes drawn on it. *)
Record Figure : Type := mkFigure {
  grid : option Grid;
  traces : list (Trace * option (nat * nat));
  layout : gmap string value;
  shapes : list Shape
}.

(** [go.Figure()] *)
Definition new_figure : Figure := mkFigure None [] ∅ [].

(** [make_subplots(rows, cols, shared_xaxes, vertical_spacing, row_heights)] *)
Definition make_subplots (rows cols : nat) (shared_xaxes : bool)
    (vertical_spacing : Qc) (row_heights : list Qc) : result Figure :=
  if decide (length row_heights = rows) then
    Ok (mkFigure (Some (mkGrid rows cols shared_xaxes vertical_spacing row_heights)) [] ∅ [])
  else Raise (ValueError "row_heights must have one entry per row").

Definition in_grid (g : Grid) (cell : nat * nat) : Prop :=
  (1 ≤ cell.1 ≤ rows g ∧ 1 ≤ cell.2 ≤ cols g)%nat.

Global Instance in_grid_dec g cell : Decision (in_grid g cell).
Proof. unfold in_grid. apply _. Defined.

(** A grid cell can be named only on a figure made by [make_subplots], and
    must lie inside the grid. *)
Definition check_cell (f : Figure) (cell : option (nat * nat)) : result unit :=
  match cell with
  | None => Ok tt
  | Some rc =>
      match grid f with
      | None => Raise (PyException "figure was not created with make_subplots")
      | Some g =>
          if decide (in_grid g rc) then Ok tt
          else Raise (PyException "the (row, col) pair is out of range")
      end
  end.

(** [fig.add_trace(trace, row=, col=)] *)
Definition add_trace (f : Figure) (t : Trace) (cell : option (nat * nat)) : result Figure :=
  check_cell f cell;;
  Ok (mkFigure (grid f) (traces f ++ [(t, cell)]) (layout f) (shapes f)).

(** [fig.add_hline(y=, line_dash=, line_color=, row=, col=)] *)
Definition add_hline (f : Figure) (y : Z) (dash color : string) (cell : nat * nat)
    : result Figure :=
  check_cell f (Some cell);;
  Ok (mkFigure (grid f) (traces f) (layout f) (shapes f ++ [mkShape y dash color cell])).

(** [fig.update_layout(key=value, ...)] *)
Definition update_layout (f : Figure) (kw : kwargs) : Figure :=
  mkFigure (grid f) (traces f) (set_props kw (layout f)) (shapes f).

(** The x axes of a figure: one for a plain figure, one per grid cell else. *)
Definition axis_name (i : nat) : string :=
  if decide (i = 1)%nat then "xaxis" else "xaxis" +:+ pretty i.

Definition xaxes (f : Figure) : list string :=
  match grid f with
  | None => ["xaxis"]
  | Some g => axis_name <$> seq 1 (rows g * cols g)
  end.

(** [fig.update_xaxes(key=value, ...)]: the properties are set on every x axis. *)
Definition update_xaxes (f : Figure) (kw : kwargs) : Figure :=
  update_layout f
    (ax ← xaxes f; (λ kv : string * option value, (ax +:+ "." +:+ kv.1, kv.2)) <$> kw).

(** [fig.update_traces(key=value, ...)]: the properties are set on every trace. *)
Definition update_traces (f : Figure) (kw : kwargs) : Figure :=
  mkFigure (grid f)
    ((λ tc : Trace * option (nat * nat),
        (mkTrace (kind tc.1) (set_props kw (props tc.1)), tc.2)) <$> traces f)
    (layout f) (shapes f).

End Plotly.

(** ** charts/base.py *)

Module Base.

Import Pandas Plotly.

(** [class Chart]: the three attributes set by [__init__]. *)
Record Chart : Type := mkChart {
  data : DataFrame;
  title : option string;
  fig : option Figure
}.

(** Chart objects live in a store and are passed by reference; a method that
    returns [self] returns the reference it was given. *)
Abbreviation ref := nat (only parsing).
Abbreviation heap := (gmap nat Chart) (only parsing).

Definition M (A : Type) : Type := heap → result A * heap.

Global Instance M_ret : MRet M := λ A a h, (Ok a, h).
Global Instance M_bind : MBind M := λ A B k c h,
  match c h with
  | (Ok a, h') => k a h'
  | (Raise e, h') => (Raise e, h')
  end.

Definition lift {A} (r : result A) : M A := λ h, (r, h).

(** Attribute reads go through the reference; a reference handed out by
    [new] is never dangling, the last case is there to make [load] total. *)
Definition load (r : ref) : M Chart := λ h,
  match h !! r with
  | Some c => (Ok c, h)
  | None => (Raise (SystemError "dangling reference"), h)
  end.

(** [chart.fig = f] and in-place updates of the figure held by [chart]. *)
Definition set_fig (r : ref) (f : Figure) : M unit := λ h,
  match h !! r with
  | Some c => (Ok tt, <[r := mkChart (data c) (title c) (Some f)]> h)
  | None => (Raise (SystemError "dangling reference"), h)
  end.

(** [Chart(data, title)]: [__init__] sets [fig] to [None]. *)
Definition new (d : DataFrame) (t : option string) : M ref := λ h,
  let r := fresh (dom h) in (Ok r, <[r := mkChart d t None]> h).

Definition opt_str (o : option string) : option value := VStr <$> o.

(** [Chart.add_range_slider]; a Figure object is truthy, [None] is not. *)
Definition add_range_slider (self : ref) : M ref :=
  c ← load self;
  match fig c with
  | Some f =>
      set_fig self (update_xaxes f [("rangeslider.visible", Some (VBool true))]);;
      mret self
  | None => mret self
  end.

(** [Chart.add_zoom_pan] *)
Definition add_zoom_pan (self : ref) : M ref :=
  c ← load self;
  match fig c with
  | Some f =>
      set_fig self
        (update_layout f
           [("dragmode", Some (VStr "zoom"));
            ("modebar.add",
             Some (VStrs ["zoom"; "pan"; "zoomIn"; "zoomOut"; "resetScale"]))]);;
      mret self
  | None => mret self
  end.

(** [Chart.add_tooltips] *)
Definition add_tooltips (self : ref) : M ref :=
  c ← load self;
  match fig c with
  | Some f =>
      set_fig self
        (update_traces f
           [("hovertemplate", Some (VStr "%{x}<br>%{y:.2f}<extra></extra>"))]);;
      mret self
  | None => mret self
  end.

(** The figure built by [create_candlestick], before it is stored in a new
    [Chart]; the keyword arguments of [go.Candlestick] are evaluated left to
    right, so a missing column is reported in the order Open, High, Low,
    Close. *)
Definition candlestick_figure (data : DataFrame) (title : option string)
    (volume : bool) : result Figure :=
  let rows := if volume then 2%nat else 1%nat in
  fig ← make_subplots rows 1 true (Qc_of_Z 3 / Qc_of_Z 100)
          (if volume then [Qc_of_Z 7 / Qc_of_Z 10; Qc_of_Z 3 / Qc_of_Z 10] else [1]);
  o ← getitem data "Open";
  h ← getitem data "High";
  l ← getitem data "Low";
  c ← getitem data "Close";
  fig ← add_trace fig
          (new_trace Candlestick
             [("x", Some (VInts (index data)));
              ("open", Some (VSeries o));
              ("high", Some (VSeries h));
              ("low", Some (VSeries l));
              ("close", Some (VSeries c));
              ("name", Some (VStr "OHLC"))])
          (Some (1, 1)%nat);
  fig ← (if volume && bool_decide ("Volume" ∈ column_names data) then
           v ← getitem data "Volume";
           add_trace fig
             (new_trace Bar
                [("x", Some (VInts (index data)));
                 ("y", Some (VSeries v));
                 ("name", Some (VStr "Volume"))])
             (Some (2, 1)%nat)
         else mret fig);
  mret (update_layout fig
          [("title", opt_str title);
           ("yaxis.title", Some (VStr "Price"));
           ("yaxis2.title", if volume then Some (VStr "Volume") else None);
           ("xaxis.rangeslider.visible", Some (VBool false))]).

(** [create_candlestick(data, title, volume, indicators)]; [indicators] is
    accepted and not used. *)
Definition create_candlestick (data : DataFrame) (title : option string)
    (volume : bool) (indicators : option (list string)) : M ref :=
  fig ← lift (candlestick_figure data title volume);
  chart ← new data title;
  set_fig chart fig;;
  mret chart.

End Base.

(** ** indicators/technical.py *)

Module Technical.

Import Pandas Plotly Base.

(** The names bound in the module's global namespace once it is loaded: the
    four import statements of lines 5 to 8 and the five function
    definitions.  [plotly.graph_objects] is not imported here. *)
Definition module_globals : list string :=
  ["pd"; "np"; "Optional"; "Union"; "Tuple"; "Chart";
   "add_sma"; "add_ema"; "add_rsi"; "add_macd"; "add_bollinger_bands"].

(** The builtins the module's code refers to; [dict] builds the [line]
    argument of the scatter traces. *)
Definition builtins : list string := ["dict"; "int"; "float"; "str"].

(** Reading a global name: module namespace first, then builtins. *)
Definition load_global (name : string) : result unit :=
  if decide (name ∈ module_globals ∨ name ∈ builtins) then Ok tt
  else Raise (NameError name).

Definition line_width_1 : kwargs := [("line.width", Some (VInt 1))].

(** Line 26: [sma = data[column].rolling(window=period).mean()] *)
Definition sma (data : DataFrame) (period : Z) (column : string) : result Series :=
  col ← getitem data column;
  r ← rolling col period;
  mret (mean r).

(** [add_sma(chart, period, column)] *)
Definition add_sma (chart : ref) (period : Z) (column : string) : M ref :=
  c ← load chart;
  match fig c with
  | None => mret chart
  | Some f =>
      let data := data c in
      sma ← lift (sma data period column);
      lift (load_global "go");;
      lift (load_global "dict");;
      f' ← lift (add_trace f
                   (new_trace Scatter
                      ([("x", Some (VInts (index data)));
                        ("y", Some (VSeries sma));
                        ("name", Some (VStr ("SMA " +:+ pretty period)))]
                       ++ line_width_1))
                   None);
      set_fig chart f';;
      mret chart
  end.

(** Line 55: [ema = data[column].ewm(span=period, adjust=False).mean()] *)
Definition ema (data : DataFrame) (period : Z) (column : string) : result Series :=
  col ← getitem data column;
  e ← ewm col period;
  mret (ewm_mean e).

(** [add_ema(chart, period, column)] *)
Definition add_ema (chart : ref) (period : Z) (column : string) : M ref :=
  c ← load chart;
  match fig c with
  | None => mret chart
  | Some f =>
      let data := data c in
      ema ← lift (ema data period column);
      lift (load_global "go");;
      lift (load_global "dict");;
      f' ← lift (add_trace f
                   (new_trace Scatter
                      ([("x", Some (VInts (index data)));
                        ("y", Some (VSeries ema));
                        ("name", Some (VStr ("EMA " +:+ pretty period)))]
                       ++ line_width_1))
                   None);
      set_fig chart f';;
      mret chart
  end.

(** The local variables of [add_rsi], lines 86 to 94. *)
Record rsi_locals : Type := mkRsi {
  delta : Series;
  gain : Series;
  loss : Series;
  rs : Series;
  rsi : Series
}.

Definition rsi_compute (data : DataFrame) (period : Z) (column : string)
    : result rsi_locals :=
  col ← getitem data column;
  let delta := diff col in
  rg ← rolling (where_ delta (gt_scalar delta (of_Z 0)) (of_Z 0)) period;
  let gain := mean rg in
  rl ← rolling (neg (where_ delta (lt_scalar delta (of_Z 0)) (of_Z 0))) period;
  let loss := mean rl in
  let rs := div gain loss in
  let rsi := scalar_sub (of_Z 100) (scalar_div (of_Z 100) (scalar_add (of_Z 1) rs)) in
  mret (mkRsi delta gain loss rs rsi).

(** [add_rsi(chart, period, column)] *)
Definition add_rsi (chart : ref) (period : Z) (column : string) : M ref :=
  c ← load chart;
  match fig c with
  | None => mret chart
  | Some f =>
      let data := data c in
      v ← lift (rsi_compute data period column);
      lift (load_global "go");;
      lift (load_global "dict");;
      f1 ← lift (add_trace f
                   (new_trace Scatter
                      ([("x", Some (VInts (index data)));
                        ("y", Some (VSeries (rsi v)));
                        ("name", Some (VStr "RSI"))]
                       ++ line_width_1))
                   (Some (2, 1)%nat));
      set_fig chart f1;;
      f2 ← lift (add_hline f1 70 "dash" "red" (2, 1)%nat);
      set_fig chart f2;;
      f3 ← lift (add_hline f2 30 "dash" "green" (2, 1)%nat);
      set_fig chart f3;;
      mret chart
  end.

(** The local variables of [add_macd], lines 139 to 143. *)
Record macd_locals : Type := mkMacd {
  exp1 : Series;
  exp2 : Series;
  macd : Series;
  signal : Series;
  hist : Series
}.

Definition macd_compute (data : DataFrame) (fast_period slow_period signal_period : Z)
    (column : string) : result macd_locals :=
  col1 ← getitem data column;
  e1 ← ewm col1 fast_period;
  let exp1 := ewm_mean e1 in
  col2 ← getitem data column;
  e2 ← ewm col2 slow_period;
  let exp2 := ewm_mean e2 in
  let macd := sub exp1 exp2 in
  es ← ewm macd signal_period;
  let signal := ewm_mean es in
  let hist := sub macd signal in
  mret (mkMacd exp1 exp2 macd signal hist).

(** [add_macd(chart, fast_period, slow_period, signal_period, column)] *)
Definition add_macd (chart : ref) (fast_period slow_period signal_period : Z)
    (column : string) : M ref :=
  c ← load chart;
  match fig c with
  | None => mret chart
  | Some f =>
      let data := data c in
      v ← lift (macd_compute data fast_period slow_period signal_period column);
      lift (load_global "go");;
      lift (load_global "dict");;
      f1 ← lift (add_trace f
                   (new_trace Scatter
                      ([("x", Some (VInts (index data)));
                        ("y", Some (VSeries (macd v)));
                        ("name", Some (VStr "MACD"))]
                       ++ line_width_1))
                   (Some (2, 1)%nat));
      set_fig chart f1;;
      lift (load_global "go");;
      lift (load_global "dict");;
      f2 ← lift (add_trace f1
                   (new_trace Scatter
                      ([("x", Some (VInts (index data)));
                        ("y", Some (VSeries (signal v)));
                        ("name", Some (VStr "Signal"))]
                       ++ line_width_1))
                   (Some (2, 1)%nat));
      set_fig chart f2;;
      lift (load_global "go");;
      f3 ← lift (add_trace f2
                   (new_trace Bar
                      [("x", Some (VInts (index data)));
                       ("y", Some (VSeries (hist v)));
                       ("name", Some (VStr "Histogram"))])
                   (Some (2, 1)%nat));
      set_fig chart f3;;
      mret chart
  end.

(** The local variables of [add_bollinger_bands], lines 201 to 204. *)
Record bollinger_locals : Type := mkBollinger {
  ma : Series;
  std : Series;
  upper : Series;
  lower : Series
}.

Section Bollinger.

(** The square root used by the rolling standard deviation. *)
Variable sqrt : Qc → Qc.

Definition bollinger_compute (data : DataFrame) (period : Z) (std_dev : pyfloat)
    (column : string) : result bollinger_locals :=
  col1 ← getitem data column;
  r1 ← rolling col1 period;
  let ma := mean r1 in
  col2 ← getitem data column;
  r2 ← rolling col2 period;
  let std := Pandas.std sqrt r2 in
  let upper := add ma (mul_scalar std std_dev) in
  let lower := sub ma (mul_scalar std std_dev) in
  mret (mkBollinger ma std upper lower).

(** [add_bollinger_bands(chart, period, std_dev, column)] *)
Definition add_bollinger_bands (chart : ref) (period : Z) (std_dev : pyfloat)
    (column : string) : M ref :=
  c ← load chart;
  match fig c with
  | None => mret chart
  | Some f =>
      let data := data c in
      v ← lift (bollinger_compute data period std_dev column);
      lift (load_global "go");;
      lift (load_global "dict");;
      f1 ← lift (add_trace f
                   (new_trace Scatter
                      [("x", Some (VInts (index data)));
                       ("y", Some (VSeries (upper v)));
                       ("name", Some (VStr "Upper Band"));
                       ("line.width", Some (VInt 1));
                       ("line.dash", Some (VStr "dash"))])
                   None);
      set_fig chart f1;;
      lift (load_global "go");;
      lift (load_global "dict");;
      f2 ← lift (add_trace f1
                   (new_trace Scatter
                      [("x", Some (VInts (index data)));
                       ("y", Some (VSeries (lower v)));
                       ("name", Some (VStr "Lower Band"));
                       ("line.width", Some (VInt 1));
                       ("line.dash", Some (VStr "dash"));
                       ("fill", Some (VStr "tonexty"))])
                   None);
      set_fig chart f2;;
      mret chart
  end.

End Bollinger.

End Technical.

(** ** ml/visualizations.py *)

Module Visualizations.

Import Pandas Plotly Base.

(** [pd.DataFrame({name: values, ...})]: the columns in the order given, all
    of one length, over a fresh range index. *)
Definition from_dict (cols : list (string * Series)) : result DataFrame :=
  match cols with
  | [] => Ok (mkDataFrame [] [])
  | (_, s) :: _ =>
      if decide (Forall (λ kv : string * Series, length kv.2 = length s) cols) then
        Ok (mkDataFrame (Z.of_nat <$> seq 0 (length s)) cols)
      else Raise (ValueError "All arrays must be of the same length")
  end.

Section RocCurve.

(** scikit-learn's [roc_curve] and [auc], and the rendering of a float by the
    format specification [.2f], are parameters of the model. *)
Variable roc_curve : list Z → Series → result (Series * Series * Series).
Variable auc : Series → Series → result pyfloat.
Variable format_2f : pyfloat → string.

(** [title or 'ROC Curve'] *)
Definition title_or (title : option string) (default : string) : string :=
  match title with
  | Some t => if decide (t = "") then default else t
  | None => default
  end.

(** [plot_roc_curve(y_true, y_score, title)] *)
Definition plot_roc_curve (y_true : list Z) (y_score : Series) (title : option string)
    : M ref :=
  '(fpr, tpr, _) ← lift (roc_curve y_true y_score);
  roc_auc ← lift (auc fpr tpr);
  let fig := new_figure in
  fig ← lift (add_trace fig
                (new_trace Scatter
                   [("x", Some (VSeries fpr));
                    ("y", Some (VSeries tpr));
                    ("name", Some (VStr ("ROC (AUC = " +:+ format_2f roc_auc +:+ ")")));
                    ("mode", Some (VStr "lines"));
                    ("line.width", Some (VInt 2))])
                None);
  fig ← lift (add_trace fig
                (new_trace Scatter
                   [("x", Some (VInts [0; 1]%Z));
                    ("y", Some (VInts [0; 1]%Z));
                    ("name", Some (VStr "Random"));
                    ("mode", Some (VStr "lines"));
                    ("line.width", Some (VInt 2));
                    ("line.dash", Some (VStr "dash"))])
                None);
  let fig := update_layout fig
               [("title", Some (VStr (title_or title "ROC Curve")));
                ("xaxis.title", Some (VStr "False Positive Rate"));
                ("yaxis.title", Some (VStr "True Positive Rate"));
                ("showlegend", Some (VBool true))] in
  df ← lift (from_dict [("fpr", fpr); ("tpr", tpr)]);
  chart ← new df title;
  set_fig chart fig;;
  mret chart.

End RocCurve.

End Visualizations.

(** ** The indicator formulas, written from their textbook statements *)

Module Reference.

Import Pandas.

(** [xs[lo..hi]], both ends included. *)
Definition slice (lo hi : nat) (xs : list Qc) : list Qc :=
  take (S hi - lo) (drop lo xs).

(** The [p] values ending at position [i]: [xs[i-p+1..i]]. *)
Definition trailing_window (p i : nat) (xs : list Qc) : list Qc :=
  slice (S i - p) i xs.

(** Unweighted arithmetic mean. *)
Definition arith_mean (xs : list Qc) : Qc := sum xs / Qc_of_nat (length xs).

(** Sample variance: squared deviations from the mean over [n - 1]. *)
Definition sample_var (xs : list Qc) : Qc :=
  sum ((λ x, (x - arith_mean xs) * (x - arith_mean xs)) <$> xs)
  / Qc_of_nat (length xs - 1).

(** [p]-rolling mean at position [i]: defined once [p] values are there
    (never, for an empty window). *)
Definition rolling_mean (p : nat) (xs : list Qc) (i : nat) : pyfloat :=
  if decide (1 ≤ p ≤ S i)%nat then Num (arith_mean (trailing_window p i xs)) else NaN.

(** [p]-rolling sample standard deviation at position [i]: needs two values. *)
Definition rolling_std (sqrt : Qc → Qc) (p : nat) (xs : list Qc) (i : nat) : pyfloat :=
  if decide (2 ≤ p ≤ S i)%nat then Num (sqrt (sample_var (trailing_window p i xs)))
  else NaN.

(** The recursion [y0 = x0], [y(i) = a * x(i) + (1 - a) * y(i-1)]. *)
Fixpoint ema_from (a prev : Qc) (xs : list Qc) : list Qc :=
  match xs with
  | [] => []
  | x :: rest => let y := a * x + (1 - a) * prev in y :: ema_from a y rest
  end.

Definition EMA (a : Qc) (xs : list Qc) : list Qc :=
  match xs with
  | [] => []
  | x0 :: rest => x0 :: ema_from a x0 rest
  end.

(** Smoothing factor of a span. *)
Definition alpha_of (span : Z) : Qc := Qc_of_Z 2 / (Qc_of_Z span + 1).

(** One-step differences; there is none at position 0. *)
Definition step_diff (xs : list Qc) (i : nat) : option Qc :=
  match i with
  | O => None
  | S j => x ← xs !! i; y ← xs !! j; Some (x - y)
  end.

(** The positive differences, everything else counted as 0. *)
Definition up_move (xs : list Qc) (i : nat) : Qc :=
  match step_diff xs i with
  | Some d => if decide (0 < d) then d else 0
  | None => 0
  end.

(** The magnitudes of the negative differences, everything else counted as 0. *)
Definition down_move (xs : list Qc) (i : nat) : Qc :=
  match step_diff xs i with
  | Some d => if decide (d < 0) then - d else 0
  | None => 0
  end.

Definition up_moves (xs : list Qc) : list Qc := up_move xs <$> seq 0 (length xs).
Definition down_moves (xs : list Qc) : list Qc := down_move xs <$> seq 0 (length xs).

Definition strictly_increasing (xs : list Qc) : Prop :=
  ∀ i x y, xs !! i = Some x → xs !! S i = Some y → x < y.

End Reference.

(** ** Sample inputs *)

Module Examples.

Import Pandas Plotly Base.

Definition nums (zs : list Z) : list Qc := Qc_of_Z <$> zs.

(** Five rows of prices with a volume column. *)
Definition closes : list Qc := nums [1; 2; 4; 3; 7]%Z.

Definition ohlcv : DataFrame :=
  mkDataFrame [0; 1; 2; 3; 4]%Z
    [("Open", Num <$> nums [1; 1; 2; 4; 3]%Z);
     ("High", Num <$> nums [2; 3; 5; 4; 8]%Z);
     ("Low", Num <$> nums [0; 1; 2; 2; 3]%Z);
     ("Close", Num <$> closes);
     ("Volume", Num <$> nums [10; 20; 15; 30; 25]%Z)].

(** Three evenly spaced prices: their sample variance is a square. *)
Definition steps_frame : DataFrame :=
  mkDataFrame [0; 1; 2]%Z [("Close", Num <$> nums [0; 3; 6]%Z)].



(** A store holding one chart that has a figure over the price frame. *)
Definition price_store : gmap nat Chart :=
  {[ 0%nat := mkChart ohlcv None (Some new_figure) ]}.

(** A store holding one chart without a figure. *)
Definition bare_store : gmap nat Chart :=
  {[ 0%nat := mkChart ohlcv (Some "prices") None ]}.

(** A square root that is exact on squares of rationals. *)
Definition sqrt_floor (q : Qc) : Qc :=
  Q2Qc (Z.sqrt (Qnum q) # Pos.sqrt (Qden q)).

(** The ROC points of two labels scored 0.8 and 0.3, the first positive. *)
Definition roc_curve_two (y_true : list Z) (y_score : Series)
    : result (Series * Series * Series) :=
  if decide (length y_true = length y_score) then
    Ok (Num <$> nums [0; 0; 1]%Z, Num <$> nums [0; 1; 1]%Z,
        [PInf; Num (Qc_of_Z 8 / Qc_of_Z 10); Num (Qc_of_Z 3 / Qc_of_Z 10)])
  else Raise (ValueError "inconsistent numbers of samples").

(** Area under a polyline by the trapezoidal rule. *)
Fixpoint trapezoid (xs ys : list pyfloat) : pyfloat :=
  match xs, ys with
  | x0 :: ((x1 :: _) as xs'), y0 :: ((y1 :: _) as ys') =>
      fadd (fdiv (fmul (fsub x1 x0) (fadd y0 y1)) (of_Z 2)) (trapezoid xs' ys')
  | _, _ => of_Z 0
  end.

Definition auc_trapezoid (xs ys : Series) : result pyfloat :=
  if decide (length xs < 2)%nat then
    Raise (ValueError "At least 2 points are needed to compute area under curve")
  else Ok (trapezoid xs ys).

(** Two decimals of a nonnegative number, rounded half up. *)
Definition two_decimals (x : pyfloat) : string :=
  match x with
  | Num q =>
      let n := Qfloor (this q * inject_Z 100 + (1 # 2))%Q in
      let frac := (n `mod` 100)%Z in
      pretty (n `div` 100)%Z +:+ "." +:+
      (if decide (frac < 10)%Z then "0" else "") +:+ pretty frac
  | PInf => "inf"
  | NInf => "-inf"
  | NaN => "nan"
  end.

(** A series as printed: numbers in lowest terms, the rest by name. *)
Definition view (x : pyfloat) : Q + string :=
  match x with
  | Num q => inl (this q)
  | PInf => inr "inf"
  | NInf => inr "-inf"
  | NaN => inr "nan"
  end.

Definition printed (r : result Series) : result (list (Q + string)) :=
  match r with
  | Ok s => Ok (view <$> s)
  | Raise e => Raise e
  end.

End Examples.


Definition roc_run : result nat * gmap nat Base.Chart :=
  Visualizations.plot_roc_curve Examples.roc_curve_two Examples.auc_trapezoid
    Examples.two_decimals [1; 0]%Z
    [Num (Qc_of_Z 8 / Qc_of_Z 10); Num (Qc_of_Z 3 / Qc_of_Z 10)] None ∅.

(** ** Outcomes of the indicator functions *)

(** What an indicator function does on a chart that has a figure: it runs
    the indicator arithmetic, then fails to find [go]; the store is not
    touched. *)
Definition stops_at_go {A} (computed : result A) (h : gmap nat Base.Chart)
    : result nat * gmap nat Base.Chart :=
  match computed with
  | Ok _ => (Raise (NameError "go"), h)
  | Raise e => (Raise e, h)
  end.

(** The outcome [out] of an indicator function run in store [h] on chart [c],
    where [computed] is its indicator arithmetic: an exception is raised
    exactly when the chart has a figure; it is the NameError for [go] exactly
    when, in addition, the arithmetic succeeds, and the arithmetic's own
    exception otherwise; the store is left as it was. *)
Definition guarded_by_figure {A} (c : Base.Chart) (computed : result A)
    (h : gmap nat Base.Chart) (out : result nat * gmap nat Base.Chart) : Prop :=
  (raises out.1 ↔ is_Some (Base.fig c)) ∧
  (out.1 = Raise (NameError "go") ↔ is_Some (Base.fig c) ∧ ∃ v, computed = Ok v) ∧
  (∀ e, is_Some (Base.fig c) → computed = Raise e → out.1 = Raise e) ∧
  out.2 = h.

(** ** charts/base.py: the chart constructors and the output methods *)

Module Constructors.

Import Pandas Plotly Base.

(** What a constructor can raise: the exceptions of pandas and plotly, and
    the IndexError of positional access into a frame without columns. *)
Inductive raised : Type :=
  | Of (e : exn)
  | IndexError (msg : string).

Inductive outcome (A : Type) : Type :=
  | Returned (a : A)
  | Failed (e : raised).
Arguments Returned {A} a.
Arguments Failed {A} e.

Global Instance outcome_ret : MRet outcome := @Returned.
Global Instance outcome_bind : MBind outcome := λ A B k o,
  match o with
  | Returned a => k a
  | Failed e => Failed e
  end.

Definition of_result {A} (r : result A) : outcome A :=
  match r with
  | Ok a => Returned a
  | Raise e => Failed (Of e)
  end.

(** [name if name else ...]: a column name counts when it is a nonempty
    string; [None] and [''] are both falsy. *)
Definition given (name : option string) : option string :=
  match name with
  | Some s => if decide (s = "") then None else Some s
  | None => None
  end.

(** [data.iloc[:, 0]] *)
Definition iloc_first (data : DataFrame) : outcome Series :=
  match columns data with
  | [] => Failed (IndexError "single positional indexer is out-of-bounds")
  | (_, s) :: _ => Returned s
  end.

(** [data.columns[0]] *)
Definition first_column_name (data : DataFrame) : outcome string :=
  match column_names data with
  | [] => Failed (IndexError "index 0 is out of bounds for axis 0 with size 0")
  | n :: _ => Returned n
  end.

(** [data[x] if x else data.index] *)
Definition x_values (data : DataFrame) (x : option string) : outcome value :=
  match given x with
  | Some c => s ← of_result (getitem data c); mret (VSeries s)
  | None => mret (VInts (index data))
  end.

(** [data[y] if y else data.iloc[:, 0]] *)
Definition y_values (data : DataFrame) (y : option string) : outcome Series :=
  match given y with
  | Some c => of_result (getitem data c)
  | None => iloc_first data
  end.

(** [y if y else data.columns[0]] *)
Definition trace_name (data : DataFrame) (y : option string) : outcome string :=
  match given y with
  | Some c => mret c
  | None => first_column_name data
  end.

(** [fig.update_layout(title=title, xaxis_title=x, yaxis_title=y)] *)
Definition titled (fig : Figure) (title x y : option string) : Figure :=
  update_layout fig
    [("title", opt_str title); ("xaxis.title", opt_str x); ("yaxis.title", opt_str y)].

(** The figure of [create_line]; keyword arguments are evaluated left to
    right: [x], [y], [mode], [name]. *)
Definition line_figure (data : DataFrame) (title x y : option string) : outcome Figure :=
  let fig := new_figure in
  xs ← x_values data x;
  ys ← y_values data y;
  name ← trace_name data y;
  fig ← of_result (add_trace fig
                     (new_trace Scatter
                        [("x", Some xs); ("y", Some (VSeries ys));
                         ("mode", Some (VStr "lines")); ("name", Some (VStr name))])
                     None);
  mret (titled fig title x y).

(** The figure of [create_bar]. *)
Definition bar_figure (data : DataFrame) (title x y : option string) : outcome Figure :=
  let fig := new_figure in
  xs ← x_values data x;
  ys ← y_values data y;
  name ← trace_name data y;
  fig ← of_result (add_trace fig
                     (new_trace Bar
                        [("x", Some xs); ("y", Some (VSeries ys));
                         ("name", Some (VStr name))])
                     None);
  mret (titled fig title x y).

(** The figure of [create_area]. *)
Definition area_figure (data : DataFrame) (title x y : option string) : outcome Figure :=
  let fig := new_figure in
  xs ← x_values data x;
  ys ← y_values data y;
  name ← trace_name data y;
  fig ← of_result (add_trace fig
                     (new_trace Scatter
                        [("x", Some xs); ("y", Some (VSeries ys));
                         ("fill", Some (VStr "tozeroy")); ("name", Some (VStr name))])
                     None);
  mret (titled fig title x y).

(** [data[color] if color else None] *)
Definition marker_color (data : DataFrame) (color : option string)
    : outcome (option value) :=
  match given color with
  | Some c => s ← of_result (getitem data c); mret (Some (VSeries s))
  | None => mret None
  end.

(** The figure of [create_scatter]; the marker dictionary is built after
    [x], [y] and [mode], before [name]. *)
Definition scatter_figure (data : DataFrame) (title x y color : option string)
    : outcome Figure :=
  let fig := new_figure in
  xs ← x_values data x;
  ys ← y_values data y;
  col ← marker_color data color;
  name ← trace_name data y;
  fig ← of_result (add_trace fig
                     (new_trace Scatter
                        [("x", Some xs); ("y", Some (VSeries ys));
                         ("mode", Some (VStr "markers"));
                         ("marker.color", col);
                         ("marker.colorscale", Some (VStr "Viridis"));
                         ("marker.showscale", Some (VBool (bool_decide (is_Some (given color)))));
                         ("name", Some (VStr name))])
                     None);
  mret (titled fig title x y).

(** [chart = Chart(data, title); chart.fig = fig; return chart], run when the
    figure was built; nothing is allocated when building it raised. *)
Definition finish (data : DataFrame) (title : option string) (fig : outcome Figure)
    (h : gmap nat Chart) : outcome nat * gmap nat Chart :=
  match fig with
  | Failed e => (Failed e, h)
  | Returned f =>
      let '(r, h') := (chart ← new data title; set_fig chart f;; mret chart) h in
      (of_result r, h')
  end.

(** [create_line(data, title, x, y)] *)
Definition create_line (data : DataFrame) (title x y : option string) :=
  finish data title (line_figure data title x y).

(** [create_bar(data, title, x, y)] *)
Definition create_bar (data : DataFrame) (title x y : option string) :=
  finish data title (bar_figure data title x y).

(** [create_area(data, title, x, y)] *)
Definition create_area (data : DataFrame) (title x y : option string) :=
  finish data title (area_figure data title x y).

(** [create_scatter(data, title, x, y, color)] *)
Definition create_scatter (data : DataFrame) (title x y color : option string) :=
  finish data title (scatter_figure data title x y color).

(** What [show] and [write_html] ask plotly to do. *)
Inductive output : Type :=
  | Shown (f : Figure)
  | Written (f : Figure) (filename : string).

(** [Chart.show]: the figure is displayed when there is one; the method
    returns [None] either way, the result here is the display requested. *)
Definition show (self : ref) : M (option output) :=
  c ← load self;
  match fig c with
  | Some f => mret (Some (Shown f))
  | None => mret None
  end.

(** [Chart.write_html] *)
Definition write_html (self : ref) (filename : string) : M (option output) :=
  c ← load self;
  match fig c with
  | Some f => mret (Some (Written f filename))
  | None => mret None
  end.

End Constructors.

(** ** ml/visualizations.py: actual against predicted values *)

Module Predictions.

Import Pandas Plotly Base Visualizations.

Definition is_inf (x : pyfloat) : bool :=
  match x with PInf | NInf => true | _ => false end.

(** [s.std()]: sample standard deviation (ddof = 1) of the values that are
    not NaN; NaN on fewer than two of them, and NaN when one is infinite. *)
Definition series_std (sqrt : Qc → Qc) (s : Series) : pyfloat :=
  if existsb is_inf s then NaN else std_of sqrt (observations s).

Definition add_scalar (a : Series) (k : pyfloat) : Series := (λ x, fadd x k) <$> a.
Definition sub_scalar (a : Series) (k : pyfloat) : Series := (λ x, fsub x k) <$> a.

Definition band_color : string := "rgba(0,100,80,0.2)".

Section PlotPredictions.

Variable sqrt : Qc → Qc.

(** The figure of [plot_predictions]. *)
Definition predictions_figure (data : DataFrame) (actual predicted : string)
    (title : option string) : result Figure :=
  let fig := new_figure in
  a ← getitem data actual;
  fig ← add_trace fig
          (new_trace Scatter
             [("x", Some (VInts (index data))); ("y", Some (VSeries a));
              ("name", Some (VStr "Actual")); ("mode", Some (VStr "lines"));
              ("line.width", Some (VInt 2))])
          None;
  p ← getitem data predicted;
  fig ← add_trace fig
          (new_trace Scatter
             [("x", Some (VInts (index data))); ("y", Some (VSeries p));
              ("name", Some (VStr "Predicted")); ("mode", Some (VStr "lines"));
              ("line.width", Some (VInt 2)); ("line.dash", Some (VStr "dash"))])
          None;
  a' ← getitem data actual;
  p' ← getitem data predicted;
  let error := sub a' p' in
  p1 ← getitem data predicted;
  fig ← add_trace fig
          (new_trace Scatter
             [("x", Some (VInts (index data)));
              ("y", Some (VSeries (add_scalar p1 (series_std sqrt error))));
              ("fill", None); ("mode", Some (VStr "lines"));
              ("line.color", Some (VStr band_color));
              ("name", Some (VStr "Error Band"))])
          None;
  p2 ← getitem data predicted;
  fig ← add_trace fig
          (new_trace Scatter
             [("x", Some (VInts (index data)));
              ("y", Some (VSeries (sub_scalar p2 (series_std sqrt error))));
              ("fill", Some (VStr "tonexty")); ("mode", Some (VStr "lines"));
              ("line.color", Some (VStr band_color));
              ("name", Some (VStr "Error Band"))])
          None;
  mret (update_layout fig
          [("title", Some (VStr (title_or title "Actual vs Predicted Values")));
           ("xaxis.title", Some (VStr "Time"));
           ("yaxis.title", Some (VStr "Value"));
           ("showlegend", Some (VBool true))]).

(** [plot_predictions(data, actual, predicted, title)] *)
Definition plot_predictions (data : DataFrame) (actual predicted : string)
    (title : option string) : M ref :=
  fig ← lift (predictions_figure data actual predicted title);
  chart ← new data title;
  set_fig chart fig;;
  mret chart.

End PlotPredictions.

(** The [y] series of the traces of a figure, in order. *)
Definition plotted (f : Figure) : list (option value) :=
  (λ tc : Trace * option (nat * nat), props tc.1 !! "y") <$> traces f.

End Predictions.

(** ** examples/app.py: the chart section of [main] *)

Module App.

Import Pandas Plotly Base Technical Constructors.

(** Lines 24 to 44 of [main], from the downloaded frame on: build the
    candlestick chart, add the three indicators with the arguments the
    example passes and the defaults of the rest, add the interactive
    features, show the chart and save it. *)
Definition main_charts (data : DataFrame) : M (option output) :=
  chart ← create_candlestick data (Some "Apple Inc. (AAPL) Stock Price") true None;
  chart ← add_sma chart 20 "Close";
  chart ← add_rsi chart 14 "Close";
  chart ← add_macd chart 12 26 9 "Close";
  add_range_slider chart;;
  add_zoom_pan chart;;
  add_tooltips chart;;
  show chart;;
  write_html chart "apple_stock_analysis.html".

End App.

(** ** Reading keyword arguments *)

Module Kwargs.

Import Plotly.

(** What a list of keyword arguments says last about a key: [None] when the
    key does not occur, [Some None] when it is last bound to [None]. *)
Fixpoint last_bound (k : string) (kw : kwargs) : option (option value) :=
  match kw with
  | [] => None
  | kv :: rest =>
      match last_bound k rest with
      | Some o => Some o
      | None => if decide (kv.1 = k) then Some kv.2 else None
      end
  end.

(** The keys a list of keyword arguments binds. *)
Definition keys (kw : kwargs) : list string := kw.*1.

End Kwargs.

(** ** Variations of a price column *)

Module Variations.

(** Every price rescaled and shifted: [k * x + c]. *)
Definition affine (k c : Qc) (xs : list Qc) : list Qc := (λ x, k * x + c) <$> xs.

Definition strictly_decreasing (xs : list Qc) : Prop :=
  ∀ i x y, xs !! i = Some x → xs !! S i = Some y → y < x.

(** A float multiplied by a positive number, NaN and infinities kept. *)
Definition scaled (k : Qc) (x : pyfloat) : pyfloat :=
  match x with Num m => Num (k * m) | other => other end.

(** A float rescaled and shifted, NaN and infinities kept. *)
Definition moved (k c : Qc) (x : pyfloat) : pyfloat :=
  match x with Num m => Num (k * m + c) | other => other end.

(** All prices within [lo, hi]. *)
Definition within (lo hi : Qc) (xs : list Qc) : Prop :=
  Forall (λ x, lo ≤ x ∧ x ≤ hi) xs.

(** Python's [str] truthiness on optional names, as a proposition. *)
Definition named (x : option string) (c : string) : Prop := x = Some c ∧ c ≠ "".

(** A column argument that can be used: when it names a column, the frame
    has that column. *)
Definition usable (data : Pandas.DataFrame) (x : option string) : Prop :=
  ∀ c, named x c → c ∈ Pandas.column_names data.

(** The [y] argument can be used: as above, and when it is left out the
    frame has a first column. *)
Definition plottable (data : Pandas.DataFrame) (y : option string) : Prop :=
  usable data y ∧ ((∀ c, ¬ named y c) → Pandas.columns data ≠ []).

End Variations.

(** ** More sample inputs *)

Module Samples.

Import Pandas Plotly Base Technical Examples Variations.

Definition close_frame (index : list Z) (s : Series) : DataFrame :=
  mkDataFrame index [("Close", s)].

(** The sample prices in another unit and at another level: [2 * x + 3]. *)
Definition scaled_frame : DataFrame :=
  close_frame [0; 1; 2; 3; 4]%Z (Num <$> affine (Qc_of_Z 2) (Qc_of_Z 3) closes).


(** The sample prices five higher. *)
Definition shifted_frame : DataFrame :=
  close_frame [0; 1; 2; 3; 4]%Z (Num <$> affine 1 (Qc_of_Z 5) closes).

(** Four rows at the same price. *)
Definition flat_frame : DataFrame :=
  close_frame [0; 1; 2; 3]%Z (replicate 4 (Num (Qc_of_Z 3))).

(** A column with missing and infinite prices. *)
Definition gappy : Series := [NaN; Num (Qc_of_Z 1); NaN; Num (Qc_of_Z 3); PInf].

Definition gappy_frame : DataFrame := close_frame [0; 1; 2; 3; 4]%Z gappy.

(** A column that only falls. *)
Definition falling : list Qc := nums [5; 3; 2; 1]%Z.

Definition falling_frame : DataFrame :=
  close_frame [0; 1; 2; 3]%Z (Num <$> falling).

(** Observed values and a forecast of them. *)
Definition observed : Series := Num <$> nums [1; 2; 4]%Z.
Definition forecast : Series := Num <$> nums [1; 3; 3]%Z.

Definition forecast_frame : DataFrame :=
  mkDataFrame [0; 1; 2]%Z [("y", observed); ("yhat", forecast)].

(** What the indicator arithmetic computes on the sample prices. *)
Definition computed {A} (r : result A) (default : A) : A :=
  match r with Ok a => a | Raise _ => default end.

Definition rsi_sample : rsi_locals :=
  computed (rsi_compute ohlcv 2 "Close") (mkRsi [] [] [] [] []).

Definition macd_sample : macd_locals :=
  computed (macd_compute ohlcv 2 3 2 "Close") (mkMacd [] [] [] [] []).

Definition bollinger_sample : bollinger_locals :=
  computed (bollinger_compute sqrt_floor ohlcv 2 (of_Z 2) "Close")
    (mkBollinger [] [] [] []).

Definition ema_sample : Series := computed (ema gappy_frame 3 "Close") [].

End Samples.

(** ** Properties *)

Import Pandas Plotly Base Technical Visualizations Reference Examples.

(** *** The arithmetic on sample columns *)

Example sma_of_closes :
  printed (sma ohlcv 2 "Close")
  = Ok [inr "nan"; inl (3 # 2)%Q; inl 3%Q; inl (7 # 2)%Q; inl 5%Q].
Proof. vm_compute. reflexivity. Qed.

Example ema_of_closes :
  printed (ema ohlcv 3 "Close")
  = Ok [inl 1%Q; inl (3 # 2)%Q; inl (11 # 4)%Q; inl (23 # 8)%Q; inl (79 # 16)%Q].
Proof. vm_compute. reflexivity. Qed.

Example rsi_of_closes :
  printed (rsi <$> rsi_compute ohlcv 2 "Close")
  = Ok [inr "nan"; inl 100%Q; inl 100%Q; inl (200 # 3)%Q; inl 80%Q].
Proof. vm_compute. reflexivity. Qed.

Example rs_of_closes :
  printed (rs <$> rsi_compute ohlcv 2 "Close")
  = Ok [inr "nan"; inr "inf"; inr "inf"; inl 2%Q; inl 4%Q].
Proof. vm_compute. reflexivity. Qed.

Example bands_of_steps :
  printed (upper <$> bollinger_compute sqrt_floor steps_frame 3 (of_Z 2) "Close")
  = Ok [inr "nan"; inr "nan"; inl 9%Q] ∧
  printed (lower <$> bollinger_compute sqrt_floor steps_frame 3 (of_Z 2) "Close")
  = Ok [inr "nan"; inr "nan"; inl (-3)%Q].
Proof. split; vm_compute; reflexivity. Qed.

Example sma_negative_window :
  sma ohlcv (-1) "Close" = Raise (ValueError "window must be an integer 0 or greater").
Proof. reflexivity. Qed.

Example ema_zero_span :
  ema ohlcv 0 "Close" = Raise (ValueError "span must satisfy: span >= 1").
Proof. reflexivity. Qed.

Example add_sma_on_price_chart :
  add_sma 0 20 "Close" price_store = (Raise (NameError "go"), price_store).
Proof. vm_compute. reflexivity. Qed.

(** *** When the indicator arithmetic succeeds *)

Lemma assoc_is_Some (key : string) (cols : list (string * Series)) :
  is_Some (assoc key cols) ↔ key ∈ cols.*1.
Proof.
  induction cols as [|[k v] cols IH]; simpl.
  - split; [by intros [? ?]|by intros ?%elem_of_nil].
  - rewrite elem_of_cons. destruct (decide (k = key)) as [->|Hne].
    + split; [by left|by eexists].
    + rewrite IH. split; [by right|]. by intros [?|?].
Qed.

Lemma getitem_succeeds_iff (data : DataFrame) (column : string) :
  (∃ s, getitem data column = Ok s) ↔ column ∈ column_names data.
Proof.
  unfold getitem, column_names. rewrite <- assoc_is_Some.
  destruct (assoc column (columns data)) as [s|].
  - split; [by eexists|by exists s].
  - split; [by intros [? ?]|by intros [? ?]].
Qed.

Ltac arithmetic_succeeds :=
  unfold sma, ema, rsi_compute, macd_compute, bollinger_compute, rolling, ewm;
  match goal with |- context [getitem ?d ?c] =>
    rewrite <- (getitem_succeeds_iff d c); destruct (getitem d c) as [s|e]
  end;
  cbn [mbind result_bind rbind mret result_ret];
  repeat (case_decide; cbn [mbind result_bind rbind mret result_ret]);
  (split; [intros [v Hv]; try discriminate Hv; repeat split; eauto; lia
          |intros Hok; try (by eexists);
           repeat match goal with H : _ ∧ _ |- _ => destruct H end;
           try lia;
           match goal with H : ∃ _, Raise _ = Ok _ |- _ => by destruct H end]).

Lemma sma_succeeds_iff data period column :
  (∃ v, sma data period column = Ok v) ↔ column ∈ column_names data ∧ (0 ≤ period)%Z.
Proof. arithmetic_succeeds. Qed.

Lemma ema_succeeds_iff data period column :
  (∃ v, ema data period column = Ok v) ↔ column ∈ column_names data ∧ (1 ≤ period)%Z.
Proof. arithmetic_succeeds. Qed.

Lemma rsi_succeeds_iff data period column :
  (∃ v, rsi_compute data period column = Ok v)
  ↔ column ∈ column_names data ∧ (0 ≤ period)%Z.
Proof. arithmetic_succeeds. Qed.

Lemma macd_succeeds_iff data fast slow sig column :
  (∃ v, macd_compute data fast slow sig column = Ok v)
  ↔ column ∈ column_names data ∧ (1 ≤ fast)%Z ∧ (1 ≤ slow)%Z ∧ (1 ≤ sig)%Z.
Proof. arithmetic_succeeds. Qed.

Lemma bollinger_succeeds_iff sqrt data period std_dev column :
  (∃ v, bollinger_compute sqrt data period std_dev column = Ok v)
  ↔ column ∈ column_names data ∧ (0 ≤ period)%Z.
Proof. arithmetic_succeeds. Qed.

(** *** Windows over a series of numbers *)

Lemma observations_num (qs : list Qc) : observations (Num <$> qs) = qs.
Proof.
  unfold observations. induction qs as [|q qs IH]; csimpl; [done|].
  by rewrite IH.
Qed.

Lemma window_at_num (w i : nat) (qs : list Qc) :
  window_at w i (Num <$> qs) = Num <$> drop (S i - w) (take (S i) qs).
Proof. unfold window_at. by rewrite fmap_drop, fmap_take. Qed.

Lemma window_is_trailing (w i : nat) (qs : list Qc) :
  (w ≤ S i)%nat → drop (S i - w) (take (S i) qs) = trailing_window w i qs.
Proof.
  intros Hw. unfold trailing_window, slice.
  rewrite take_drop_commute. do 2 f_equal. lia.
Qed.

Lemma window_length (w i : nat) (qs : list Qc) :
  (i < length qs)%nat → length (drop (S i - w) (take (S i) qs)) = (S i `min` w)%nat.
Proof. intros Hi. rewrite length_drop, length_take. lia. Qed.

Lemma roll_apply_lookup (f : list Qc → pyfloat) (r : Rolling) (i : nat) :
  (i < length (obj r))%nat →
  roll_apply f r !! i =
    Some (let obs := observations (window_at (window r) i (obj r)) in
          if decide (min_periods r ≤ length obs)%nat then f obs else NaN).
Proof.
  intros Hi. unfold roll_apply.
  rewrite list_lookup_fmap, lookup_seq_lt by done. done.
Qed.

Lemma roll_apply_length (f : list Qc → pyfloat) (r : Rolling) :
  length (roll_apply f r) = length (obj r).
Proof. unfold roll_apply. by rewrite length_fmap, length_seq. Qed.

(** The rolling mean of a series of numbers is the textbook rolling mean. *)
Lemma mean_num_lookup (p : nat) (qs : list Qc) (i : nat) :
  (i < length qs)%nat →
  mean (mkRolling (Num <$> qs) p p) !! i = Some (rolling_mean p qs i).
Proof.
  intros Hi. unfold mean.
  rewrite roll_apply_lookup by (simpl; by rewrite length_fmap).
  cbn [obj window min_periods]. cbv zeta.
  rewrite window_at_num, observations_num.
  rewrite window_length by done. unfold rolling_mean.
  destruct (decide (1 ≤ p ≤ S i)%nat) as [Hge|Hlt].
  - rewrite decide_True by lia.
    rewrite window_is_trailing by lia.
    unfold mean_of, arith_mean.
    assert (Hlen : length (trailing_window p i qs) = p).
    { rewrite <- window_is_trailing by lia. rewrite window_length by done. lia. }
    rewrite decide_False by lia. done.
  - destruct (decide (p = 0)%nat) as [->|Hp].
    + rewrite decide_True by lia. unfold mean_of.
      rewrite decide_True; [done|]. rewrite length_drop, length_take. lia.
    + rewrite decide_False by lia. done.
Qed.

Lemma trailing_window_length (p i : nat) (qs : list Qc) :
  (1 ≤ p)%nat → (p - 1 ≤ i)%nat → (i < length qs)%nat →
  length (trailing_window p i qs) = p.
Proof.
  intros Hp Hge Hi. rewrite <- window_is_trailing by lia.
  rewrite window_length by done. lia.
Qed.

(** C2.  For a column of numbers [qs] and a period [p >= 1], the series
    computed at line 26 of [add_sma] has one entry per row; at every position
    [i >= p - 1] it is the unweighted arithmetic mean of the [p] values
    [qs[i-p+1..i]], and at every position [i < p - 1] it is NaN. *)
Theorem sma_is_trailing_mean (data : DataFrame) (column : string) (qs : list Qc) (p : Z) :
  getitem data column = Ok (Num <$> qs) → (1 ≤ p)%Z →
  ∃ out, sma data p column = Ok out ∧ length out = length qs ∧
    ∀ i, (i < length qs)%nat →
      ((Z.to_nat p - 1 ≤ i)%nat →
         length (trailing_window (Z.to_nat p) i qs) = Z.to_nat p ∧
         out !! i = Some (Num (arith_mean (trailing_window (Z.to_nat p) i qs)))) ∧
      ((i < Z.to_nat p - 1)%nat → out !! i = Some NaN).
Proof.
  intros Hcol Hp. unfold sma. rewrite Hcol. simpl.
  unfold rolling. rewrite decide_False by lia. simpl.
  eexists. split; [done|]. split.
  { unfold mean. rewrite roll_apply_length. simpl. by rewrite length_fmap. }
  intros i Hi. rewrite mean_num_lookup by done.
  unfold rolling_mean. split; intros Hc.
  - rewrite decide_True by lia. split; [|done].
    apply trailing_window_length; (done || lia).
  - rewrite decide_False by lia. done.
Qed.

(** *** The exponentially weighted mean of a series of numbers *)

Lemma ewm_step_num (a w c : Qc) :
  ewm_step a (mkSt (Some w) 1) (Num c) = mkSt (Some (a * c + (1 - a) * w)) 1.
Proof.
  unfold ewm_step. cbn [weighted old_wt observation]. do 2 f_equal.
  destruct (decide (w = c)) as [->|_]; [ring|].
  replace (1 * (1 - a) + a) with 1 by ring.
  rewrite Qcdiv_right_id. ring.
Qed.

Lemma ewm_run_num (a w : Qc) (qs : list Qc) :
  ewm_run a (mkSt (Some w) 1) (Num <$> qs) = Num <$> ema_from a w qs.
Proof.
  revert w. induction qs as [|q qs IH]; intros w; [done|].
  cbn [fmap list_fmap ewm_run ema_from]. rewrite ewm_step_num.
  cbv zeta. rewrite IH. done.
Qed.

Lemma ewm_mean_num (a : Qc) (qs : list Qc) :
  ewm_mean (mkEWM (Num <$> qs) a) = Num <$> EMA a qs.
Proof.
  unfold ewm_mean. destruct qs as [|q qs]; [done|].
  cbn [fmap list_fmap ewm_run alpha ewm_obj EMA]. cbv zeta.
  change (ewm_step a (mkSt None 1) (Num q)) with (mkSt (Some q) 1).
  rewrite ewm_run_num. done.
Qed.

Lemma ema_from_length (a prev : Qc) (xs : list Qc) :
  length (ema_from a prev xs) = length xs.
Proof. revert prev. induction xs as [|x xs IH]; intros prev; simpl; [done|]. by rewrite IH. Qed.

Lemma EMA_length (a : Qc) (xs : list Qc) : length (EMA a xs) = length xs.
Proof. destruct xs; simpl; [done|]. by rewrite ema_from_length. Qed.

Lemma ema_from_step (a prev : Qc) (xs : list Qc) (i : nat) (x : Qc) :
  xs !! i = Some x →
  ∃ e, (prev :: ema_from a prev xs) !! i = Some e ∧
       ema_from a prev xs !! i = Some (a * x + (1 - a) * e).
Proof.
  revert prev i. induction xs as [|y xs IH]; intros prev i Hx; [done|].
  destruct i as [|i].
  - simpl in Hx. injection Hx as ->. exists prev. done.
  - simpl in Hx. apply (IH (a * y + (1 - a) * prev)) in Hx as (e & He1 & He2).
    exists e. done.
Qed.

Lemma EMA_step (a : Qc) (xs : list Qc) (i : nat) (x : Qc) :
  xs !! S i = Some x →
  ∃ e, EMA a xs !! i = Some e ∧ EMA a xs !! S i = Some (a * x + (1 - a) * e).
Proof.
  destruct xs as [|x0 xs]; [done|]. intros Hx. simpl in Hx.
  apply (ema_from_step a x0) in Hx as (e & He1 & He2). exists e. done.
Qed.

Lemma EMA_head (a : Qc) (xs : list Qc) : EMA a xs !! 0%nat = xs !! 0%nat.
Proof. by destruct xs. Qed.

Lemma alpha_of_range (span : Z) : (1 ≤ span)%Z → 0 < alpha_of span ∧ alpha_of span ≤ 1.
Proof.
  intros Hs. unfold alpha_of.
  assert (Hpos : 0 < Qc_of_Z span + 1).
  { apply Qcplus_pos_pos; [|done]. rewrite <- Z2Qc_inj_0, <- Z2Qc_inj_lt. lia. }
  assert (Hne : Qc_of_Z span + 1 ≠ 0) by (intros E; rewrite E in Hpos; by destruct (Qclt_not_eq 0 0)).
  split.
  - apply Qcmult_pos_pos; [done|]. by apply Qcinv_pos.
  - apply (Qcmult_le_mono_pos_r _ _ (Qc_of_Z span + 1)); [done|].
    unfold Qcdiv. rewrite <- Qcmult_assoc, Qcmult_inv_l, Qcmult_1_r, Qcmult_1_l by done.
    rewrite <- Z2Qc_inj_1, <- Z2Qc_inj_add, <- Z2Qc_inj_le. lia.
Qed.

Lemma ewm_valid (s : Series) (span : Z) :
  (1 ≤ span)%Z → ewm s span = Ok (mkEWM s (alpha_of span)).
Proof. intros Hs. unfold ewm. by rewrite decide_False by lia. Qed.

Lemma ema_num (data : DataFrame) (column : string) (qs : list Qc) (p : Z) :
  getitem data column = Ok (Num <$> qs) → (1 ≤ p)%Z →
  ema data p column = Ok (Num <$> EMA (alpha_of p) qs).
Proof.
  intros Hcol Hp. unfold ema. rewrite Hcol. cbn [mbind result_bind rbind].
  rewrite ewm_valid by done. cbn [mbind result_bind rbind mret result_ret].
  by rewrite ewm_mean_num.
Qed.

(** C3.  For a column of numbers [qs] and a period [p >= 1], the series
    computed at line 55 of [add_ema] has one entry per row and obeys the
    recursion [ema[0] = qs[0]], [ema[i] = alpha * qs[i] + (1 - alpha) * ema[i-1]]
    with [alpha = 2 / (p + 1)]; [alpha] lies in (0, 1], so the weight
    [1 - alpha] carried over from all earlier values is below 1 at each step. *)
Theorem ema_recursion (data : DataFrame) (column : string) (qs : list Qc) (p : Z) :
  getitem data column = Ok (Num <$> qs) → (1 ≤ p)%Z →
  let a := Qc_of_Z 2 / (Qc_of_Z p + 1) in
  ∃ out, ema data p column = Ok out ∧ length out = length qs ∧
    (0 < a ∧ a ≤ 1) ∧
    (∀ x0, qs !! 0%nat = Some x0 → out !! 0%nat = Some (Num x0)) ∧
    (∀ i x, qs !! S i = Some x →
       ∃ e, out !! i = Some (Num e) ∧ out !! S i = Some (Num (a * x + (1 - a) * e))).
Proof.
  intros Hcol Hp a. exists (Num <$> EMA (alpha_of p) qs).
  split; [by apply ema_num|]. split; [by rewrite length_fmap, EMA_length|].
  split; [by apply alpha_of_range|]. split.
  - intros x0 Hx0. by rewrite list_lookup_fmap, EMA_head, Hx0.
  - intros i x Hx. apply (EMA_step (alpha_of p)) in Hx as (e & He1 & He2).
    exists e. by rewrite !list_lookup_fmap, He1, He2.
Qed.

(** On a column of numbers and spans [>= 1], the locals of [add_macd]. *)
Lemma macd_on_numbers (data : DataFrame) (column : string) (qs : list Qc)
    (fast_period slow_period signal_period : Z) :
  getitem data column = Ok (Num <$> qs) →
  (1 ≤ fast_period)%Z → (1 ≤ slow_period)%Z → (1 ≤ signal_period)%Z →
  let m := zip_with Qcminus (EMA (alpha_of fast_period) qs) (EMA (alpha_of slow_period) qs) in
  let s := EMA (alpha_of signal_period) m in
  ∃ v, macd_compute data fast_period slow_period signal_period column = Ok v ∧
    ema data fast_period column = Ok (exp1 v) ∧
    ema data slow_period column = Ok (exp2 v) ∧
    macd v = sub (exp1 v) (exp2 v) ∧
    macd v = Num <$> m ∧
    signal v = Num <$> s ∧
    hist v = sub (macd v) (signal v) ∧
    hist v = Num <$> zip_with Qcminus m s ∧
    length m = length qs ∧ length s = length qs.
Proof.
  intros Hcol Hf Hs Hg m s.
  assert (Hsub : ∀ xs ys : list Qc, sub (Num <$> xs) (Num <$> ys) = Num <$> zip_with Qcminus xs ys).
  { induction xs as [|x xs IH]; intros [|y ys]; try done.
    unfold sub in *. cbn [fmap list_fmap zip_with]. rewrite IH. done. }
  unfold macd_compute. rewrite Hcol. cbn [mbind result_bind rbind].
  rewrite !ewm_valid by done. cbn [mbind result_bind rbind].
  rewrite !ewm_mean_num, Hsub.
  rewrite ewm_valid by done. cbn [mbind result_bind rbind mret result_ret].
  rewrite ewm_mean_num, Hsub.
  eexists. split; [done|]. cbn [exp1 exp2 macd signal hist].
  rewrite !(ema_num _ _ qs) by done. rewrite Hsub.
  repeat split; try done.
  - subst m. rewrite length_zip_with, !EMA_length. lia.
  - subst s m. rewrite EMA_length, length_zip_with, !EMA_length. lia.
Qed.

(** C4.  For every column of numbers [qs] and all three periods: lines 139
    to 143 of [add_macd] compute their series exactly when pandas accepts
    the three spans (each [>= 1]); in what is computed, [exp1] and [exp2] are
    the series [add_ema] computes for the fast and the slow period, [macd]
    is their element-wise difference, [signal] is the EMA recursion run over
    [macd] with the signal period, and [hist] is the element-wise difference
    of [macd] and [signal]. *)
Theorem macd_is_difference_of_emas (data : DataFrame) (column : string) (qs : list Qc)
    (fast_period slow_period signal_period : Z) :
  getitem data column = Ok (Num <$> qs) →
  ((∃ v, macd_compute data fast_period slow_period signal_period column = Ok v)
   ↔ (1 ≤ fast_period)%Z ∧ (1 ≤ slow_period)%Z ∧ (1 ≤ signal_period)%Z) ∧
  ∀ v, macd_compute data fast_period slow_period signal_period column = Ok v →
    let m := zip_with Qcminus (EMA (alpha_of fast_period) qs)
               (EMA (alpha_of slow_period) qs) in
    let s := EMA (alpha_of signal_period) m in
    ema data fast_period column = Ok (exp1 v) ∧
    ema data slow_period column = Ok (exp2 v) ∧
    macd v = sub (exp1 v) (exp2 v) ∧
    macd v = Num <$> m ∧
    signal v = Num <$> s ∧
    hist v = sub (macd v) (signal v) ∧
    hist v = Num <$> zip_with Qcminus m s ∧
    length m = length qs ∧ length s = length qs.
Proof.
  intros Hcol.
  assert (Hin : column ∈ column_names data) by (apply getitem_succeeds_iff; eauto).
  split; [rewrite macd_succeeds_iff; tauto|].
  intros v Hv.
  assert (Hp : column ∈ column_names data ∧
               (1 ≤ fast_period)%Z ∧ (1 ≤ slow_period)%Z ∧ (1 ≤ signal_period)%Z)
    by (apply macd_succeeds_iff; eauto).
  destruct Hp as (_ & Hf & Hs & Hg).
  destruct (macd_on_numbers data column qs _ _ _ Hcol Hf Hs Hg) as (v' & Hv' & H).
  rewrite Hv in Hv'. injection Hv' as <-. exact H.
Qed.

(** *** Bollinger bands *)

Lemma std_num_lookup (sqrt : Qc → Qc) (p : nat) (qs : list Qc) (i : nat) :
  (i < length qs)%nat →
  Pandas.std sqrt (mkRolling (Num <$> qs) p p) !! i = Some (rolling_std sqrt p qs i).
Proof.
  intros Hi. unfold Pandas.std.
  rewrite roll_apply_lookup by (simpl; by rewrite length_fmap).
  cbn [obj window min_periods]. cbv zeta.
  rewrite window_at_num, observations_num.
  rewrite window_length by done. unfold rolling_std.
  destruct (decide (p ≤ S i `min` p)%nat) as [Hge|Hlt].
  - unfold std_of, var_of. cbv zeta. rewrite window_length by done.
    destruct (decide (2 ≤ p ≤ S i)%nat) as [H2|H2].
    + rewrite decide_False by lia. rewrite window_is_trailing by lia.
      unfold sample_var, arith_mean.
      rewrite (trailing_window_length p i qs) by lia.
      replace (S i `min` p)%nat with p by lia. done.
    + rewrite decide_True by lia. done.
  - rewrite decide_False by lia. done.
Qed.

Lemma fmul_comm (x y : pyfloat) : fmul x y = fmul y x.
Proof. destruct x, y; simpl; try done. f_equal. ring. Qed.

(** A band at distance [t] above [m] and one at distance [t] below it are
    equally far from [m], infinite distances included. *)
Lemma band_symmetry (m t : pyfloat) :
  fadd m t ≠ NaN → fsub m t ≠ NaN →
  fsub (fadd m t) m = fsub m (fsub m t).
Proof.
  destruct m, t; cbn; intros Hu Hl; try done.
  f_equal. ring.
Qed.

(** On a column that exists and a window [>= 0], the locals of
    [add_bollinger_bands]. *)
Lemma bollinger_on_column (sqrt : Qc → Qc) (data : DataFrame) (column : string)
    (s : Series) (p : Z) (std_dev : pyfloat) :
  getitem data column = Ok s → (0 ≤ p)%Z →
  ∃ v, bollinger_compute sqrt data p std_dev column = Ok v ∧
    sma data p column = Ok (ma v) ∧
    (∀ i, (i < length s)%nat →
       ∃ m sg u l, ma v !! i = Some m ∧ Technical.std v !! i = Some sg ∧
         upper v !! i = Some u ∧ lower v !! i = Some l ∧
         u = fadd m (fmul std_dev sg) ∧
         l = fsub m (fmul std_dev sg) ∧
         (u ≠ NaN → l ≠ NaN → fsub u m = fsub m l)) ∧
    (∀ qs, s = Num <$> qs → ∀ i, (i < length qs)%nat →
       ma v !! i = Some (rolling_mean (Z.to_nat p) qs i) ∧
       Technical.std v !! i = Some (rolling_std sqrt (Z.to_nat p) qs i)).
Proof.
  intros Hcol Hp. unfold bollinger_compute, sma. rewrite Hcol.
  cbn [mbind result_bind rbind]. unfold rolling. rewrite decide_False by lia.
  cbn [mbind result_bind rbind mret result_ret].
  eexists. split; [done|]. cbn [ma Technical.std upper lower].
  split; [done|]. split.
  - intros i Hi.
    set (r := mkRolling s (Z.to_nat p) (Z.to_nat p)).
    destruct (mean r !! i) as [m|] eqn:Hm; cycle 1.
    { apply lookup_ge_None in Hm. unfold mean in Hm. rewrite roll_apply_length in Hm.
      simpl in Hm. lia. }
    destruct (Pandas.std sqrt r !! i) as [sg|] eqn:Hsg; cycle 1.
    { apply lookup_ge_None in Hsg. unfold Pandas.std in Hsg.
      rewrite roll_apply_length in Hsg. simpl in Hsg. lia. }
    exists m, sg, (fadd m (fmul std_dev sg)), (fsub m (fmul std_dev sg)).
    unfold add, sub, mul_scalar.
    rewrite !lookup_zip_with, !list_lookup_fmap, Hm, Hsg. simpl.
    rewrite (fmul_comm sg std_dev).
    repeat split; try done. apply band_symmetry.
  - intros qs -> i Hi.
    rewrite mean_num_lookup, std_num_lookup by done. done.
Qed.

(** C5.  For every series [s] taken from the chosen column, every period [p]
    and every multiplier [std_dev]: lines 201 to 204 of
    [add_bollinger_bands] compute bands exactly when pandas accepts the
    window ([p >= 0]); in the bands computed, [ma] is the series [add_sma]
    computes, at every position [upper = ma + std_dev * std] and
    [lower = ma - std_dev * std], and where neither band is NaN
    [upper - ma = ma - lower].  When the series holds numbers, [ma] is its
    [p]-rolling mean and [std] its [p]-rolling sample standard deviation. *)
Theorem bollinger_bands_symmetric (sqrt : Qc → Qc) (data : DataFrame) (column : string)
    (s : Series) (p : Z) (std_dev : pyfloat) :
  getitem data column = Ok s →
  ((∃ v, bollinger_compute sqrt data p std_dev column = Ok v) ↔ (0 ≤ p)%Z) ∧
  ∀ v, bollinger_compute sqrt data p std_dev column = Ok v →
    sma data p column = Ok (ma v) ∧
    (∀ i, (i < length s)%nat →
       ∃ m sg u l, ma v !! i = Some m ∧ Technical.std v !! i = Some sg ∧
         upper v !! i = Some u ∧ lower v !! i = Some l ∧
         u = fadd m (fmul std_dev sg) ∧
         l = fsub m (fmul std_dev sg) ∧
         (u ≠ NaN → l ≠ NaN → fsub u m = fsub m l)) ∧
    (∀ qs, s = Num <$> qs → ∀ i, (i < length qs)%nat →
       ma v !! i = Some (rolling_mean (Z.to_nat p) qs i) ∧
       Technical.std v !! i = Some (rolling_std sqrt (Z.to_nat p) qs i)).
Proof.
  intros Hcol.
  assert (Hin : column ∈ column_names data) by (apply getitem_succeeds_iff; eauto).
  split; [rewrite bollinger_succeeds_iff; tauto|].
  intros v Hv.
  assert (Hp : (0 ≤ p)%Z) by (apply (bollinger_succeeds_iff sqrt data p std_dev column); eauto).
  destruct (bollinger_on_column sqrt data column s p std_dev Hcol Hp) as (v' & Hv' & H).
  rewrite Hv in Hv'. injection Hv' as <-. exact H.
Qed.

(** *** Relative strength index *)

Lemma diff_length (s : Series) : length (diff s) = length s.
Proof.
  destruct s as [|x t]; [done|]. simpl. rewrite length_zip_with. f_equal.
  simpl. lia.
Qed.

Lemma diff_num_lookup (qs : list Qc) (i : nat) :
  diff (Num <$> qs) !! i =
    (λ _, match step_diff qs i with Some d => Num d | None => NaN end) <$> qs !! i.
Proof.
  destruct qs as [|q0 t]; [done|]. destruct i as [|j]; [done|].
  change (diff (Num <$> q0 :: t) !! S j)
    with (zip_with fsub (Num <$> t) (Num <$> q0 :: t) !! j).
  rewrite lookup_zip_with, !list_lookup_fmap.
  unfold step_diff. change ((q0 :: t) !! S j) with (t !! j).
  destruct (t !! j) as [x|] eqn:Hx; [|done]. simpl.
  assert (is_Some ((q0 :: t) !! j)) as [y Hy].
  { apply lookup_lt_is_Some. apply lookup_lt_Some in Hx. simpl. lia. }
  rewrite Hy. done.
Qed.

Lemma where_gt (s : Series) (k o : pyfloat) :
  where_ s (gt_scalar s k) o = (λ x, if flt k x then x else o) <$> s.
Proof.
  unfold where_, gt_scalar. induction s as [|x s IH]; [done|].
  cbn [fmap list_fmap zip_with]. f_equal. exact IH.
Qed.

Lemma where_lt (s : Series) (k o : pyfloat) :
  where_ s (lt_scalar s k) o = (λ x, if flt x k then x else o) <$> s.
Proof.
  unfold where_, lt_scalar. induction s as [|x s IH]; [done|].
  cbn [fmap list_fmap zip_with]. f_equal. exact IH.
Qed.

Lemma moves_lookup (f : list Qc → nat → Qc) (qs : list Qc) (i : nat) :
  (f qs <$> seq 0 (length qs)) !! i = (λ _, f qs i) <$> qs !! i.
Proof.
  rewrite list_lookup_fmap. destruct (decide (i < length qs)%nat) as [Hi|Hi].
  - rewrite lookup_seq_lt by done.
    apply lookup_lt_is_Some in Hi as [x ->]. done.
  - rewrite lookup_seq_ge by lia. rewrite (lookup_ge_None_2 qs) by lia. done.
Qed.

(** Line 89: the series averaged into [gain] holds the upward moves. *)
Lemma gain_input_num (qs : list Qc) :
  where_ (diff (Num <$> qs)) (gt_scalar (diff (Num <$> qs)) (of_Z 0)) (of_Z 0)
  = Num <$> up_moves qs.
Proof.
  rewrite where_gt. apply list_eq. intros i.
  unfold up_moves.
  rewrite (list_lookup_fmap _ (diff _)), (list_lookup_fmap Num).
  rewrite diff_num_lookup, moves_lookup.
  destruct (qs !! i) as [x|]; [|done]. simpl. f_equal.
  unfold up_move. destruct (step_diff qs i) as [d|]; simpl.
  - unfold of_Z. rewrite Z2Qc_inj_0. unfold bool_decide.
    destruct (decide_rel Qclt 0 d), (decide (0 < d)); done.
  - unfold of_Z. by rewrite Z2Qc_inj_0.
Qed.

(** Line 90: the series averaged into [loss] holds the downward moves. *)
Lemma loss_input_num (qs : list Qc) :
  neg (where_ (diff (Num <$> qs)) (lt_scalar (diff (Num <$> qs)) (of_Z 0)) (of_Z 0))
  = Num <$> down_moves qs.
Proof.
  rewrite where_lt. apply list_eq. intros i.
  unfold down_moves, neg.
  rewrite (list_lookup_fmap fneg), (list_lookup_fmap _ (diff _)), (list_lookup_fmap Num).
  rewrite diff_num_lookup, moves_lookup.
  destruct (qs !! i) as [x|]; [|done]. simpl. f_equal.
  unfold down_move. destruct (step_diff qs i) as [d|]; simpl.
  - unfold of_Z. rewrite Z2Qc_inj_0. unfold bool_decide.
    destruct (decide_rel Qclt d 0), (decide (d < 0)); try done.
  - unfold of_Z. by rewrite Z2Qc_inj_0.
Qed.

Lemma up_moves_length (qs : list Qc) : length (up_moves qs) = length qs.
Proof. unfold up_moves. by rewrite length_fmap, length_seq. Qed.

Lemma down_moves_length (qs : list Qc) : length (down_moves qs) = length qs.
Proof. unfold down_moves. by rewrite length_fmap, length_seq. Qed.

Lemma rsi_compute_num (data : DataFrame) (column : string) (qs : list Qc) (p : Z) :
  getitem data column = Ok (Num <$> qs) → (0 ≤ p)%Z →
  let g := mean (mkRolling (Num <$> up_moves qs) (Z.to_nat p) (Z.to_nat p)) in
  let l := mean (mkRolling (Num <$> down_moves qs) (Z.to_nat p) (Z.to_nat p)) in
  rsi_compute data p column =
    Ok (mkRsi (diff (Num <$> qs)) g l (div g l)
          (scalar_sub (of_Z 100) (scalar_div (of_Z 100) (scalar_add (of_Z 1) (div g l))))).
Proof.
  intros Hcol Hp g l. unfold rsi_compute. rewrite Hcol.
  cbn [mbind result_bind rbind]. unfold rolling. rewrite !decide_False by lia.
  cbn [mbind result_bind rbind mret result_ret].
  rewrite gain_input_num, loss_input_num. done.
Qed.

Lemma Qcinv_nonneg (y : Qc) : 0 ≤ y → 0 ≤ / y.
Proof.
  intros Hy. destruct (Qcle_lt_or_eq _ _ Hy) as [Hpos| <-].
  - apply Qclt_le_weak. by apply Qcinv_pos.
  - done.
Qed.

Lemma Qcdiv_nonneg (x y : Qc) : 0 ≤ x → 0 ≤ y → 0 ≤ x / y.
Proof. intros Hx Hy. apply Qcmult_nonneg_nonneg; [done|]. by apply Qcinv_nonneg. Qed.

Lemma Qcdiv_pos (x y : Qc) : 0 < x → 0 < y → 0 < x / y.
Proof. intros Hx Hy. apply Qcmult_pos_pos; [done|]. by apply Qcinv_pos. Qed.

Lemma Qc_of_nat_nonneg (n : nat) : 0 ≤ Qc_of_nat n.
Proof. unfold Qc_of_nat. rewrite <- Z2Qc_inj_0, <- Z2Qc_inj_le. lia. Qed.

Lemma Qc_of_nat_pos (n : nat) : (0 < n)%nat → 0 < Qc_of_nat n.
Proof. intros Hn. unfold Qc_of_nat. rewrite <- Z2Qc_inj_0, <- Z2Qc_inj_lt. lia. Qed.

Lemma sum_nonneg (xs : list Qc) : Forall (λ x, 0 ≤ x) xs → 0 ≤ sum xs.
Proof.
  induction 1 as [|x xs Hx _ IH]; simpl; [done|].
  by apply Qcplus_nonneg_nonneg.
Qed.

Lemma sum_pos (xs : list Qc) (x : Qc) :
  Forall (λ x, 0 ≤ x) xs → x ∈ xs → 0 < x → 0 < sum xs.
Proof.
  intros Hall Hin Hx. induction Hall as [|y ys Hy Hys IH]; [by apply elem_of_nil in Hin|].
  simpl. apply elem_of_cons in Hin as [<-|Hin].
  - apply Qcplus_pos_nonneg; [done|]. by apply sum_nonneg.
  - apply Qcplus_nonneg_pos; [done|]. by apply IH.
Qed.

Lemma sum_zero (xs : list Qc) : Forall (λ x, x = 0) xs → sum xs = 0.
Proof. induction 1 as [|x xs -> _ IH]; simpl; [done|]. rewrite IH. ring. Qed.

Lemma trailing_window_Forall (P : Qc → Prop) (p i : nat) (xs : list Qc) :
  Forall P xs → Forall P (trailing_window p i xs).
Proof. intros H. unfold trailing_window, slice. by apply Forall_take, Forall_drop. Qed.

Lemma trailing_window_last (p i : nat) (xs : list Qc) (x : Qc) :
  (1 ≤ p)%nat → (p - 1 ≤ i)%nat → xs !! i = Some x → x ∈ trailing_window p i xs.
Proof.
  intros Hp Hge Hx. apply list_elem_of_lookup. exists (p - 1)%nat.
  unfold trailing_window, slice. rewrite lookup_take_lt by lia.
  rewrite lookup_drop. replace (S i - p + (p - 1))%nat with i by lia. done.
Qed.

Lemma up_move_nonneg (qs : list Qc) (i : nat) : 0 ≤ up_move qs i.
Proof.
  unfold up_move. destruct (step_diff qs i) as [d|]; [|done].
  destruct (decide (0 < d)); [by apply Qclt_le_weak|done].
Qed.

Lemma down_move_nonneg (qs : list Qc) (i : nat) : 0 ≤ down_move qs i.
Proof.
  unfold down_move. destruct (step_diff qs i) as [d|]; [|done].
  destruct (decide (d < 0)) as [Hd|]; [|done].
  apply Qclt_le_weak. apply Qclt_minus_iff in Hd. by rewrite Qcplus_0_l in Hd.
Qed.

Lemma moves_Forall (P : Qc → Prop) (f : list Qc → nat → Qc) (qs : list Qc) :
  (∀ i, P (f qs i)) → Forall P (f qs <$> seq 0 (length qs)).
Proof. intros H. apply Forall_fmap, Forall_forall. intros i _. apply H. Qed.

(** The index computed from a nonnegative average gain and a positive average
    loss is a number between 0 and 100. *)
Lemma rsi_value_range (g l : Qc) :
  0 ≤ g → 0 < l →
  ∃ r, fsub (of_Z 100) (fdiv (of_Z 100) (fadd (of_Z 1) (fdiv (Num g) (Num l)))) = Num r
       ∧ 0 ≤ r ∧ r ≤ Qc_of_Z 100.
Proof.
  intros Hg Hl.
  assert (Hl0 : l ≠ 0) by (intros ->; by destruct (Qclt_not_eq 0 0)).
  assert (Hrs : 0 ≤ g / l) by (apply Qcdiv_nonneg; [done|by apply Qclt_le_weak]).
  assert (Hden : 0 < 1 + g / l) by (by apply Qcplus_pos_nonneg).
  assert (Hden0 : 1 + g / l ≠ 0).
  { intros E. rewrite E in Hden. by destruct (Qclt_not_eq 0 0). }
  assert (Hlg : l + g ≠ 0).
  { intros E. pose proof (Qcplus_pos_nonneg l g Hl Hg) as Hc. rewrite E in Hc.
    by destruct (Qclt_not_eq 0 0). }
  assert (H100 : 0 < Qc_of_Z 100) by (rewrite <- Z2Qc_inj_0, <- Z2Qc_inj_lt; lia).
  unfold of_Z. rewrite Z2Qc_inj_1. set (c := Qc_of_Z 100) in *.
  cbn [fdiv]. rewrite decide_False by done. cbn [fadd fdiv].
  rewrite decide_False by done. cbn [fsub fneg fadd].
  eexists. split; [done|]. split.
  - apply Qcle_minus_iff.
    replace (c + - (c / (1 + g / l)) + - 0)
      with (c * ((g / l) / (1 + g / l))) by (field; done).
    apply Qcmult_nonneg_nonneg; [by apply Qclt_le_weak|].
    apply Qcdiv_nonneg; [done|by apply Qclt_le_weak].
  - apply Qcle_minus_iff.
    replace (c + - (c + - (c / (1 + g / l))))
      with (c / (1 + g / l)) by (field; done).
    apply Qcdiv_nonneg; by apply Qclt_le_weak.
Qed.

Lemma rsi_series_lookup (qs : list Qc) (p i : nat) :
  (i < length qs)%nat →
  let G := mean (mkRolling (Num <$> up_moves qs) p p) in
  let L := mean (mkRolling (Num <$> down_moves qs) p p) in
  let g := rolling_mean p (up_moves qs) i in
  let l := rolling_mean p (down_moves qs) i in
  G !! i = Some g ∧ L !! i = Some l ∧ div G L !! i = Some (fdiv g l) ∧
  scalar_sub (of_Z 100) (scalar_div (of_Z 100) (scalar_add (of_Z 1) (div G L))) !! i
  = Some (fsub (of_Z 100) (fdiv (of_Z 100) (fadd (of_Z 1) (fdiv g l)))).
Proof.
  intros Hi G L g l.
  assert (HG : G !! i = Some g).
  { apply mean_num_lookup. by rewrite up_moves_length. }
  assert (HL : L !! i = Some l).
  { apply mean_num_lookup. by rewrite down_moves_length. }
  assert (Hrs : div G L !! i = Some (fdiv g l)).
  { unfold div. by rewrite lookup_zip_with, HG, HL. }
  repeat split; try done.
  unfold scalar_sub, scalar_div, scalar_add. by rewrite !list_lookup_fmap, Hrs.
Qed.

Lemma rsi_series_length (qs : list Qc) (p : nat) :
  let G := mean (mkRolling (Num <$> up_moves qs) p p) in
  let L := mean (mkRolling (Num <$> down_moves qs) p p) in
  length (scalar_sub (of_Z 100) (scalar_div (of_Z 100) (scalar_add (of_Z 1) (div G L))))
  = length qs.
Proof.
  intros G L. unfold scalar_sub, scalar_div, scalar_add, div.
  rewrite !length_fmap, length_zip_with. unfold G, L, mean. rewrite !roll_apply_length.
  cbn [obj]. rewrite !length_fmap, up_moves_length, down_moves_length. lia.
Qed.



(** *** Charts with and without a figure *)

Lemma go_unbound : load_global "go" = Raise (NameError "go").
Proof. by vm_compute. Qed.

Ltac enter_chart Hc :=
  unfold mbind, M_bind, load; rewrite Hc; cbn beta iota.

(** C8.  On a chart whose [fig] is [None], the five indicator functions and
    the three interactive-feature methods return the reference they were
    given and leave the store, hence the chart's [data], [title] and [fig],
    as it was; this holds for every period and column, valid or not. *)
Theorem chart_without_figure_is_returned (sqrt : Qc → Qc) (h : gmap nat Chart)
    (chart : nat) (c : Chart) :
  h !! chart = Some c → fig c = None →
  (∀ period column, add_sma chart period column h = (Ok chart, h)) ∧
  (∀ period column, add_ema chart period column h = (Ok chart, h)) ∧
  (∀ period column, add_rsi chart period column h = (Ok chart, h)) ∧
  (∀ fast_period slow_period signal_period column,
     add_macd chart fast_period slow_period signal_period column h = (Ok chart, h)) ∧
  (∀ period std_dev column,
     add_bollinger_bands sqrt chart period std_dev column h = (Ok chart, h)) ∧
  add_range_slider chart h = (Ok chart, h) ∧
  add_zoom_pan chart h = (Ok chart, h) ∧
  add_tooltips chart h = (Ok chart, h) ∧
  h !! chart = Some c.
Proof.
  intros Hc Hfig.
  repeat split; intros;
    try (unfold add_sma, add_ema, add_rsi, add_macd, add_bollinger_bands,
           add_range_slider, add_zoom_pan, add_tooltips;
         enter_chart Hc; rewrite Hfig; reflexivity).
  exact Hc.
Qed.

Lemma stops_at_go_guarded {A} (c : Chart) (f : Figure) (computed : result A)
    (h : gmap nat Chart) :
  fig c = Some f → computed ≠ Raise (NameError "go") →
  guarded_by_figure c computed h (stops_at_go computed h).
Proof.
  intros Hf Hne. unfold guarded_by_figure, stops_at_go. rewrite Hf.
  destruct computed as [v|e]; cbn.
  - repeat split; eauto. intros e _ He. discriminate He.
  - split; [split; eauto|]. split; [split|].
    + intros He. injection He as ->. by destruct Hne.
    + intros [_ [v Hv]]. discriminate Hv.
    + split; [|done]. intros e0 _ He. by injection He as ->.
Qed.

Lemma returned_guarded {A} (c : Chart) (computed : result A) (h : gmap nat Chart)
    (chart : nat) :
  fig c = None → guarded_by_figure c computed h (Ok chart, h).
Proof.
  intros Hf. unfold guarded_by_figure. rewrite Hf. cbn.
  repeat split; intros; try done.
  destruct H as [[? ?] _]. done.
Qed.

Ltac stop_at_go Hc Hf :=
  enter_chart Hc; rewrite Hf; unfold lift, stops_at_go;
  match goal with |- context [match ?comp with Ok _ => _ | Raise _ => _ end] =>
    destruct comp; cbn beta iota; [rewrite go_unbound|]; reflexivity
  end.

Lemma add_sma_with_figure h chart c f period column :
  h !! chart = Some c → fig c = Some f →
  add_sma chart period column h = stops_at_go (sma (data c) period column) h.
Proof. intros Hc Hf. unfold add_sma. stop_at_go Hc Hf. Qed.

Lemma add_ema_with_figure h chart c f period column :
  h !! chart = Some c → fig c = Some f →
  add_ema chart period column h = stops_at_go (ema (data c) period column) h.
Proof. intros Hc Hf. unfold add_ema. stop_at_go Hc Hf. Qed.

Lemma add_rsi_with_figure h chart c f period column :
  h !! chart = Some c → fig c = Some f →
  add_rsi chart period column h = stops_at_go (rsi_compute (data c) period column) h.
Proof. intros Hc Hf. unfold add_rsi. stop_at_go Hc Hf. Qed.

Lemma add_macd_with_figure h chart c f fast slow sig column :
  h !! chart = Some c → fig c = Some f →
  add_macd chart fast slow sig column h
  = stops_at_go (macd_compute (data c) fast slow sig column) h.
Proof. intros Hc Hf. unfold add_macd. stop_at_go Hc Hf. Qed.

Lemma add_bollinger_bands_with_figure sqrt h chart c f period std_dev column :
  h !! chart = Some c → fig c = Some f →
  add_bollinger_bands sqrt chart period std_dev column h
  = stops_at_go (bollinger_compute sqrt (data c) period std_dev column) h.
Proof. intros Hc Hf. unfold add_bollinger_bands. stop_at_go Hc Hf. Qed.

(** The indicator arithmetic raises nothing but pandas' own exceptions. *)
Ltac only_pandas_errors :=
  unfold sma, ema, rsi_compute, macd_compute, bollinger_compute, getitem, rolling, ewm;
  cbn [mbind result_bind rbind mret result_ret];
  repeat (case_match; cbn [mbind result_bind rbind mret result_ret]); discriminate.

Lemma sma_no_name_error data period column :
  sma data period column ≠ Raise (NameError "go").
Proof. only_pandas_errors. Qed.

Lemma ema_no_name_error data period column :
  ema data period column ≠ Raise (NameError "go").
Proof. only_pandas_errors. Qed.

Lemma rsi_no_name_error data period column :
  rsi_compute data period column ≠ Raise (NameError "go").
Proof. only_pandas_errors. Qed.

Lemma macd_no_name_error data fast slow sig column :
  macd_compute data fast slow sig column ≠ Raise (NameError "go").
Proof. only_pandas_errors. Qed.

Lemma bollinger_no_name_error sqrt data period std_dev column :
  bollinger_compute sqrt data period std_dev column ≠ Raise (NameError "go").
Proof. only_pandas_errors. Qed.

(** C1, as the code has it.  Run on a chart of the store, each of the five
    indicator functions raises an exception exactly when the chart has a
    figure, and never changes the store, so no chart ever gains an indicator
    trace.  The exception is the NameError for [go] exactly when the chart has
    a figure and the indicator arithmetic before the first plotting call
    succeeds, that is, when the column exists and the periods are ones pandas
    accepts; otherwise it is the exception of the arithmetic itself. *)
Theorem indicators_guarded_by_figure (sqrt : Qc → Qc) (h : gmap nat Chart)
    (chart : nat) (c : Chart) :
  h !! chart = Some c →
  (∀ period column,
     guarded_by_figure c (sma (data c) period column) h
       (add_sma chart period column h) ∧
     ((∃ v, sma (data c) period column = Ok v)
      ↔ column ∈ column_names (data c) ∧ (0 ≤ period)%Z)) ∧
  (∀ period column,
     guarded_by_figure c (ema (data c) period column) h
       (add_ema chart period column h) ∧
     ((∃ v, ema (data c) period column = Ok v)
      ↔ column ∈ column_names (data c) ∧ (1 ≤ period)%Z)) ∧
  (∀ period column,
     guarded_by_figure c (rsi_compute (data c) period column) h
       (add_rsi chart period column h) ∧
     ((∃ v, rsi_compute (data c) period column = Ok v)
      ↔ column ∈ column_names (data c) ∧ (0 ≤ period)%Z)) ∧
  (∀ fast slow sig column,
     guarded_by_figure c (macd_compute (data c) fast slow sig column) h
       (add_macd chart fast slow sig column h) ∧
     ((∃ v, macd_compute (data c) fast slow sig column = Ok v)
      ↔ column ∈ column_names (data c) ∧ (1 ≤ fast)%Z ∧ (1 ≤ slow)%Z ∧ (1 ≤ sig)%Z)) ∧
  (∀ period std_dev column,
     guarded_by_figure c (bollinger_compute sqrt (data c) period std_dev column) h
       (add_bollinger_bands sqrt chart period std_dev column h) ∧
     ((∃ v, bollinger_compute sqrt (data c) period std_dev column = Ok v)
      ↔ column ∈ column_names (data c) ∧ (0 ≤ period)%Z)).
Proof.
  intros Hc.
  split; [|split; [|split; [|split]]]; intros;
    (split;
     [|first [apply sma_succeeds_iff | apply ema_succeeds_iff | apply rsi_succeeds_iff
             | apply macd_succeeds_iff | apply bollinger_succeeds_iff]]).
  all: destruct (fig c) as [f|] eqn:Hf;
    [|unfold add_sma, add_ema, add_rsi, add_macd, add_bollinger_bands;
      enter_chart Hc; rewrite Hf; by apply returned_guarded].
  - rewrite (add_sma_with_figure _ _ _ _ _ _ Hc Hf).
    apply (stops_at_go_guarded _ f); [done|apply sma_no_name_error].
  - rewrite (add_ema_with_figure _ _ _ _ _ _ Hc Hf).
    apply (stops_at_go_guarded _ f); [done|apply ema_no_name_error].
  - rewrite (add_rsi_with_figure _ _ _ _ _ _ Hc Hf).
    apply (stops_at_go_guarded _ f); [done|apply rsi_no_name_error].
  - rewrite (add_macd_with_figure _ _ _ _ _ _ _ _ Hc Hf).
    apply (stops_at_go_guarded _ f); [done|apply macd_no_name_error].
  - rewrite (add_bollinger_bands_with_figure _ _ _ _ _ _ _ _ Hc Hf).
    apply (stops_at_go_guarded _ f); [done|apply bollinger_no_name_error].
Qed.

(** C1 as stated fails: the chart [plot_roc_curve] returns has a figure and
    no ["Close"] column; [add_sma] with its default arguments raises a
    KeyError on it, not the NameError. *)
Lemma key_error_precedes_name_error :
  roc_run.1 = Ok 0%nat ∧
  is_Some (roc_run.2 !! 0%nat ≫= fig) ∧
  (add_sma 0 20 "Close" roc_run.2).1 = Raise (KeyError "Close") ∧
  (add_sma 0 20 "Close" roc_run.2).1 ≠ Raise (NameError "go").
Proof.
  assert (H : (add_sma 0 20 "Close" roc_run.2).1 = Raise (KeyError "Close"))
    by (by vm_compute).
  split; [by vm_compute|]. split; [by vm_compute; eexists|]. split; [exact H|].
  rewrite H. discriminate.
Qed.

(** *** A series that only rises *)

Lemma rising_step_diff (qs : list Qc) (i : nat) (d : Qc) :
  strictly_increasing qs → step_diff qs i = Some d → 0 < d.
Proof.
  intros Hinc Hd. destruct i as [|j]; [done|]. unfold step_diff in Hd.
  destruct (qs !! S j) as [x|] eqn:Hx; [|done].
  destruct (qs !! j) as [y|] eqn:Hy; [|done].
  simpl in Hd. injection Hd as <-.
  apply (proj1 (Qclt_minus_iff y x)). by apply (Hinc j).
Qed.

Lemma rising_down_move (qs : list Qc) (i : nat) :
  strictly_increasing qs → down_move qs i = 0.
Proof.
  intros Hinc. unfold down_move. destruct (step_diff qs i) as [d|] eqn:Hd; [|done].
  apply rising_step_diff in Hd; [|done].
  destruct (decide (d < 0)) as [Hneg|]; [|done].
  destruct (Qclt_not_eq 0 0); [|done]. by apply Qclt_trans with d.
Qed.

Lemma rising_up_move (qs : list Qc) (i : nat) :
  strictly_increasing qs → (1 ≤ i)%nat → (i < length qs)%nat → 0 < up_move qs i.
Proof.
  intros Hinc H1 Hi. unfold up_move.
  destruct (step_diff qs i) as [d|] eqn:Hd.
  - pose proof (rising_step_diff _ _ _ Hinc Hd) as Hpos. by rewrite decide_True.
  - destruct i as [|j]; [lia|]. unfold step_diff in Hd.
    destruct (lookup_lt_is_Some_2 qs (S j)) as [x Hx]; [done|].
    destruct (lookup_lt_is_Some_2 qs j) as [y Hy]; [lia|].
    by rewrite Hx, Hy in Hd.
Qed.


(** *** Charts built from data *)

Lemma new_then_set_fig (d : DataFrame) (t : option string) (f : Figure)
    (h : gmap nat Chart) :
  (chart ← new d t; set_fig chart f;; mret chart) h
  = (Ok (fresh (dom h)), <[fresh (dom h) := mkChart d t (Some f)]> h).
Proof.
  unfold mbind, M_bind, new, set_fig, mret, M_ret. cbn beta iota zeta.
  rewrite lookup_insert_eq. cbn. by rewrite insert_insert_eq.
Qed.

(** On data that has the four price columns, what [create_candlestick]
    returns. *)
Lemma candlestick_on_prices (data : DataFrame) (title : option string)
    (volume : bool) (indicators : option (list string)) (h : gmap nat Chart)
    (o hi lo cl : Series) :
  getitem data "Open" = Ok o → getitem data "High" = Ok hi →
  getitem data "Low" = Ok lo → getitem data "Close" = Ok cl →
  let candle :=
    new_trace Candlestick
      [("x", Some (VInts (index data))); ("open", Some (VSeries o));
       ("high", Some (VSeries hi)); ("low", Some (VSeries lo));
       ("close", Some (VSeries cl)); ("name", Some (VStr "OHLC"))] in
  let bar v :=
    new_trace Bar
      [("x", Some (VInts (index data))); ("y", Some (VSeries v));
       ("name", Some (VStr "Volume"))] in
  ∃ f g,
    create_candlestick data title volume indicators h
    = (Ok (fresh (dom h)), <[fresh (dom h) := mkChart data title (Some f)]> h) ∧
    grid f = Some g ∧
    rows g = (if volume then 2 else 1)%nat ∧
    row_heights g = (if volume then [Qc_of_Z 7 / Qc_of_Z 10; Qc_of_Z 3 / Qc_of_Z 10]
                     else [1]) ∧
    traces f !! 0%nat = Some (candle, Some (1, 1)%nat) ∧
    ((∃ t, (t, Some (2, 1)%nat) ∈ traces f ∧ kind t = Bar)
     ↔ volume = true ∧ "Volume" ∈ column_names data) ∧
    (volume = true → "Volume" ∈ column_names data →
       ∃ v, getitem data "Volume" = Ok v ∧
            traces f = [(candle, Some (1, 1)%nat); (bar v, Some (2, 1)%nat)]) ∧
    (¬ (volume = true ∧ "Volume" ∈ column_names data) →
       traces f = [(candle, Some (1, 1)%nat)]).
Proof.
  intros Ho Hhi Hlo Hcl candle bar.
  unfold create_candlestick.
  assert (Hfig : ∃ f g, candlestick_figure data title volume = Ok f ∧
            grid f = Some g ∧
            rows g = (if volume then 2 else 1)%nat ∧
            row_heights g = (if volume then [Qc_of_Z 7 / Qc_of_Z 10; Qc_of_Z 3 / Qc_of_Z 10]
                             else [1]) ∧
            traces f = (candle, Some (1, 1)%nat) ::
              (if volume && bool_decide ("Volume" ∈ column_names data)
               then match getitem data "Volume" with
                    | Ok v => [(bar v, Some (2, 1)%nat)]
                    | Raise _ => []
                    end
               else [])).
  { unfold candlestick_figure. rewrite Ho, Hhi, Hlo, Hcl.
    destruct volume; cbn -[new_trace getitem].
    - destruct (bool_decide ("Volume" ∈ column_names data)) eqn:Hv.
      + apply bool_decide_eq_true in Hv.
        apply getitem_succeeds_iff in Hv as [v Hv]. rewrite Hv.
        cbn -[new_trace]. eexists _, _. repeat split; done.
      + cbn -[new_trace]. eexists _, _. repeat split; done.
    - eexists _, _. repeat split; done. }
  destruct Hfig as (f & g & Hf & Hg & Hrows & Hheights & Htraces).
  exists f, g.
  split.
  { change (create_candlestick data title volume indicators h)
      with ((fig ← lift (candlestick_figure data title volume);
             chart ← new data title; set_fig chart fig;; mret chart) h).
    unfold mbind at 1. unfold M_bind at 1. unfold lift at 1. rewrite Hf.
    apply new_then_set_fig. }
  split; [done|]. split; [done|]. split; [done|].
  split; [by rewrite Htraces|].
  destruct volume; simpl in Htraces.
  - destruct (bool_decide ("Volume" ∈ column_names data)) eqn:Hv.
    + apply bool_decide_eq_true in Hv.
      pose proof Hv as [v Hvol]%getitem_succeeds_iff. rewrite Hvol in Htraces.
      split; [|split].
      * split; [done|]. intros _. exists (bar v). split; [|done].
        rewrite Htraces. apply elem_of_cons. right. apply elem_of_cons. by left.
      * intros _ _. by exists v.
      * intros Hn. destruct Hn. done.
    + apply bool_decide_eq_false in Hv. split; [|split].
      * split; [|by intros [_ ?]]. intros (t & Ht & _). rewrite Htraces in Ht.
        apply elem_of_cons in Ht as [Ht|Ht]; [discriminate Ht|by apply elem_of_nil in Ht].
      * done.
      * done.
  - split; [|split].
    + split; [|by intros [? _]]. intros (t & Ht & _). rewrite Htraces in Ht.
      apply elem_of_cons in Ht as [Ht|Ht]; [discriminate Ht|by apply elem_of_nil in Ht].
    + done.
    + done.
Qed.



(** Given the output of scikit-learn's two functions, what [plot_roc_curve]
    returns. *)
Lemma roc_chart_from_rates
    (roc_curve : list Z → Series → result (Series * Series * Series))
    (auc : Series → Series → result pyfloat) (format_2f : pyfloat → string)
    (y_true : list Z) (y_score : Series) (title : option string)
    (h : gmap nat Chart) (fpr tpr thresholds : Series) (area : pyfloat) :
  roc_curve y_true y_score = Ok (fpr, tpr, thresholds) →
  auc fpr tpr = Ok area →
  length fpr = length tpr →
  ∃ f df t1 t2,
    plot_roc_curve roc_curve auc format_2f y_true y_score title h
    = (Ok (fresh (dom h)), <[fresh (dom h) := mkChart df title (Some f)]> h) ∧
    traces f = [(t1, None); (t2, None)] ∧
    kind t1 = Scatter ∧
    props t1 !! "x" = Some (VSeries fpr) ∧ props t1 !! "y" = Some (VSeries tpr) ∧
    kind t2 = Scatter ∧
    props t2 !! "x" = Some (VInts [0; 1]%Z) ∧ props t2 !! "y" = Some (VInts [0; 1]%Z) ∧
    column_names df = ["fpr"; "tpr"] ∧
    getitem df "fpr" = Ok fpr ∧ getitem df "tpr" = Ok tpr ∧
    index df = Z.of_nat <$> seq 0 (length fpr).
Proof.
  intros Hroc Hauc Hlen.
  assert (Hdf : from_dict [("fpr", fpr); ("tpr", tpr)]
                = Ok (mkDataFrame (Z.of_nat <$> seq 0 (length fpr))
                        [("fpr", fpr); ("tpr", tpr)])).
  { unfold from_dict. rewrite decide_True; [done|].
    repeat constructor; simpl; done. }
  eexists _, _, _, _. split.
  { unfold plot_roc_curve.
    unfold mbind at 1. unfold M_bind at 1. unfold lift at 1. rewrite Hroc.
    cbn beta iota.
    unfold mbind at 1. unfold M_bind at 1. unfold lift at 1. rewrite Hauc.
    cbn beta iota zeta.
    unfold mbind at 1. unfold M_bind at 1. unfold lift at 1.
    unfold add_trace at 1. cbn [check_cell mbind result_bind rbind].
    unfold mbind at 1. unfold M_bind at 1. unfold lift at 1.
    unfold add_trace at 1. cbn [check_cell mbind result_bind rbind].
    unfold mbind at 1. unfold M_bind at 1. unfold lift at 1. rewrite Hdf.
    apply new_then_set_fig. }
  cbn [traces update_layout new_figure app kind new_trace].
  split; [done|]. split; [done|].
  split; [by vm_compute|]. split; [by vm_compute|]. split; [done|].
  split; [by vm_compute|]. split; [by vm_compute|].
  split; [done|]. split; [done|]. split; [done|]. done.
Qed.

Lemma plot_roc_curve_needs_rates
    (roc_curve : list Z → Series → result (Series * Series * Series))
    (auc : Series → Series → result pyfloat) (format_2f : pyfloat → string)
    (y_true : list Z) (y_score : Series) (title : option string)
    (h h' : gmap nat Chart) (r : nat) :
  plot_roc_curve roc_curve auc format_2f y_true y_score title h = (Ok r, h') →
  ∃ fpr tpr thresholds area,
    roc_curve y_true y_score = Ok (fpr, tpr, thresholds) ∧
    auc fpr tpr = Ok area ∧ length fpr = length tpr.
Proof.
  unfold plot_roc_curve.
  unfold mbind at 1. unfold M_bind at 1. unfold lift at 1.
  destruct (roc_curve y_true y_score) as [[[fpr tpr] thresholds]|e] eqn:Hroc;
    [|discriminate].
  cbn beta iota.
  unfold mbind at 1. unfold M_bind at 1. unfold lift at 1.
  destruct (auc fpr tpr) as [area|e] eqn:Hauc; [|discriminate].
  cbn beta iota zeta.
  unfold mbind at 1. unfold M_bind at 1. unfold lift at 1.
  unfold add_trace at 1. cbn [check_cell mbind result_bind rbind].
  unfold mbind at 1. unfold M_bind at 1. unfold lift at 1.
  unfold add_trace at 1. cbn [check_cell mbind result_bind rbind].
  unfold mbind at 1. unfold M_bind at 1. unfold lift at 1.
  destruct (decide (length fpr = length tpr)) as [Hlen|Hlen].
  - intros _. by exists fpr, tpr, thresholds, area.
  - unfold from_dict. rewrite decide_False; [discriminate|].
    intros Hall. apply Forall_cons in Hall as [_ Hall].
    apply Forall_cons in Hall as [Hall _]. simpl in Hall. congruence.
Qed.

(** C10.  [plot_roc_curve] returns a chart exactly when scikit-learn's
    [roc_curve] returns rate sequences [fpr] and [tpr] of one length for the
    two arrays and [auc] returns their area.  The chart it returns is new;
    its figure has exactly two traces, first the scatter trace with
    [x = fpr] and [y = tpr], then the scatter trace of the diagonal,
    [x = [0, 1]] and [y = [0, 1]]; its data is the frame with exactly the
    columns [fpr] and [tpr], in this order, holding those two sequences. *)
Theorem roc_chart_contents
    (roc_curve : list Z → Series → result (Series * Series * Series))
    (auc : Series → Series → result pyfloat) (format_2f : pyfloat → string)
    (y_true : list Z) (y_score : Series) (title : option string)
    (h : gmap nat Chart) :
  ((∃ r h', plot_roc_curve roc_curve auc format_2f y_true y_score title h = (Ok r, h'))
   ↔ ∃ fpr tpr thresholds area,
       roc_curve y_true y_score = Ok (fpr, tpr, thresholds) ∧
       auc fpr tpr = Ok area ∧ length fpr = length tpr) ∧
  ∀ r h', plot_roc_curve roc_curve auc format_2f y_true y_score title h = (Ok r, h') →
    ∃ fpr tpr thresholds f df t1 t2,
      roc_curve y_true y_score = Ok (fpr, tpr, thresholds) ∧
      r = fresh (dom h) ∧
      h' = <[r := mkChart df title (Some f)]> h ∧
      traces f = [(t1, None); (t2, None)] ∧
      kind t1 = Scatter ∧
      props t1 !! "x" = Some (VSeries fpr) ∧ props t1 !! "y" = Some (VSeries tpr) ∧
      kind t2 = Scatter ∧
      props t2 !! "x" = Some (VInts [0; 1]%Z) ∧ props t2 !! "y" = Some (VInts [0; 1]%Z) ∧
      column_names df = ["fpr"; "tpr"] ∧
      getitem df "fpr" = Ok fpr ∧ getitem df "tpr" = Ok tpr ∧
      index df = Z.of_nat <$> seq 0 (length fpr).
Proof.
  split.
  - split.
    + intros (r & h' & Hrun). by apply plot_roc_curve_needs_rates in Hrun.
    + intros (fpr & tpr & thresholds & area & Hroc & Hauc & Hlen).
      destruct (roc_chart_from_rates roc_curve auc format_2f y_true y_score title h
                  fpr tpr thresholds area Hroc Hauc Hlen)
        as (f & df & t1 & t2 & Hrun & _).
      eauto.
  - intros r h' Hrun.
    pose proof (plot_roc_curve_needs_rates _ _ _ _ _ _ _ _ _ Hrun)
      as (fpr & tpr & thresholds & area & Hroc & Hauc & Hlen).
    destruct (roc_chart_from_rates roc_curve auc format_2f y_true y_score title h
                fpr tpr thresholds area Hroc Hauc Hlen)
      as (f & df & t1 & t2 & Hrun' & H).
    rewrite Hrun in Hrun'. injection Hrun' as -> ->.
    exists fpr, tpr, thresholds, f, df, t1, t2. split; [done|]. split; [done|].
    split; [done|]. exact H.
Qed.


(** *** The theorems at sample inputs *)

Lemma sma_is_trailing_mean_witness :
  getitem ohlcv "Close" = Ok (Num <$> closes) ∧ (1 ≤ 2)%Z ∧
  ∃ out, sma ohlcv 2 "Close" = Ok out ∧ length out = length closes ∧
    ∀ i, (i < length closes)%nat →
      ((Z.to_nat 2 - 1 ≤ i)%nat →
         length (trailing_window (Z.to_nat 2) i closes) = Z.to_nat 2 ∧
         out !! i = Some (Num (arith_mean (trailing_window (Z.to_nat 2) i closes)))) ∧
      ((i < Z.to_nat 2 - 1)%nat → out !! i = Some NaN).
Proof.
  split; [reflexivity|]. split; [lia|].
  apply (sma_is_trailing_mean ohlcv "Close" closes 2); [reflexivity|lia].
Defined.

Lemma ema_recursion_witness :
  getitem ohlcv "Close" = Ok (Num <$> closes) ∧ (1 ≤ 3)%Z ∧
  let a := Qc_of_Z 2 / (Qc_of_Z 3 + 1) in
  ∃ out, ema ohlcv 3 "Close" = Ok out ∧ length out = length closes ∧
    (0 < a ∧ a ≤ 1) ∧
    (∀ x0, closes !! 0%nat = Some x0 → out !! 0%nat = Some (Num x0)) ∧
    (∀ i x, closes !! S i = Some x →
       ∃ e, out !! i = Some (Num e) ∧ out !! S i = Some (Num (a * x + (1 - a) * e))).
Proof.
  split; [reflexivity|]. split; [lia|].
  apply (ema_recursion ohlcv "Close" closes 3); [reflexivity|lia].
Defined.

Lemma macd_is_difference_of_emas_witness :
  getitem ohlcv "Close" = Ok (Num <$> closes) ∧
  ∃ v, macd_compute ohlcv 2 3 2 "Close" = Ok v ∧
    let m := zip_with Qcminus (EMA (alpha_of 2) closes) (EMA (alpha_of 3) closes) in
    let s := EMA (alpha_of 2) m in
    ema ohlcv 2 "Close" = Ok (exp1 v) ∧
    ema ohlcv 3 "Close" = Ok (exp2 v) ∧
    macd v = sub (exp1 v) (exp2 v) ∧
    macd v = Num <$> m ∧
    signal v = Num <$> s ∧
    hist v = sub (macd v) (signal v) ∧
    hist v = Num <$> zip_with Qcminus m s ∧
    length m = length closes ∧ length s = length closes.
Proof.
  split; [reflexivity|].
  eexists. split; [vm_compute; reflexivity|].
  apply (proj2 (macd_is_difference_of_emas ohlcv "Close" closes 2 3 2 eq_refl)).
  vm_compute; reflexivity.
Defined.

Lemma bollinger_bands_symmetric_witness :
  getitem ohlcv "Close" = Ok (Num <$> closes) ∧
  ∃ v, bollinger_compute sqrt_floor ohlcv 2 (of_Z 2) "Close" = Ok v ∧
    sma ohlcv 2 "Close" = Ok (ma v) ∧
    (∀ i, (i < length (Num <$> closes))%nat →
       ∃ m sg u l, ma v !! i = Some m ∧ Technical.std v !! i = Some sg ∧
         upper v !! i = Some u ∧ lower v !! i = Some l ∧
         u = fadd m (fmul (of_Z 2) sg) ∧
         l = fsub m (fmul (of_Z 2) sg) ∧
         (u ≠ NaN → l ≠ NaN → fsub u m = fsub m l)) ∧
    (∀ qs, Num <$> closes = Num <$> qs → ∀ i, (i < length qs)%nat →
       ma v !! i = Some (rolling_mean (Z.to_nat 2) qs i) ∧
       Technical.std v !! i = Some (rolling_std sqrt_floor (Z.to_nat 2) qs i)).
Proof.
  split; [reflexivity|].
  eexists. split; [vm_compute; reflexivity|].
  apply (proj2 (bollinger_bands_symmetric sqrt_floor ohlcv "Close" (Num <$> closes) 2
                  (of_Z 2) eq_refl)).
  vm_compute; reflexivity.
Defined.




Lemma chart_without_figure_is_returned_witness :
  bare_store !! 0%nat = Some (mkChart ohlcv (Some "prices") None) ∧
  fig (mkChart ohlcv (Some "prices") None) = None ∧
  (∀ period column, add_sma 0 period column bare_store = (Ok 0%nat, bare_store)) ∧
  (∀ period column, add_ema 0 period column bare_store = (Ok 0%nat, bare_store)) ∧
  (∀ period column, add_rsi 0 period column bare_store = (Ok 0%nat, bare_store)) ∧
  (∀ fast_period slow_period signal_period column,
     add_macd 0 fast_period slow_period signal_period column bare_store
     = (Ok 0%nat, bare_store)) ∧
  (∀ period std_dev column,
     add_bollinger_bands sqrt_floor 0 period std_dev column bare_store
     = (Ok 0%nat, bare_store)) ∧
  add_range_slider 0 bare_store = (Ok 0%nat, bare_store) ∧
  add_zoom_pan 0 bare_store = (Ok 0%nat, bare_store) ∧
  add_tooltips 0 bare_store = (Ok 0%nat, bare_store) ∧
  bare_store !! 0%nat = Some (mkChart ohlcv (Some "prices") None).
Proof.
  split; [reflexivity|]. split; [reflexivity|].
  apply (chart_without_figure_is_returned sqrt_floor bare_store 0
           (mkChart ohlcv (Some "prices") None)); reflexivity.
Defined.

Lemma indicators_guarded_by_figure_witness :
  let c := mkChart ohlcv None (Some new_figure) in
  price_store !! 0%nat = Some c ∧
  (∀ period column,
     guarded_by_figure c (sma (data c) period column) price_store
       (add_sma 0 period column price_store) ∧
     ((∃ v, sma (data c) period column = Ok v)
      ↔ column ∈ column_names (data c) ∧ (0 ≤ period)%Z)) ∧
  (∀ period column,
     guarded_by_figure c (ema (data c) period column) price_store
       (add_ema 0 period column price_store) ∧
     ((∃ v, ema (data c) period column = Ok v)
      ↔ column ∈ column_names (data c) ∧ (1 ≤ period)%Z)) ∧
  (∀ period column,
     guarded_by_figure c (rsi_compute (data c) period column) price_store
       (add_rsi 0 period column price_store) ∧
     ((∃ v, rsi_compute (data c) period column = Ok v)
      ↔ column ∈ column_names (data c) ∧ (0 ≤ period)%Z)) ∧
  (∀ fast slow sig column,
     guarded_by_figure c (macd_compute (data c) fast slow sig column) price_store
       (add_macd 0 fast slow sig column price_store) ∧
     ((∃ v, macd_compute (data c) fast slow sig column = Ok v)
      ↔ column ∈ column_names (data c) ∧ (1 ≤ fast)%Z ∧ (1 ≤ slow)%Z ∧ (1 ≤ sig)%Z)) ∧
  (∀ period std_dev column,
     guarded_by_figure c (bollinger_compute sqrt_floor (data c) period std_dev column)
       price_store (add_bollinger_bands sqrt_floor 0 period std_dev column price_store) ∧
     ((∃ v, bollinger_compute sqrt_floor (data c) period std_dev column = Ok v)
      ↔ column ∈ column_names (data c) ∧ (0 ≤ period)%Z)).
Proof.
  intros c. split; [reflexivity|].
  apply (indicators_guarded_by_figure sqrt_floor price_store 0 c). reflexivity.
Defined.


Lemma roc_chart_contents_witness :
  roc_run = (Ok 0%nat, roc_run.2) ∧
  ∃ fpr tpr thresholds f df t1 t2,
    roc_curve_two [1; 0]%Z [Num (Qc_of_Z 8 / Qc_of_Z 10); Num (Qc_of_Z 3 / Qc_of_Z 10)]
    = Ok (fpr, tpr, thresholds) ∧
    0%nat = fresh (dom (∅ : gmap nat Chart)) ∧
    roc_run.2 = <[0%nat := mkChart df None (Some f)]> ∅ ∧
    traces f = [(t1, None); (t2, None)] ∧
    kind t1 = Scatter ∧
    props t1 !! "x" = Some (VSeries fpr) ∧ props t1 !! "y" = Some (VSeries tpr) ∧
    kind t2 = Scatter ∧
    props t2 !! "x" = Some (VInts [0; 1]%Z) ∧ props t2 !! "y" = Some (VInts [0; 1]%Z) ∧
    column_names df = ["fpr"; "tpr"] ∧
    getitem df "fpr" = Ok fpr ∧ getitem df "tpr" = Ok tpr ∧
    index df = Z.of_nat <$> seq 0 (length fpr).
Proof.
  split; [vm_compute; reflexivity|].
  apply (proj2 (roc_chart_contents roc_curve_two auc_trapezoid two_decimals [1; 0]%Z
                  [Num (Qc_of_Z 8 / Qc_of_Z 10); Num (Qc_of_Z 3 / Qc_of_Z 10)] None ∅)
           0%nat roc_run.2).
  vm_compute; reflexivity.
Defined.

(** ** Further properties of the indicator arithmetic *)

Import Constructors Predictions App Kwargs Variations Samples.

(** *** Every series, missing values included *)

Lemma ewm_run_length (a : Qc) (st : ewm_state) (s : Series) :
  length (ewm_run a st s) = length s.
Proof. revert st. induction s as [|x s IH]; intros st; simpl; [done|]. by rewrite IH. Qed.

Lemma ewm_mean_length (e : EWM) : length (ewm_mean e) = length (ewm_obj e).
Proof. apply ewm_run_length. Qed.

Lemma where_length (s : Series) (cond : list bool) (o : pyfloat) :
  length cond = length s → length (where_ s cond o) = length s.
Proof. intros H. unfold where_. rewrite length_zip_with. lia. Qed.

Lemma mean_length (r : Rolling) : length (mean r) = length (obj r).
Proof. apply roll_apply_length. Qed.

Lemma std_length (sqrt : Qc → Qc) (r : Rolling) : length (Pandas.std sqrt r) = length (obj r).
Proof. apply roll_apply_length. Qed.

Ltac run_arithmetic Hcol :=
  unfold sma, ema, rsi_compute, macd_compute, bollinger_compute;
  rewrite ?Hcol; cbn [mbind result_bind rbind mret result_ret];
  unfold rolling, ewm;
  repeat (case_decide; cbn [mbind result_bind rbind mret result_ret]);
  try discriminate.

(** X1.  Whatever the column holds (numbers, NaN, infinities) and whatever
    the periods, every series the five indicator functions compute has
    exactly one entry per row of the column. *)
Theorem indicator_series_keep_length (sqrt : Qc → Qc) (data : DataFrame)
    (column : string) (s : Series) :
  getitem data column = Ok s →
  (∀ p out, sma data p column = Ok out → length out = length s) ∧
  (∀ p out, ema data p column = Ok out → length out = length s) ∧
  (∀ p v, rsi_compute data p column = Ok v →
     length (delta v) = length s ∧ length (gain v) = length s ∧
     length (loss v) = length s ∧ length (rs v) = length s ∧
     length (rsi v) = length s) ∧
  (∀ fast slow sig v, macd_compute data fast slow sig column = Ok v →
     length (exp1 v) = length s ∧ length (exp2 v) = length s ∧
     length (macd v) = length s ∧ length (signal v) = length s ∧
     length (hist v) = length s) ∧
  (∀ p k v, bollinger_compute sqrt data p k column = Ok v →
     length (ma v) = length s ∧ length (Technical.std v) = length s ∧
     length (upper v) = length s ∧ length (lower v) = length s).
Proof.
  intros Hcol.
  split; [|split; [|split; [|split]]]; intros *; run_arithmetic Hcol;
    intros [= <-];
    cbn [delta gain loss rs rsi exp1 exp2 macd signal hist ma Technical.std upper lower];
    unfold scalar_sub, scalar_div, scalar_add, div, sub, add, mul_scalar, neg,
      gt_scalar, lt_scalar;
    repeat split;
    repeat (rewrite ?length_fmap, ?length_zip_with, ?mean_length, ?std_length,
              ?ewm_mean_length, ?diff_length;
            cbn [obj ewm_obj]; unfold where_);
    lia.
Qed.

Lemma observations_length_le (w : Series) : (length (observations w) ≤ length w)%nat.
Proof.
  unfold observations. induction w as [|x w IH]; csimpl; [done|].
  destruct (observation x); simpl; lia.
Qed.

Lemma observations_gap (w : Series) (x : pyfloat) :
  x ∈ w → observation x = None → (length (observations w) < length w)%nat.
Proof.
  intros Hin Hx. induction w as [|y w IH]; [by apply elem_of_nil in Hin|].
  unfold observations in *. csimpl. apply elem_of_cons in Hin as [<-|Hin].
  - rewrite Hx. pose proof (observations_length_le w). unfold observations in *.
    simpl. lia.
  - specialize (IH Hin). destruct (observation y); simpl; lia.
Qed.

Lemma window_at_length (w i : nat) (s : Series) :
  (i < length s)%nat → length (window_at w i s) = (S i `min` w)%nat.
Proof. intros Hi. unfold window_at. rewrite length_drop, length_take. lia. Qed.

Lemma sma_runs (data : DataFrame) (column : string) (s : Series) (p : Z) :
  getitem data column = Ok s → (0 ≤ p)%Z →
  sma data p column = Ok (mean (mkRolling s (Z.to_nat p) (Z.to_nat p))).
Proof. intros Hcol Hp. run_arithmetic Hcol; [lia|done]. Qed.

(** X2.  On any column and for [p >= 1], the SMA at a row is the mean of the
    [p] values ending there when all of them are numbers; it is NaN when
    fewer than [p] rows are available, and NaN as soon as the window holds a
    NaN or an infinite value.  One bad price so blanks the SMA of every
    window that contains it. *)
Theorem sma_blank_where_window_has_gap (data : DataFrame) (column : string)
    (s : Series) (p : Z) :
  getitem data column = Ok s → (1 ≤ p)%Z →
  ∃ out, sma data p column = Ok out ∧
    ∀ i, (i < length s)%nat →
      (∀ xs, (Z.to_nat p ≤ S i)%nat → window_at (Z.to_nat p) i s = Num <$> xs →
         length xs = Z.to_nat p ∧ out !! i = Some (Num (arith_mean xs))) ∧
      ((S i < Z.to_nat p)%nat → out !! i = Some NaN) ∧
      (∀ x, x ∈ window_at (Z.to_nat p) i s → observation x = None →
         out !! i = Some NaN).
Proof.
  intros Hcol Hp. rewrite (sma_runs _ _ s) by (done || lia).
  eexists. split; [done|]. intros i Hi. unfold mean.
  rewrite roll_apply_lookup by done. cbn [obj window min_periods]. cbv zeta.
  pose proof (window_at_length (Z.to_nat p) i s Hi) as Hlen.
  split; [|split].
  - intros xs Hge Hw. rewrite Hw, observations_num.
    assert (Hxs : length xs = Z.to_nat p).
    { rewrite Hw, length_fmap in Hlen. lia. }
    split; [done|]. rewrite decide_True by lia.
    unfold mean_of, arith_mean. rewrite decide_False by lia. done.
  - intros Hlt. rewrite decide_False; [done|].
    pose proof (observations_length_le (window_at (Z.to_nat p) i s)). lia.
  - intros x Hin Hx. rewrite decide_False; [done|].
    pose proof (observations_gap _ _ Hin Hx). lia.
Qed.

(** X3.  When the column has fewer rows than the period, the three rolling
    indicators have nothing to show: every entry of the SMA, of both
    Bollinger bands and of the RSI is NaN, and nothing is raised. *)
Theorem short_column_gives_no_values (sqrt : Qc → Qc) (data : DataFrame)
    (column : string) (s : Series) (p : Z) (std_dev : pyfloat) :
  getitem data column = Ok s → (Z.of_nat (length s) < p)%Z →
  (∃ out, sma data p column = Ok out ∧ out = replicate (length s) NaN) ∧
  (∃ v, bollinger_compute sqrt data p std_dev column = Ok v ∧
        upper v = replicate (length s) NaN ∧ lower v = replicate (length s) NaN) ∧
  (∃ v, rsi_compute data p column = Ok v ∧ rsi v = replicate (length s) NaN).
Proof.
  intros Hcol Hp.
  assert (Hroll : ∀ (f : list Qc → pyfloat) (t : Series),
            length t = length s →
            roll_apply f (mkRolling t (Z.to_nat p) (Z.to_nat p))
            = replicate (length s) NaN).
  { intros f t Ht. apply list_eq. intros i.
    destruct (decide (i < length s)%nat) as [Hi|Hi].
    - rewrite roll_apply_lookup by (cbn; lia). cbn [obj window min_periods]. cbv zeta.
      rewrite lookup_replicate_2 by done. rewrite decide_False; [done|].
      pose proof (observations_length_le (window_at (Z.to_nat p) i t)) as Hle.
      rewrite window_at_length in Hle by lia. lia.
    - rewrite (proj1 (lookup_replicate_None (length s) NaN i)) by lia.
      apply lookup_ge_None. rewrite roll_apply_length. cbn. lia. }
  assert (Hmap : ∀ g : pyfloat → pyfloat, g NaN = NaN →
            g <$> replicate (length s) NaN = replicate (length s) NaN).
  { intros g Hg. by rewrite fmap_replicate, Hg. }
  assert (Hzip : ∀ g : pyfloat → pyfloat → pyfloat, g NaN NaN = NaN →
            zip_with g (replicate (length s) NaN) (replicate (length s) NaN)
            = replicate (length s) NaN).
  { intros g Hg. rewrite zip_with_replicate. by rewrite Hg. }
  split; [|split].
  - rewrite (sma_runs _ _ s) by (done || lia). eexists. split; [done|].
    by apply Hroll.
  - run_arithmetic Hcol; [lia|]. eexists. split; [done|].
    cbn [upper lower]. unfold mean, Pandas.std, add, sub, mul_scalar.
    rewrite !Hroll by done.
    rewrite (Hmap (λ x, fmul x std_dev)) by done. by rewrite !Hzip.
  - run_arithmetic Hcol; [lia|]. eexists. split; [done|].
    cbn [rsi]. unfold mean, div, scalar_sub, scalar_div, scalar_add.
    rewrite !Hroll.
    + rewrite Hzip by done. by rewrite !Hmap.
    + unfold neg. rewrite length_fmap, where_length; [by rewrite diff_length|].
      unfold lt_scalar. by rewrite length_fmap.
    + rewrite where_length; [by rewrite diff_length|].
      unfold gt_scalar. by rewrite length_fmap.
Qed.

(** *** Period one *)

Lemma Qc_of_nat_1 : Qc_of_nat 1 = 1.
Proof. unfold Qc_of_nat. apply Z2Qc_inj_1. Qed.

Lemma trailing_window_one (i : nat) (qs : list Qc) (x : Qc) :
  qs !! i = Some x → trailing_window 1 i qs = [x].
Proof.
  intros Hx. unfold trailing_window, slice.
  replace (S i - 1)%nat with i by lia. replace (S i - i)%nat with 1%nat by lia.
  apply list_eq. intros [|j].
  - rewrite lookup_take_lt by lia. rewrite lookup_drop. by rewrite Nat.add_0_r.
  - rewrite lookup_take_ge by lia. done.
Qed.

Lemma ema_from_alpha_one (prev : Qc) (xs : list Qc) : ema_from 1 prev xs = xs.
Proof.
  revert prev. induction xs as [|x xs IH]; intros prev; [done|].
  simpl. rewrite IH. f_equal. ring.
Qed.

Lemma alpha_of_one : alpha_of 1 = 1.
Proof. unfold alpha_of. rewrite Z2Qc_inj_1, Z2Qc_inj_2. by field. Qed.

Lemma std_of_short (sqrt : Qc → Qc) (obs : list Qc) :
  (length obs ≤ 1)%nat → std_of sqrt obs = NaN.
Proof. intros H. unfold std_of, var_of. cbv zeta. by rewrite decide_True. Qed.

(** X4.  With a period of 1 the SMA and the EMA of a column of numbers are
    the column itself, and the Bollinger bands of any column are NaN at
    every row: a window of one value has no sample deviation. *)
Theorem period_one_is_degenerate (sqrt : Qc → Qc) (data : DataFrame) (column : string)
    (s : Series) (std_dev : pyfloat) :
  getitem data column = Ok s →
  (∀ qs, s = Num <$> qs → sma data 1 column = Ok s ∧ ema data 1 column = Ok s) ∧
  (∃ v, bollinger_compute sqrt data 1 std_dev column = Ok v ∧
        upper v = replicate (length s) NaN ∧ lower v = replicate (length s) NaN).
Proof.
  intros Hcol. split.
  - intros qs ->. split.
    + rewrite (sma_runs _ _ (Num <$> qs)) by (done || lia). f_equal.
      apply list_eq. intros i. change (Z.to_nat 1) with 1%nat.
      destruct (decide (i < length qs)%nat) as [Hi|Hi].
      * rewrite mean_num_lookup by done. unfold rolling_mean.
        rewrite decide_True by lia.
        destruct (lookup_lt_is_Some_2 qs i Hi) as [x Hx].
        rewrite (trailing_window_one i qs x Hx), list_lookup_fmap, Hx. simpl.
        do 2 f_equal. unfold arith_mean. simpl. rewrite Qc_of_nat_1.
        rewrite Qcdiv_right_id. ring.
      * rewrite !(proj2 (lookup_ge_None _ _)); [done| |].
        -- rewrite length_fmap. lia.
        -- rewrite mean_length. cbn. rewrite length_fmap. lia.
    + rewrite (ema_num _ _ qs) by (done || lia). f_equal. f_equal.
      rewrite alpha_of_one. destruct qs as [|q qs]; [done|].
      simpl. by rewrite ema_from_alpha_one.
  - run_arithmetic Hcol; try lia. eexists. split; [done|].
    cbn [upper lower]. change (Z.to_nat 1) with 1%nat.
    assert (Hstd : Pandas.std sqrt (mkRolling s 1 1) = replicate (length s) NaN).
    { apply list_eq. intros i. destruct (decide (i < length s)%nat) as [Hi|Hi].
      - unfold Pandas.std. rewrite roll_apply_lookup by done.
        cbn [obj window min_periods]. cbv zeta.
        rewrite lookup_replicate_2 by done. f_equal.
        case_decide; [|done]. apply std_of_short.
        pose proof (observations_length_le (window_at 1 i s)) as Hle.
        rewrite window_at_length in Hle by done. lia.
      - rewrite (proj1 (lookup_replicate_None (length s) NaN i)) by lia.
        apply lookup_ge_None. rewrite std_length. cbn. lia. }
    rewrite Hstd. unfold add, sub, mul_scalar. rewrite fmap_replicate.
    change (fmul NaN std_dev) with NaN.
    assert (Hz : ∀ (g : pyfloat → pyfloat → pyfloat) (t : Series),
              length t = length s → (∀ x, g x NaN = NaN) →
              zip_with g t (replicate (length s) NaN) = replicate (length s) NaN).
    { intros g t Ht Hg. apply list_eq. intros i.
      rewrite lookup_zip_with. destruct (decide (i < length s)%nat) as [Hi|Hi].
      - rewrite lookup_replicate_2 by done.
        destruct (lookup_lt_is_Some_2 t i) as [x ->]; [lia|]. simpl. by rewrite Hg.
      - rewrite (proj1 (lookup_replicate_None (length s) NaN i)) by lia.
        by destruct (t !! i). }
    split; apply Hz; try (by rewrite mean_length).
    + intros x. by destruct x.
    + intros x. by destruct x.
Qed.

(** *** Averages stay among the prices *)

Lemma Qc_of_nat_S (n : nat) : Qc_of_nat (S n) = Qc_of_nat n + 1.
Proof.
  unfold Qc_of_nat. rewrite Nat2Z.inj_succ, <- Z.add_1_r, Z2Qc_inj_add.
  by rewrite Z2Qc_inj_1.
Qed.

Lemma Qc_of_nat_0 : Qc_of_nat 0 = 0.
Proof. unfold Qc_of_nat. apply Z2Qc_inj_0. Qed.

Lemma sum_within (lo hi : Qc) (xs : list Qc) :
  within lo hi xs →
  Qc_of_nat (length xs) * lo ≤ sum xs ∧ sum xs ≤ Qc_of_nat (length xs) * hi.
Proof.
  induction 1 as [|x xs [Hlo Hhi] _ [IHlo IHhi]]; simpl.
  - rewrite Qc_of_nat_0, !Qcmult_0_l. done.
  - rewrite Qc_of_nat_S. split.
    + replace ((Qc_of_nat (length xs) + 1) * lo)
        with (lo + Qc_of_nat (length xs) * lo) by ring.
      by apply Qcplus_le_compat.
    + replace ((Qc_of_nat (length xs) + 1) * hi)
        with (hi + Qc_of_nat (length xs) * hi) by ring.
      by apply Qcplus_le_compat.
Qed.

Lemma mean_within (lo hi : Qc) (xs : list Qc) :
  (0 < length xs)%nat → within lo hi xs →
  lo ≤ arith_mean xs ∧ arith_mean xs ≤ hi.
Proof.
  intros Hn Hin. destruct (sum_within lo hi xs Hin) as [Hlo Hhi].
  pose proof (Qc_of_nat_pos _ Hn) as Hpos.
  assert (Hne : Qc_of_nat (length xs) ≠ 0).
  { intros E. rewrite E in Hpos. by destruct (Qclt_not_eq 0 0). }
  unfold arith_mean. split.
  - apply (Qcmult_le_mono_pos_r _ _ (Qc_of_nat (length xs))); [done|].
    unfold Qcdiv. rewrite <- Qcmult_assoc, Qcmult_inv_l, Qcmult_1_r by done.
    by rewrite (Qcmult_comm lo).
  - apply (Qcmult_le_mono_pos_r _ _ (Qc_of_nat (length xs))); [done|].
    unfold Qcdiv. rewrite <- Qcmult_assoc, Qcmult_inv_l, Qcmult_1_r by done.
    by rewrite (Qcmult_comm hi).
Qed.

Lemma blend_within (a lo hi x e : Qc) :
  0 ≤ a → a ≤ 1 → lo ≤ x → x ≤ hi → lo ≤ e → e ≤ hi →
  lo ≤ a * x + (1 - a) * e ∧ a * x + (1 - a) * e ≤ hi.
Proof.
  intros Ha0 Ha1 Hx1 Hx2 He1 He2.
  assert (Hb : 0 ≤ 1 - a) by (unfold Qcminus; by apply (proj1 (Qcle_minus_iff a 1))).
  split.
  - apply Qcle_trans with (a * lo + (1 - a) * lo).
    + replace (a * lo + (1 - a) * lo) with lo by ring. apply Qcle_refl.
    + apply Qcplus_le_compat; by apply Qcmult_le_mono_nonneg_l.
  - apply Qcle_trans with (a * hi + (1 - a) * hi).
    + apply Qcplus_le_compat; by apply Qcmult_le_mono_nonneg_l.
    + replace (a * hi + (1 - a) * hi) with hi by ring. apply Qcle_refl.
Qed.

Lemma ema_from_within (a lo hi prev : Qc) (xs : list Qc) :
  0 ≤ a → a ≤ 1 → lo ≤ prev → prev ≤ hi → within lo hi xs →
  within lo hi (ema_from a prev xs).
Proof.
  intros Ha0 Ha1 Hp1 Hp2 Hin. revert prev Hp1 Hp2.
  induction Hin as [|x xs [Hx1 Hx2] _ IH]; intros prev Hp1 Hp2; simpl.
  - constructor.
  - destruct (blend_within a lo hi x prev) as [H1 H2]; try done.
    constructor; [done|]. by apply IH.
Qed.

Lemma EMA_within (a lo hi : Qc) (xs : list Qc) :
  0 ≤ a → a ≤ 1 → within lo hi xs → within lo hi (EMA a xs).
Proof.
  intros Ha0 Ha1 Hin. destruct Hin as [|x xs [Hx1 Hx2] Hin]; simpl; [constructor|].
  constructor; [done|]. by apply ema_from_within.
Qed.

(** X5.  Moving averages never leave the range of the prices: if every
    price of the column lies between [lo] and [hi], every SMA value that is
    not NaN and every EMA value lies between [lo] and [hi] as well (and the
    EMA has no NaN at all). *)
Theorem moving_averages_stay_in_range (data : DataFrame) (column : string)
    (qs : list Qc) (lo hi : Qc) :
  getitem data column = Ok (Num <$> qs) → within lo hi qs →
  (∀ p out i x, sma data p column = Ok out → out !! i = Some x →
     x = NaN ∨ ∃ m, x = Num m ∧ lo ≤ m ∧ m ≤ hi) ∧
  (∀ p out i x, ema data p column = Ok out → out !! i = Some x →
     ∃ m, x = Num m ∧ lo ≤ m ∧ m ≤ hi).
Proof.
  intros Hcol Hin. split.
  - intros p out i x Hrun Hx.
    assert (Hp : (0 ≤ p)%Z) by (apply (sma_succeeds_iff data p column); eauto).
    rewrite (sma_runs _ _ (Num <$> qs)) in Hrun by done. injection Hrun as <-.
    assert (Hi : (i < length qs)%nat).
    { apply lookup_lt_Some in Hx. rewrite mean_length in Hx. cbn [obj] in Hx.
      by rewrite length_fmap in Hx. }
    rewrite mean_num_lookup in Hx by done. injection Hx as <-.
    unfold rolling_mean. case_decide; [|by left]. right. eexists. split; [done|].
    apply mean_within.
    + rewrite trailing_window_length; lia.
    + by apply trailing_window_Forall.
  - intros p out i x Hrun Hx.
    assert (Hp : (1 ≤ p)%Z) by (apply (ema_succeeds_iff data p column); eauto).
    rewrite (ema_num _ _ qs) in Hrun by done. injection Hrun as <-.
    rewrite list_lookup_fmap in Hx.
    destruct (EMA (alpha_of p) qs !! i) as [m|] eqn:Hm; [|done].
    injection Hx as <-. exists m. split; [done|].
    destruct (alpha_of_range p Hp) as [Ha0 Ha1].
    pose proof (EMA_within (alpha_of p) lo hi qs (Qclt_le_weak _ _ Ha0) Ha1 Hin) as Hall.
    unfold within in Hall. rewrite Forall_lookup in Hall. by apply (Hall i).
Qed.

(** *** Rescaled and shifted prices *)

Lemma ema_from_affine (a k c prev : Qc) (xs : list Qc) :
  ema_from a (k * prev + c) (affine k c xs) = affine k c (ema_from a prev xs).
Proof.
  revert prev. induction xs as [|x xs IH]; intros prev; [done|].
  unfold affine in *. cbn [fmap list_fmap ema_from]. cbv zeta.
  replace (a * (k * x + c) + (1 - a) * (k * prev + c))
    with (k * (a * x + (1 - a) * prev) + c) by ring.
  by rewrite IH.
Qed.

Lemma EMA_affine (a k c : Qc) (xs : list Qc) :
  EMA a (affine k c xs) = affine k c (EMA a xs).
Proof.
  destruct xs as [|x xs]; [done|].
  unfold affine. cbn [fmap list_fmap EMA].
  pose proof (ema_from_affine a k c x xs) as H. unfold affine in H. by rewrite H.
Qed.

Lemma minus_affine (k c : Qc) (xs ys : list Qc) :
  zip_with Qcminus (affine k c xs) (affine k c ys)
  = affine k 0 (zip_with Qcminus xs ys).
Proof.
  revert ys. induction xs as [|x xs IH]; intros [|y ys]; try done.
  unfold affine in *. cbn [fmap list_fmap zip_with]. rewrite IH. f_equal. ring.
Qed.

Lemma minus_affine_0 (k : Qc) (xs ys : list Qc) :
  zip_with Qcminus (affine k 0 xs) (affine k 0 ys)
  = affine k 0 (zip_with Qcminus xs ys).
Proof. apply minus_affine. Qed.

Lemma affine_id (xs : list Qc) : affine 1 0 xs = xs.
Proof.
  unfold affine. induction xs as [|x xs IH]; [done|].
  cbn [fmap list_fmap]. rewrite IH. f_equal. ring.
Qed.

(** X6.  MACD sees price changes only: when every price of the column is
    replaced by [k * price + c], the MACD line, the signal line and the
    histogram are those of the original column multiplied by [k]; the shift
    [c] disappears.  In particular shifting all prices by a constant leaves
    the three series unchanged. *)
Theorem macd_scales_and_ignores_level (data data' : DataFrame) (column : string)
    (qs : list Qc) (k c : Qc) (fast slow sig : Z) (v : macd_locals) :
  getitem data column = Ok (Num <$> qs) →
  getitem data' column = Ok (Num <$> affine k c qs) →
  macd_compute data fast slow sig column = Ok v →
  ∃ v' m s h,
    macd_compute data' fast slow sig column = Ok v' ∧
    macd v = Num <$> m ∧ signal v = Num <$> s ∧ hist v = Num <$> h ∧
    macd v' = Num <$> affine k 0 m ∧
    signal v' = Num <$> affine k 0 s ∧
    hist v' = Num <$> affine k 0 h ∧
    (k = 1 → macd v' = macd v ∧ signal v' = signal v ∧ hist v' = hist v).
Proof.
  intros Hcol Hcol' Hrun.
  assert (Hp : column ∈ column_names data ∧ (1 ≤ fast)%Z ∧ (1 ≤ slow)%Z ∧ (1 ≤ sig)%Z)
    by (apply macd_succeeds_iff; eauto).
  destruct Hp as (_ & Hf & Hs & Hg).
  destruct (macd_on_numbers data column qs _ _ _ Hcol Hf Hs Hg)
    as (v0 & Hv0 & _ & _ & _ & Hm & Hsg & _ & Hh & _).
  rewrite Hrun in Hv0. injection Hv0 as <-.
  destruct (macd_on_numbers data' column (affine k c qs) _ _ _ Hcol' Hf Hs Hg)
    as (v' & Hv' & _ & _ & _ & Hm' & Hsg' & _ & Hh' & _).
  cbv zeta in *.
  rewrite !EMA_affine, minus_affine in Hm'.
  rewrite !EMA_affine, minus_affine, EMA_affine in Hsg'.
  rewrite !EMA_affine, minus_affine, EMA_affine, minus_affine_0 in Hh'.
  eexists v', _, _, _. split; [done|].
  split; [exact Hm|]. split; [exact Hsg|]. split; [exact Hh|].
  split; [exact Hm'|]. split; [exact Hsg'|]. split; [exact Hh'|].
  intros ->. rewrite Hm, Hsg, Hh, Hm', Hsg', Hh', !affine_id. done.
Qed.

Lemma affine_length (k c : Qc) (xs : list Qc) : length (affine k c xs) = length xs.
Proof. unfold affine. by rewrite length_fmap. Qed.

Lemma step_diff_affine (k c : Qc) (qs : list Qc) (i : nat) :
  step_diff (affine k c qs) i = Qcmult k <$> step_diff qs i.
Proof.
  destruct i as [|j]; [done|]. unfold step_diff, affine.
  rewrite !list_lookup_fmap.
  destruct (qs !! S j) as [x|]; [|done]. destruct (qs !! j) as [y|]; [|done].
  simpl. f_equal. ring.
Qed.

Lemma Qcmult_pos_iff (k d : Qc) : 0 < k → (0 < k * d ↔ 0 < d).
Proof.
  intros Hk. rewrite (Qcmult_lt_mono_pos_l 0 d k Hk). by rewrite Qcmult_0_r.
Qed.

Lemma Qcmult_neg_iff (k d : Qc) : 0 < k → (k * d < 0 ↔ d < 0).
Proof.
  intros Hk. rewrite (Qcmult_lt_mono_pos_l d 0 k Hk). by rewrite Qcmult_0_r.
Qed.

Lemma up_move_affine (k c : Qc) (qs : list Qc) (i : nat) :
  0 < k → up_move (affine k c qs) i = k * up_move qs i.
Proof.
  intros Hk. unfold up_move. rewrite step_diff_affine.
  destruct (step_diff qs i) as [d|]; simpl; [|ring].
  destruct (decide (0 < d)) as [Hd|Hd].
  - rewrite decide_True; [done|]. by apply Qcmult_pos_iff.
  - rewrite decide_False; [ring|]. by rewrite Qcmult_pos_iff.
Qed.

Lemma down_move_affine (k c : Qc) (qs : list Qc) (i : nat) :
  0 < k → down_move (affine k c qs) i = k * down_move qs i.
Proof.
  intros Hk. unfold down_move. rewrite step_diff_affine.
  destruct (step_diff qs i) as [d|]; simpl; [|ring].
  destruct (decide (d < 0)) as [Hd|Hd].
  - rewrite decide_True; [ring|]. by apply Qcmult_neg_iff.
  - rewrite decide_False; [ring|]. by rewrite Qcmult_neg_iff.
Qed.

Lemma up_moves_affine (k c : Qc) (qs : list Qc) :
  0 < k → up_moves (affine k c qs) = Qcmult k <$> up_moves qs.
Proof.
  intros Hk. unfold up_moves. rewrite affine_length, <- list_fmap_compose.
  apply list_fmap_ext. intros _ i _. by apply up_move_affine.
Qed.

Lemma down_moves_affine (k c : Qc) (qs : list Qc) :
  0 < k → down_moves (affine k c qs) = Qcmult k <$> down_moves qs.
Proof.
  intros Hk. unfold down_moves. rewrite affine_length, <- list_fmap_compose.
  apply list_fmap_ext. intros _ i _. by apply down_move_affine.
Qed.

Lemma sum_scaled (k : Qc) (xs : list Qc) : sum (Qcmult k <$> xs) = k * sum xs.
Proof.
  unfold sum. induction xs as [|x xs IH]; csimpl; [ring|].
  rewrite IH. ring.
Qed.

Lemma trailing_window_fmap (f : Qc → Qc) (p i : nat) (xs : list Qc) :
  trailing_window p i (f <$> xs) = f <$> trailing_window p i xs.
Proof. unfold trailing_window, slice. by rewrite fmap_take, fmap_drop. Qed.

Lemma arith_mean_scaled (k : Qc) (xs : list Qc) :
  arith_mean (Qcmult k <$> xs) = k * arith_mean xs.
Proof.
  unfold arith_mean. rewrite sum_scaled, length_fmap. unfold Qcdiv. ring.
Qed.

Lemma rolling_mean_scaled (k : Qc) (p : nat) (xs : list Qc) (i : nat) :
  rolling_mean p (Qcmult k <$> xs) i = scaled k (rolling_mean p xs i).
Proof.
  unfold rolling_mean. case_decide; [|done].
  simpl. by rewrite trailing_window_fmap, arith_mean_scaled.
Qed.

Lemma Qcmult_nonneg_iff (k d : Qc) : 0 < k → (0 ≤ k * d ↔ 0 ≤ d).
Proof.
  intros Hk. rewrite (Qcmult_le_mono_pos_l 0 d k Hk). by rewrite Qcmult_0_r.
Qed.

Lemma Qcmult_zero_iff (k d : Qc) : 0 < k → (k * d = 0 ↔ d = 0).
Proof.
  intros Hk. split; [|intros ->; ring].
  intros H. apply Qcmult_integral in H as [->|H]; [|done].
  by destruct (Qclt_not_eq 0 0).
Qed.

Lemma signed_inf_scaled (k g : Qc) : 0 < k → signed_inf (k * g) = signed_inf g.
Proof.
  intros Hk. unfold signed_inf.
  destruct (decide (g = 0)) as [->|Hg].
  - rewrite decide_True by ring. done.
  - rewrite decide_False by (by rewrite Qcmult_zero_iff).
    destruct (decide (0 < g)) as [Hp|Hp].
    + rewrite decide_True; [done|]. by apply Qcmult_pos_iff.
    + rewrite decide_False; [done|]. by rewrite Qcmult_pos_iff.
Qed.

Lemma fdiv_scaled (k : Qc) (g l : pyfloat) :
  0 < k → fdiv (scaled k g) (scaled k l) = fdiv g l.
Proof.
  intros Hk.
  assert (Hk0 : k ≠ 0) by (intros ->; by destruct (Qclt_not_eq 0 0)).
  destruct g as [g| | |], l as [l| | |]; cbn [scaled fdiv]; try done.
  - destruct (decide (l = 0)) as [->|Hl].
    + rewrite decide_True by ring. by apply signed_inf_scaled.
    + rewrite decide_False by (by rewrite Qcmult_zero_iff).
      f_equal. by field.
  - destruct (decide (0 ≤ l)) as [Hl|Hl].
    + rewrite decide_True; [done|]. by apply Qcmult_nonneg_iff.
    + rewrite decide_False; [done|]. by rewrite Qcmult_nonneg_iff.
  - destruct (decide (0 ≤ l)) as [Hl|Hl].
    + rewrite decide_True; [done|]. by apply Qcmult_nonneg_iff.
    + rewrite decide_False; [done|]. by rewrite Qcmult_nonneg_iff.
Qed.

(** X7.  The RSI does not depend on the unit or the level of the prices:
    replacing every price by [k * price + c] with [k > 0] leaves the relative
    strength and the RSI unchanged at every row. *)
Theorem rsi_unchanged_by_rescaling (data data' : DataFrame) (column : string)
    (qs : list Qc) (k c : Qc) (p : Z) (v : rsi_locals) :
  getitem data column = Ok (Num <$> qs) →
  getitem data' column = Ok (Num <$> affine k c qs) →
  0 < k →
  rsi_compute data p column = Ok v →
  ∃ v', rsi_compute data' p column = Ok v' ∧ rs v' = rs v ∧ rsi v' = rsi v.
Proof.
  intros Hcol Hcol' Hk Hrun.
  assert (Hp : (0 ≤ p)%Z) by (apply (rsi_succeeds_iff data p column); eauto).
  pose proof (rsi_compute_num data column qs p Hcol Hp) as H1.
  pose proof (rsi_compute_num data' column (affine k c qs) p Hcol' Hp) as H2.
  cbv zeta in H1, H2. rewrite Hrun in H1. injection H1 as ->.
  eexists. split; [exact H2|]. cbn [rs rsi].
  assert (Hrs : div (mean (mkRolling (Num <$> up_moves (affine k c qs)) (Z.to_nat p) (Z.to_nat p)))
                  (mean (mkRolling (Num <$> down_moves (affine k c qs)) (Z.to_nat p) (Z.to_nat p)))
                = div (mean (mkRolling (Num <$> up_moves qs) (Z.to_nat p) (Z.to_nat p)))
                    (mean (mkRolling (Num <$> down_moves qs) (Z.to_nat p) (Z.to_nat p)))).
  { apply list_eq. intros i. unfold div. rewrite !lookup_zip_with.
    destruct (decide (i < length qs)%nat) as [Hi|Hi].
    - rewrite !mean_num_lookup
        by (rewrite ?up_moves_length, ?down_moves_length, ?affine_length; done).
      rewrite up_moves_affine, down_moves_affine by done.
      rewrite !rolling_mean_scaled. simpl. f_equal. by apply fdiv_scaled.
    - assert (Hnone : ∀ xs : list Qc, length xs = length qs →
                mean (mkRolling (Num <$> xs) (Z.to_nat p) (Z.to_nat p)) !! i = None).
      { intros xs Hxs. apply lookup_ge_None. rewrite mean_length. cbn [obj].
        rewrite length_fmap. lia. }
      rewrite !Hnone
        by (rewrite ?up_moves_length, ?down_moves_length, ?affine_length; done).
      done. }
  by rewrite Hrs.
Qed.

(** *** The range of the relative strength index *)

Lemma of_Z_100_pos : 0 < Qc_of_Z 100.
Proof. rewrite <- Z2Qc_inj_0, <- Z2Qc_inj_lt. lia. Qed.

Lemma Qc_pos_or_zero (x : Qc) : 0 ≤ x → x = 0 ∨ 0 < x.
Proof. intros H. destruct (Qcle_lt_or_eq _ _ H) as [Hp|<-]; auto. Qed.

Lemma Qc_pos_nonzero (x : Qc) : 0 < x → x ≠ 0.
Proof. intros H ->. by destruct (Qclt_not_eq 0 0). Qed.

(** The index computed from two nonnegative averages: undefined when both
    are zero, a percentage otherwise. *)
Lemma rsi_value_cases (g l : Qc) :
  0 ≤ g → 0 ≤ l →
  let x := fsub (of_Z 100) (fdiv (of_Z 100) (fadd (of_Z 1) (fdiv (Num g) (Num l)))) in
  (g = 0 ∧ l = 0 ∧ x = NaN)
  ∨ (¬ (g = 0 ∧ l = 0) ∧ ∃ r, x = Num r ∧ 0 ≤ r ∧ r ≤ Qc_of_Z 100).
Proof.
  intros Hg Hl x.
  destruct (Qc_pos_or_zero l Hl) as [->|Hlpos].
  - destruct (Qc_pos_or_zero g Hg) as [->|Hgpos].
    + left. split; [done|]. split; [done|]. unfold x. cbn [fdiv].
      rewrite decide_True by done.
      unfold signed_inf. rewrite decide_True by done. done.
    + right. split; [intros [-> _]; by destruct (Qclt_not_eq 0 0)|].
      unfold x. cbn [fdiv]. rewrite decide_True by done.
      unfold signed_inf. rewrite decide_False by (by apply Qc_pos_nonzero).
      rewrite decide_True by done. unfold of_Z. cbn [fadd fdiv fsub fneg].
      eexists. split; [done|]. pose proof of_Z_100_pos as H100.
      replace (Qc_of_Z 100 + - 0) with (Qc_of_Z 100) by ring.
      split; [by apply Qclt_le_weak|apply Qcle_refl].
  - right. split; [intros [_ ->]; by destruct (Qclt_not_eq 0 0)|].
    destruct (rsi_value_range g l Hg Hlpos) as (r & Hr & Hr0 & Hr100).
    exists r. by rewrite <- Hr.
Qed.

Lemma mean_moves_nonneg (f : list Qc → nat → Qc) (p i : nat) (qs : list Qc) :
  (∀ j, 0 ≤ f qs j) →
  0 ≤ arith_mean (trailing_window p i (f qs <$> seq 0 (length qs))).
Proof.
  intros Hf. apply Qcdiv_nonneg; [|apply Qc_of_nat_nonneg].
  by apply sum_nonneg, trailing_window_Forall, (moves_Forall _ f).
Qed.

(** X8.  On a column of numbers the RSI is, at every row, either undefined
    or a percentage: it is NaN exactly where the window is not full yet (or
    has length 0) or where the average gain and the average loss are both 0,
    and a number between 0 and 100 everywhere else, an average loss of 0
    included. *)
Theorem rsi_is_blank_or_percentage (data : DataFrame) (column : string)
    (qs : list Qc) (p : Z) (v : rsi_locals) :
  getitem data column = Ok (Num <$> qs) →
  rsi_compute data p column = Ok v →
  ∀ i, (i < length qs)%nat →
    let still := gain v !! i = Some (Num 0) ∧ loss v !! i = Some (Num 0) in
    (rsi v !! i = Some NaN ∧ (p = 0 ∨ Z.of_nat (S i) < p ∨ still)%Z)
    ∨ (∃ r, rsi v !! i = Some (Num r) ∧ 0 ≤ r ∧ r ≤ Qc_of_Z 100
            ∧ (1 ≤ p ≤ Z.of_nat (S i))%Z ∧ ¬ still).
Proof.
  intros Hcol Hrun i Hi still.
  assert (Hp : (0 ≤ p)%Z) by (apply (rsi_succeeds_iff data p column); eauto).
  pose proof (rsi_compute_num data column qs p Hcol Hp) as H1.
  cbv zeta in H1. rewrite Hrun in H1. injection H1 as ->.
  pose proof (rsi_series_lookup qs (Z.to_nat p) i Hi) as H.
  cbv zeta in H. destruct H as (HG & HL & _ & Hrsi).
  unfold still. cbn [gain loss rsi]. rewrite HG, HL, Hrsi.
  unfold rolling_mean.
  destruct (decide (1 ≤ Z.to_nat p ≤ S i)%nat) as [Hge|Hlt].
  - set (g := arith_mean (trailing_window (Z.to_nat p) i (up_moves qs))).
    set (l := arith_mean (trailing_window (Z.to_nat p) i (down_moves qs))).
    destruct (rsi_value_cases g l) as [(Hg0 & Hl0 & Hx)|(Hnot & r & Hx & Hr)].
    + apply (mean_moves_nonneg up_move), up_move_nonneg.
    + apply (mean_moves_nonneg down_move), down_move_nonneg.
    + left. cbv zeta in Hx. rewrite Hx, Hg0, Hl0. auto.
    + right. exists r. cbv zeta in Hx. rewrite Hx.
      split; [done|]. split; [tauto|]. split; [tauto|]. split; [lia|].
      intros [Eg El]. apply Hnot. split; congruence.
  - left. split; [done|]. destruct (decide (p = 0)%Z); [auto|]. right. left. lia.
Qed.

(** *** Prices mirrored *)

Lemma Qcopp_pos_iff (d : Qc) : 0 < - d ↔ d < 0.
Proof.
  split; intros H.
  - apply Qclt_minus_iff. by rewrite Qcplus_0_l.
  - apply (proj1 (Qclt_minus_iff d 0)) in H. by rewrite Qcplus_0_l in H.
Qed.

Lemma Qcopp_neg_iff (d : Qc) : - d < 0 ↔ 0 < d.
Proof. rewrite <- Qcopp_pos_iff. by rewrite Qcopp_involutive. Qed.

Lemma up_move_mirrored (k c : Qc) (qs : list Qc) (i : nat) :
  k < 0 → up_move (affine k c qs) i = - k * down_move qs i.
Proof.
  intros Hk. apply Qcopp_pos_iff in Hk.
  unfold up_move, down_move. rewrite step_diff_affine.
  destruct (step_diff qs i) as [d|]; simpl; [|ring].
  replace (k * d) with (- k * - d) by ring.
  destruct (decide (d < 0)) as [Hd|Hd].
  - rewrite decide_True; [done|]. by apply Qcmult_pos_iff, Qcopp_pos_iff.
  - rewrite decide_False; [ring|]. by rewrite Qcmult_pos_iff, Qcopp_pos_iff.
Qed.

Lemma down_move_mirrored (k c : Qc) (qs : list Qc) (i : nat) :
  k < 0 → down_move (affine k c qs) i = - k * up_move qs i.
Proof.
  intros Hk. apply Qcopp_pos_iff in Hk.
  unfold up_move, down_move. rewrite step_diff_affine.
  destruct (step_diff qs i) as [d|]; simpl; [|ring].
  replace (k * d) with (- k * - d) by ring.
  destruct (decide (0 < d)) as [Hd|Hd].
  - rewrite decide_True; [ring|]. by apply Qcmult_neg_iff, Qcopp_neg_iff.
  - rewrite decide_False; [ring|]. by rewrite Qcmult_neg_iff, Qcopp_neg_iff.
Qed.




Lemma fdiv_numbers (a b : Qc) : b ≠ 0 → fdiv (Num a) (Num b) = Num (a / b).
Proof. intros Hb. cbn [fdiv]. by rewrite decide_False. Qed.


Lemma rsi_value_no_gain (l : Qc) :
  0 < l →
  fsub (of_Z 100) (fdiv (of_Z 100) (fadd (of_Z 1) (fdiv (Num 0) (Num l)))) = Num 0.
Proof.
  intros Hl. pose proof (Qc_pos_nonzero l Hl) as Hl0.
  rewrite fdiv_numbers by done. unfold of_Z. rewrite Z2Qc_inj_1.
  set (h := Qc_of_Z 100). cbn [fadd].
  assert (Hden : 1 + 0 / l ≠ 0).
  { replace (1 + 0 / l) with 1 by (field; done). done. }
  rewrite fdiv_numbers by done. cbn [fsub fneg fadd]. f_equal. all: by field.
Qed.



(** *** Prices that do not move *)

Lemma ema_from_flat (a c : Qc) (n : nat) :
  ema_from a c (replicate n c) = replicate n c.
Proof.
  induction n as [|n IH]; [done|]. cbn [replicate ema_from]. cbv zeta.
  replace (a * c + (1 - a) * c) with c by ring. by rewrite IH.
Qed.

Lemma EMA_flat (a c : Qc) (n : nat) : EMA a (replicate n c) = replicate n c.
Proof. destruct n as [|n]; [done|]. cbn [replicate EMA]. by rewrite ema_from_flat. Qed.

Lemma minus_flat (c : Qc) (n : nat) :
  zip_with Qcminus (replicate n c) (replicate n c) = replicate n 0.
Proof. rewrite zip_with_replicate. f_equal. ring. Qed.

Lemma step_diff_flat (c : Qc) (n i : nat) (d : Qc) :
  step_diff (replicate n c) i = Some d → d = 0.
Proof.
  destruct i as [|j]; [done|]. unfold step_diff.
  destruct (replicate n c !! S j) as [x|] eqn:Hx; [|done].
  destruct (replicate n c !! j) as [y|] eqn:Hy; [|done].
  apply lookup_replicate in Hx as [-> _]. apply lookup_replicate in Hy as [-> _].
  simpl. intros [= <-]. ring.
Qed.

Lemma up_move_flat (c : Qc) (n i : nat) : up_move (replicate n c) i = 0.
Proof.
  unfold up_move. destruct (step_diff (replicate n c) i) as [d|] eqn:Hd; [|done].
  apply step_diff_flat in Hd as ->. by rewrite decide_False.
Qed.

Lemma down_move_flat (c : Qc) (n i : nat) : down_move (replicate n c) i = 0.
Proof.
  unfold down_move. destruct (step_diff (replicate n c) i) as [d|] eqn:Hd; [|done].
  apply step_diff_flat in Hd as ->. by rewrite decide_False.
Qed.

Lemma mean_of_zeros (p i : nat) (xs : list Qc) :
  Forall (λ x, x = 0) xs → arith_mean (trailing_window p i xs) = 0.
Proof.
  intros H. unfold arith_mean. rewrite sum_zero by (by apply trailing_window_Forall).
  unfold Qcdiv. ring.
Qed.

(** X10.  On a column whose prices are all equal to [c]: the EMA is [c] at
    every row, for every span; the MACD line, its signal line and the
    histogram are 0 at every row; and the RSI is NaN at every row, for every
    period, because the average gain and the average loss are both 0. *)
Theorem flat_prices (data : DataFrame) (column : string) (n : nat) (c : Qc) :
  getitem data column = Ok (replicate n (Num c)) →
  (∀ p out, ema data p column = Ok out → out = replicate n (Num c)) ∧
  (∀ fast slow sig v, macd_compute data fast slow sig column = Ok v →
     macd v = replicate n (Num 0) ∧ signal v = replicate n (Num 0) ∧
     hist v = replicate n (Num 0)) ∧
  (∀ p v, rsi_compute data p column = Ok v → rsi v = replicate n NaN).
Proof.
  intros Hcol. rewrite <- fmap_replicate in Hcol. split; [|split].
  - intros p out Hrun.
    assert (Hp : (1 ≤ p)%Z) by (apply (ema_succeeds_iff data p column); eauto).
    rewrite (ema_num data column _ p Hcol Hp) in Hrun. injection Hrun as <-.
    by rewrite EMA_flat, fmap_replicate.
  - intros fast slow sig v Hrun.
    assert (Hp : column ∈ column_names data ∧ (1 ≤ fast)%Z ∧ (1 ≤ slow)%Z ∧ (1 ≤ sig)%Z)
      by (apply macd_succeeds_iff; eauto).
    destruct Hp as (_ & Hf & Hs & Hg).
    destruct (macd_on_numbers data column _ _ _ _ Hcol Hf Hs Hg)
      as (v0 & Hv0 & _ & _ & _ & Hm & Hsg & _ & Hh & _).
    rewrite Hrun in Hv0. injection Hv0 as <-. cbv zeta in *.
    rewrite !EMA_flat, minus_flat in Hm.
    rewrite !EMA_flat, minus_flat, EMA_flat in Hsg.
    rewrite !EMA_flat, minus_flat, EMA_flat, minus_flat in Hh.
    by rewrite Hm, Hsg, Hh, fmap_replicate.
  - intros p v Hrun.
    assert (Hp : (0 ≤ p)%Z) by (apply (rsi_succeeds_iff data p column); eauto).
    pose proof (rsi_compute_num data column _ p Hcol Hp) as H1.
    cbv zeta in H1. rewrite Hrun in H1. injection H1 as ->. cbn [rsi].
    apply list_eq. intros i.
    destruct (decide (i < n)%nat) as [Hi|Hi].
    + pose proof (rsi_series_lookup (replicate n c) (Z.to_nat p) i) as H.
      cbv zeta in H. rewrite length_replicate in H.
      destruct (H Hi) as (_ & _ & _ & ->).
      rewrite lookup_replicate_2 by done. f_equal. unfold rolling_mean.
      destruct (decide (1 ≤ Z.to_nat p ≤ S i)%nat); [|done].
      rewrite !mean_of_zeros; [by vm_compute| |].
      * apply (moves_Forall _ down_move). intros j. apply down_move_flat.
      * apply (moves_Forall _ up_move). intros j. apply up_move_flat.
    + rewrite (proj1 (lookup_replicate_None n NaN i)) by lia.
      apply lookup_ge_None.
      pose proof (rsi_series_length (replicate n c) (Z.to_nat p)) as Hlen.
      cbv zeta in Hlen. rewrite Hlen, length_replicate. lia.
Qed.

(** *** The bands around the moving average *)

Lemma sqrt_floor_nonneg (q : Qc) : 0 ≤ sqrt_floor q.
Proof.
  unfold sqrt_floor. change 0 with (Q2Qc 0%Q). unfold Qcle. cbn [this Q2Qc].
  rewrite !Qred_correct. unfold Qle. simpl.
  pose proof (Z.sqrt_nonneg (Qnum q)). lia.
Qed.

(** X11.  With a square root that is never negative and a multiplier
    [k >= 0], on a column of numbers: where the window holds at least two
    rows and is full, the bands are the numbers [ma - k * std] and
    [ma + k * std] with [std >= 0], so the lower band is at most the moving
    average and the upper band at least; everywhere else (window of one row,
    or not full yet) both bands are NaN. *)
Theorem bands_bracket_the_average (sqrt : Qc → Qc) (data : DataFrame) (column : string)
    (qs : list Qc) (p : Z) (k : Qc) (v : bollinger_locals) :
  (∀ q, 0 ≤ sqrt q) → 0 ≤ k →
  getitem data column = Ok (Num <$> qs) →
  bollinger_compute sqrt data p (Num k) column = Ok v →
  ∀ i, (i < length qs)%nat →
    ((2 ≤ p ≤ Z.of_nat (S i))%Z →
       ∃ m s, ma v !! i = Some (Num m) ∧ Technical.std v !! i = Some (Num s) ∧ 0 ≤ s ∧
         lower v !! i = Some (Num (m - k * s)) ∧ upper v !! i = Some (Num (m + k * s)) ∧
         m - k * s ≤ m ∧ m ≤ m + k * s) ∧
    (¬ (2 ≤ p ≤ Z.of_nat (S i))%Z →
       lower v !! i = Some NaN ∧ upper v !! i = Some NaN).
Proof.
  intros Hsqrt Hk Hcol Hrun i Hi.
  assert (Hp : (0 ≤ p)%Z) by (apply (bollinger_succeeds_iff sqrt data p (Num k) column); eauto).
  destruct (bollinger_on_column sqrt data column _ p (Num k) Hcol Hp)
    as (v0 & Hv0 & _ & Hall & Hnum).
  rewrite Hrun in Hv0. injection Hv0 as <-.
  assert (Hi' : (i < length (Num <$> qs))%nat) by (by rewrite length_fmap).
  destruct (Hall i Hi') as (m & sg & u & l & Hm & Hs & Hu & Hl & -> & -> & _).
  destruct (Hnum qs eq_refl i Hi) as [Hm' Hs'].
  rewrite Hm in Hm'. rewrite Hs in Hs'. injection Hm' as ->. injection Hs' as ->.
  rewrite Hm, Hs, Hu, Hl. unfold rolling_mean, rolling_std. split.
  - intros Hge. rewrite !decide_True by lia.
    set (m := arith_mean _). set (s := sqrt _).
    assert (Hs0 : 0 ≤ s) by apply Hsqrt.
    assert (Hks : 0 ≤ k * s) by (by apply Qcmult_nonneg_nonneg).
    exists m, s. cbn [fmul fadd fsub fneg].
    split; [done|]. split; [done|]. split; [done|]. split; [done|]. split; [done|].
    split.
    + apply Qcle_minus_iff. replace (m + - (m - k * s)) with (k * s) by ring. done.
    + apply Qcle_minus_iff. replace (m + k * s + - m) with (k * s) by ring. done.
  - intros Hlt. rewrite (decide_False (P := (2 ≤ Z.to_nat p ≤ S i)%nat)) by lia.
    destruct (decide (1 ≤ Z.to_nat p ≤ S i)%nat); done.
Qed.

(** *** Missing prices in the exponentially weighted mean *)

Lemma ewm_step_gap (a : Qc) (st : ewm_state) (x : pyfloat) :
  observation x = None → weighted (ewm_step a st x) = weighted st.
Proof. intros Hx. unfold ewm_step. rewrite Hx. by destruct st as [[w|] ow]. Qed.

Lemma ewm_step_started (a : Qc) (st : ewm_state) (x : pyfloat) :
  is_Some (weighted st) → is_Some (weighted (ewm_step a st x)).
Proof.
  intros [w Hw]. unfold ewm_step. rewrite Hw. by destruct (observation x).
Qed.

Lemma ewm_run_gap (a : Qc) (st : ewm_state) (s : Series) (i : nat) (x : pyfloat) :
  s !! S i = Some x → observation x = None →
  ewm_run a st s !! S i = ewm_run a st s !! i.
Proof.
  revert st i. induction s as [|c0 s IH]; intros st i Hx Hgap; [done|].
  cbn [ewm_run]. cbv zeta. destruct i as [|i].
  - destruct s as [|c1 s]; [done|]. injection Hx as ->.
    cbn [ewm_run lookup list_lookup]. cbv zeta. f_equal.
    unfold ewm_out. by rewrite ewm_step_gap.
  - rewrite lookup_cons_Some in Hx. destruct Hx as [[? _]|[_ Hx]]; [lia|].
    replace (S i - 1)%nat with i in Hx by lia.
    etrans; [apply (IH _ i)|]; done.
Qed.

Lemma ewm_run_started (a : Qc) (st : ewm_state) (s : Series) :
  is_Some (weighted st) → Forall (λ y, ∃ q, y = Num q) (ewm_run a st s).
Proof.
  revert st. induction s as [|c0 s IH]; intros st Hst; cbn [ewm_run]; [constructor|].
  cbv zeta. pose proof (ewm_step_started a st c0 Hst) as Hst'. constructor.
  - unfold ewm_out. destruct Hst' as [w ->]. by exists w.
  - by apply IH.
Qed.

Lemma ewm_run_blank (a : Qc) (st : ewm_state) (s : Series) (i : nat) :
  weighted st = None →
  ewm_run a st s !! i = Some NaN
  ↔ (i < length s)%nat ∧ ∀ j x, (j ≤ i)%nat → s !! j = Some x → observation x = None.
Proof.
  revert st i. induction s as [|c0 s IH]; intros st i Hst.
  - split; [done|]. intros [H _]. simpl in H. lia.
  - cbn [ewm_run]. cbv zeta. destruct (observation c0) as [q|] eqn:Hc0.
    + assert (Hst' : weighted (ewm_step a st c0) = Some q).
      { unfold ewm_step. by rewrite Hst, Hc0. }
      split.
      * intros Hnan. exfalso. destruct i as [|i].
        -- cbn in Hnan. unfold ewm_out in Hnan. by rewrite Hst' in Hnan.
        -- cbn in Hnan.
           pose proof (ewm_run_started a (ewm_step a st c0) s) as Hall.
           rewrite Forall_lookup in Hall.
           destruct (Hall (ltac:(by rewrite Hst')) i NaN Hnan) as [? ?]. done.
      * intros [_ Hnone]. specialize (Hnone 0%nat c0 ltac:(lia) eq_refl). congruence.
    + assert (Hst' : weighted (ewm_step a st c0) = None).
      { by rewrite ewm_step_gap. }
      destruct i as [|i].
      * cbn [lookup list_lookup]. unfold ewm_out. rewrite Hst'. split; [|done].
        intros _. split; [simpl; lia|]. intros j x Hj. assert (j = 0)%nat as -> by lia.
        by intros [= <-].
      * change ((ewm_out (ewm_step a st c0) :: ewm_run a (ewm_step a st c0) s) !! S i)
          with (ewm_run a (ewm_step a st c0) s !! i).
        rewrite (IH _ i Hst'). cbn [length]. split.
        -- intros [Hlt Hnone]. split; [lia|]. intros [|j] x Hj Hx.
           ++ by injection Hx as <-.
           ++ apply (Hnone j); [lia|done].
        -- intros [Hlt Hnone]. split; [lia|]. intros j x Hj Hx.
           apply (Hnone (S j)); [lia|done].
Qed.

Lemma ewm_run_no_infinity (a : Qc) (st : ewm_state) (s : Series) :
  Forall (λ y, y = NaN ∨ ∃ q, y = Num q) (ewm_run a st s).
Proof.
  revert st. induction s as [|c0 s IH]; intros st; cbn [ewm_run]; [constructor|].
  cbv zeta. constructor; [|apply IH].
  unfold ewm_out. destruct (weighted _) as [w|]; [right; by exists w|by left].
Qed.

(** X12.  On any column, NaN and infinite prices included, the EMA is NaN
    exactly at the rows before the first number of the column; from that row
    on it is always a number, and at a row whose price is missing (NaN or
    infinite) it repeats the value of the row before.  It is never infinite. *)
Theorem ema_carries_over_gaps (data : DataFrame) (column : string) (s out : Series)
    (p : Z) :
  getitem data column = Ok s →
  ema data p column = Ok out →
  (∀ i, out !! i = Some NaN
        ↔ (i < length s)%nat
          ∧ ∀ j x, (j ≤ i)%nat → s !! j = Some x → observation x = None) ∧
  (∀ i x, s !! S i = Some x → observation x = None → out !! S i = out !! i) ∧
  (∀ i y, out !! i = Some y → y = NaN ∨ ∃ q, y = Num q).
Proof.
  intros Hcol Hrun.
  assert (Hp : (1 ≤ p)%Z) by (apply (ema_succeeds_iff data p column); eauto).
  unfold ema in Hrun. rewrite Hcol in Hrun. cbn [mbind result_bind rbind] in Hrun.
  rewrite ewm_valid in Hrun by done.
  cbn [mbind result_bind rbind mret result_ret] in Hrun. injection Hrun as <-.
  unfold ewm_mean. cbn [alpha ewm_obj]. split; [|split].
  - intros i. by apply ewm_run_blank.
  - intros i x Hx Hgap. by apply (ewm_run_gap _ _ _ _ x).
  - intros i y Hy. pose proof (ewm_run_no_infinity (alpha_of p) (mkSt None 1) s) as Hall.
    rewrite Forall_lookup in Hall. by apply (Hall i).
Qed.

(** *** The chart constructors *)

Lemma given_Some (x : option string) (c : string) : given x = Some c ↔ named x c.
Proof.
  unfold given, named. destruct x as [s|]; [|by split; [|intros [? ?]]].
  destruct (decide (s = "")) as [->|Hs].
  - split; [done|]. by intros [[= <-] ?].
  - split; [by intros [= <-]|]. by intros [[= <-] ?].
Qed.

Lemma given_None (x : option string) : given x = None ↔ ∀ c, ¬ named x c.
Proof.
  split.
  - intros Hx c Hc%given_Some. congruence.
  - intros Hx. destruct (given x) as [c|] eqn:Hc; [|done].
    by destruct (Hx c); apply given_Some.
Qed.

Lemma getitem_missing (data : DataFrame) (c : string) :
  c ∉ column_names data → getitem data c = Raise (KeyError c).
Proof.
  intros Hc. unfold getitem.
  destruct (assoc c (columns data)) as [s|] eqn:Hs; [|done].
  destruct Hc. apply assoc_is_Some. by eexists.
Qed.

Lemma getitem_present (data : DataFrame) (c : string) :
  c ∈ column_names data → ∃ s, getitem data c = Ok s.
Proof. intros Hc. by apply getitem_succeeds_iff. Qed.

Lemma x_values_usable (data : DataFrame) (x : option string) :
  usable data x →
  ∃ xs, x_values data x = Returned xs ∧
    (∀ c s, named x c → getitem data c = Ok s → xs = VSeries s) ∧
    ((∀ c, ¬ named x c) → xs = VInts (index data)).
Proof.
  intros Hx. unfold x_values. destruct (given x) as [c|] eqn:Hc.
  - apply given_Some in Hc. destruct (getitem_present data c (Hx c Hc)) as [s Hs].
    rewrite Hs. exists (VSeries s). split; [done|]. split.
    + intros c' s' Hc' Hs'. destruct Hc as [Hc _], Hc' as [Hc' _].
      rewrite Hc in Hc'. injection Hc' as <-. congruence.
    + intros Hn. by destruct (Hn c).
  - exists (VInts (index data)). split; [done|]. split; [|done].
    intros c s Hc'%given_Some. congruence.
Qed.

Lemma x_values_missing (data : DataFrame) (x : option string) (c : string) :
  named x c → c ∉ column_names data → x_values data x = Failed (Of (KeyError c)).
Proof.
  intros Hc%given_Some Hmiss. unfold x_values. rewrite Hc.
  by rewrite getitem_missing.
Qed.

Lemma y_values_missing (data : DataFrame) (y : option string) (c : string) :
  named y c → c ∉ column_names data → y_values data y = Failed (Of (KeyError c)).
Proof.
  intros Hc%given_Some Hmiss. unfold y_values. rewrite Hc.
  by rewrite getitem_missing.
Qed.

Lemma y_values_no_columns (data : DataFrame) (y : option string) :
  (∀ c, ¬ named y c) → columns data = [] →
  y_values data y = Failed (IndexError "single positional indexer is out-of-bounds").
Proof.
  intros Hy Hcols. unfold y_values, iloc_first.
  by rewrite (proj2 (given_None y) Hy), Hcols.
Qed.

Lemma y_values_plottable (data : DataFrame) (y : option string) :
  plottable data y →
  ∃ ys name, y_values data y = Returned ys ∧ trace_name data y = Returned name ∧
    (∀ c, named y c → getitem data c = Ok ys ∧ name = c) ∧
    ((∀ c, ¬ named y c) → ∃ rest, columns data = (name, ys) :: rest).
Proof.
  intros [Hy Hfirst]. unfold y_values, trace_name. destruct (given y) as [c|] eqn:Hc.
  - apply given_Some in Hc. destruct (getitem_present data c (Hy c Hc)) as [s Hs].
    rewrite Hs. exists s, c. split; [done|]. split; [done|]. split.
    + intros c' Hc'. destruct Hc as [Hc _], Hc' as [Hc' _].
      rewrite Hc in Hc'. by injection Hc' as <-.
    + intros Hn. by destruct (Hn c).
  - pose proof (proj1 (given_None y) Hc) as Hn. specialize (Hfirst Hn).
    unfold iloc_first, first_column_name, column_names.
    destruct (columns data) as [|[n s] rest]; [done|].
    exists s, n. split; [done|]. split; [done|]. split.
    + intros c Hc'. by destruct (Hn c).
    + intros _. by exists rest.
Qed.

Lemma add_first_trace (t : Trace) :
  add_trace new_figure t None = Ok (mkFigure None [(t, None)] ∅ []).
Proof. done. Qed.

Lemma finish_returned (data : DataFrame) (title : option string) (f : Figure)
    (h : gmap nat Chart) :
  finish data title (Returned f) h
  = (Returned (fresh (dom h)), <[fresh (dom h) := mkChart data title (Some f)]> h).
Proof. unfold finish. by rewrite new_then_set_fig. Qed.

Lemma usable_dec (data : DataFrame) (x : option string) :
  usable data x ∨ ∃ c, named x c ∧ c ∉ column_names data.
Proof.
  destruct (given x) as [c|] eqn:Hc.
  - apply given_Some in Hc. destruct (decide (c ∈ column_names data)) as [Hin|Hout].
    + left. intros c' Hc'. destruct Hc as [Hc _], Hc' as [Hc' _].
      rewrite Hc in Hc'. by injection Hc' as <-.
    + right. by exists c.
  - left. intros c Hc'%given_Some. congruence.
Qed.

Ltac four_runs :=
  apply Forall_cons_2;
    [|apply Forall_cons_2; [|apply Forall_cons_2; [|apply Forall_cons_2; [|apply Forall_nil_2]]]].

Ltac run_constructor :=
  unfold create_line, create_bar, create_area, create_scatter,
    line_figure, bar_figure, area_figure, scatter_figure, marker_color;
  cbv zeta.

(** X13.  [create_line], [create_bar], [create_area] and [create_scatter]
    (without a color column) fail on the same frames with the same
    exception, and leave the store as it was: the KeyError of [x] when [x]
    names a column the frame lacks; else that of [y]; else, when [y] is left
    out and the frame has no column, the IndexError of [data.iloc[:, 0]].
    In every other case all four return a new chart over [data].  The
    IndexError of [data.columns[0]] is never the one raised. *)
Theorem constructors_fail_alike (data : DataFrame) (title x y : option string)
    (h : gmap nat Chart) :
  let runs := [create_line data title x y h; create_bar data title x y h;
               create_area data title x y h; create_scatter data title x y None h] in
  (∀ c, named x c → c ∉ column_names data →
     Forall (λ run, run = (Failed (Of (KeyError c)), h)) runs) ∧
  (∀ c, usable data x → named y c → c ∉ column_names data →
     Forall (λ run, run = (Failed (Of (KeyError c)), h)) runs) ∧
  (usable data x → (∀ c, ¬ named y c) → columns data = [] →
     Forall (λ run,
       run = (Failed (IndexError "single positional indexer is out-of-bounds"), h)) runs) ∧
  (usable data x → plottable data y →
     Forall (λ run, ∃ f,
       run = (Returned (fresh (dom h)),
              <[fresh (dom h) := mkChart data title (Some f)]> h)) runs) ∧
  Forall (λ run,
    run.1 ≠ Failed (IndexError "index 0 is out of bounds for axis 0 with size 0")) runs.
Proof.
  intros runs.
  assert (Hmissing_x : ∀ c, named x c → c ∉ column_names data →
            Forall (λ run, run = (Failed (Of (KeyError c)), h)) runs).
  { intros c Hc Hmiss. unfold runs. four_runs; run_constructor;
      by rewrite (x_values_missing data x c). }
  assert (Hmissing_y : ∀ c, usable data x → named y c → c ∉ column_names data →
            Forall (λ run, run = (Failed (Of (KeyError c)), h)) runs).
  { intros c Hx Hc Hmiss. destruct (x_values_usable data x Hx) as (xs & Hxs & _).
    unfold runs. four_runs; run_constructor;
      by rewrite Hxs, (y_values_missing data y c). }
  assert (Hempty : usable data x → (∀ c, ¬ named y c) → columns data = [] →
            Forall (λ run,
              run = (Failed (IndexError "single positional indexer is out-of-bounds"), h))
              runs).
  { intros Hx Hy Hcols. destruct (x_values_usable data x Hx) as (xs & Hxs & _).
    unfold runs. four_runs; run_constructor;
      by rewrite Hxs, (y_values_no_columns data y). }
  assert (Hreturns : usable data x → plottable data y →
            Forall (λ run, ∃ f,
              run = (Returned (fresh (dom h)),
                     <[fresh (dom h) := mkChart data title (Some f)]> h)) runs).
  { intros Hx Hy. destruct (x_values_usable data x Hx) as (xs & Hxs & _).
    destruct (y_values_plottable data y Hy) as (ys & name & Hys & Hname & _).
    unfold runs. four_runs; run_constructor; rewrite Hxs, Hys, Hname;
      cbn [mbind outcome_bind mret outcome_ret given]; rewrite add_first_trace;
      cbn [of_result mbind outcome_bind mret outcome_ret]; rewrite finish_returned;
      by eexists. }
  split; [done|]. split; [done|]. split; [done|]. split; [done|].
  destruct (usable_dec data x) as [Hx|(c & Hc & Hmiss)].
  - destruct (usable_dec data y) as [Hy|(c & Hc & Hmiss)].
    + destruct (given y) as [cy|] eqn:Hgy.
      * assert (Hplot : plottable data y).
        { split; [done|]. intros Hn. apply given_Some in Hgy. by destruct (Hn cy). }
        eapply Forall_impl; [exact (Hreturns Hx Hplot)|]. by intros run [f ->].
      * pose proof (proj1 (given_None y) Hgy) as Hn.
        destruct (columns data) as [|col rest] eqn:Hcols.
        -- eapply Forall_impl; [exact (Hempty Hx Hn eq_refl)|]. by intros run ->.
        -- assert (Hplot : plottable data y).
           { split; [done|]. intros _. by rewrite Hcols. }
           eapply Forall_impl; [exact (Hreturns Hx Hplot)|]. by intros run [f ->].
    + eapply Forall_impl; [exact (Hmissing_y c Hx Hc Hmiss)|]. by intros run ->.
  - eapply Forall_impl; [exact (Hmissing_x c Hc Hmiss)|]. by intros run ->.
Qed.

(** *** Keyword arguments *)

Lemma set_props_cons (kv : string * option value) (kw : kwargs) (m : gmap string value) :
  set_props (kv :: kw) m
  = set_props kw (match kv.2 with Some v => <[kv.1 := v]> m | None => delete kv.1 m end).
Proof. done. Qed.

Lemma set_props_lookup (kw : kwargs) (m : gmap string value) (k : string) :
  set_props kw m !! k = match last_bound k kw with Some o => o | None => m !! k end.
Proof.
  revert m. induction kw as [|[k' o] kw IH]; intros m; [done|].
  rewrite set_props_cons, IH. cbn [last_bound fst snd].
  destruct (last_bound k kw) as [o'|]; [done|].
  destruct (decide (k' = k)) as [->|Hne].
  - destruct o as [v|]; [by rewrite lookup_insert_eq|by rewrite lookup_delete_eq].
  - destruct o as [v|]; [by rewrite lookup_insert_ne|by rewrite lookup_delete_ne].
Qed.

Lemma last_bound_None (k : string) (kw : kwargs) :
  last_bound k kw = None ↔ k ∉ keys kw.
Proof.
  unfold keys. induction kw as [|[k' o] kw IH]; cbn [last_bound fmap list_fmap fst].
  - split; [intros _; apply not_elem_of_nil|done].
  - rewrite not_elem_of_cons. destruct (last_bound k kw) as [o'|].
    + split; [done|]. intros [_ H]. by apply IH in H.
    + destruct (decide (k' = k)) as [->|Hne].
      * split; [done|]. by intros [? _].
      * split; [|done]. intros _. split; [done|]. by apply IH.
Qed.

(** X14.  When the column arguments can be used, the four constructors draw
    the same data: one trace outside any grid whose [x] is the column [x]
    (the row labels when [x] is left out or empty), whose [y] is the column
    [y] (the first column of the frame when [y] is left out) and whose name
    is that column's name.  They differ in the trace only: a Scatter in mode
    lines, a Bar, a Scatter filled to zero, a Scatter in mode markers.  The
    layout carries the title and the axis titles exactly as passed. *)
Theorem constructed_chart_contents (data : DataFrame) (title x y : option string)
    (h : gmap nat Chart) :
  usable data x → plottable data y →
  ∃ (xs : value) (ys : Series) (name : string),
    (∀ c s, named x c → getitem data c = Ok s → xs = VSeries s) ∧
    ((∀ c, ¬ named x c) → xs = VInts (index data)) ∧
    (∀ c, named y c → getitem data c = Ok ys ∧ name = c) ∧
    ((∀ c, ¬ named y c) → ∃ rest, columns data = (name, ys) :: rest) ∧
    let drawn run knd mode fill :=
      ∃ f t,
        run = (Returned (fresh (dom h)),
               <[fresh (dom h) := mkChart data title (Some f)]> h) ∧
        grid f = None ∧ traces f = [(t, None)] ∧ kind t = knd ∧
        props t !! "x" = Some xs ∧ props t !! "y" = Some (VSeries ys) ∧
        props t !! "name" = Some (VStr name) ∧
        props t !! "mode" = VStr <$> mode ∧ props t !! "fill" = VStr <$> fill ∧
        layout f !! "title" = VStr <$> title ∧
        layout f !! "xaxis.title" = VStr <$> x ∧
        layout f !! "yaxis.title" = VStr <$> y in
    drawn (create_line data title x y h) Scatter (Some "lines") None ∧
    drawn (create_bar data title x y h) Bar None None ∧
    drawn (create_area data title x y h) Scatter None (Some "tozeroy") ∧
    drawn (create_scatter data title x y None h) Scatter (Some "markers") None.
Proof.
  intros Hx Hy.
  destruct (x_values_usable data x Hx) as (xs & Hxs & Hx1 & Hx2).
  destruct (y_values_plottable data y Hy) as (ys & name & Hys & Hname & Hy1 & Hy2).
  exists xs, ys, name.
  split; [done|]. split; [done|]. split; [done|]. split; [done|]. cbv zeta.
  split; [|split; [|split]]; run_constructor; rewrite Hxs, Hys, Hname;
    cbn [mbind outcome_bind mret outcome_ret given]; rewrite add_first_trace;
    cbn [of_result mbind outcome_bind mret outcome_ret]; rewrite finish_returned;
    eexists _, _; (split; [reflexivity|]);
    unfold titled, update_layout, new_trace; cbn [grid traces layout];
    (split; [reflexivity|]); (split; [reflexivity|]); cbn [kind props];
    (split; [reflexivity|]); rewrite !set_props_lookup; cbn;
    repeat split; reflexivity.
Qed.

(** X15.  The color column of [create_scatter] is read after [x] and [y]:
    with usable [x] and [y], a color column the frame lacks raises its
    KeyError and leaves the store as it was; a color column the frame has
    becomes the marker color, with the color scale shown; without a color
    column (left out or empty) the marker has no color and the scale is
    hidden.  The Viridis scale is set in both cases. *)
Theorem scatter_color_column (data : DataFrame) (title x y color : option string)
    (h : gmap nat Chart) :
  usable data x → plottable data y →
  let run := create_scatter data title x y color h in
  let drawn col shown :=
    ∃ f t,
      run = (Returned (fresh (dom h)),
             <[fresh (dom h) := mkChart data title (Some f)]> h) ∧
      traces f = [(t, None)] ∧ kind t = Scatter ∧
      props t !! "mode" = Some (VStr "markers") ∧
      props t !! "marker.color" = col ∧
      props t !! "marker.colorscale" = Some (VStr "Viridis") ∧
      props t !! "marker.showscale" = Some (VBool shown) in
  (∀ c, named color c → c ∉ column_names data → run = (Failed (Of (KeyError c)), h)) ∧
  (∀ c s, named color c → getitem data c = Ok s → drawn (Some (VSeries s)) true) ∧
  ((∀ c, ¬ named color c) → drawn None false).
Proof.
  intros Hx Hy run drawn.
  destruct (x_values_usable data x Hx) as (xs & Hxs & _).
  destruct (y_values_plottable data y Hy) as (ys & name & Hys & Hname & _).
  unfold drawn, run. clear drawn run. split; [|split].
  - intros c Hc%given_Some Hmiss. run_constructor. rewrite Hxs, Hys, Hc.
    cbn [mbind outcome_bind]. by rewrite getitem_missing.
  - intros c s Hc%given_Some Hs. run_constructor. rewrite Hxs, Hys, Hname, Hc, Hs.
    cbn [mbind outcome_bind mret outcome_ret of_result]. rewrite add_first_trace.
    cbn [of_result mbind outcome_bind mret outcome_ret]. rewrite finish_returned.
    eexists _, _. split; [reflexivity|].
    unfold titled, update_layout, new_trace. cbn [traces].
    split; [reflexivity|]. cbn [kind props]. split; [reflexivity|].
    rewrite !set_props_lookup. cbn. repeat split; reflexivity.
  - intros Hn. pose proof (proj2 (given_None color) Hn) as Hc.
    run_constructor. rewrite Hxs, Hys, Hname, Hc.
    cbn [mbind outcome_bind mret outcome_ret of_result]. rewrite add_first_trace.
    cbn [of_result mbind outcome_bind mret outcome_ret]. rewrite finish_returned.
    eexists _, _. split; [reflexivity|].
    unfold titled, update_layout, new_trace. cbn [traces].
    split; [reflexivity|]. cbn [kind props]. split; [reflexivity|].
    rewrite !set_props_lookup. cbn. repeat split; reflexivity.
Qed.

(** *** Actual against predicted values *)

Lemma predictions_figure_built (sqrt : Qc → Qc) (data : DataFrame)
    (actual predicted : string) (title : option string) (a p : Series) :
  getitem data actual = Ok a → getitem data predicted = Ok p →
  ∃ f t1 t2 t3 t4,
    predictions_figure sqrt data actual predicted title = Ok f ∧
    grid f = None ∧
    traces f = [(t1, None); (t2, None); (t3, None); (t4, None)] ∧
    t1 = new_trace Scatter
           [("x", Some (VInts (index data))); ("y", Some (VSeries a));
            ("name", Some (VStr "Actual")); ("mode", Some (VStr "lines"));
            ("line.width", Some (VInt 2))] ∧
    t2 = new_trace Scatter
           [("x", Some (VInts (index data))); ("y", Some (VSeries p));
            ("name", Some (VStr "Predicted")); ("mode", Some (VStr "lines"));
            ("line.width", Some (VInt 2)); ("line.dash", Some (VStr "dash"))] ∧
    t3 = new_trace Scatter
           [("x", Some (VInts (index data)));
            ("y", Some (VSeries (add_scalar p (series_std sqrt (sub a p)))));
            ("fill", None); ("mode", Some (VStr "lines"));
            ("line.color", Some (VStr band_color));
            ("name", Some (VStr "Error Band"))] ∧
    t4 = new_trace Scatter
           [("x", Some (VInts (index data)));
            ("y", Some (VSeries (sub_scalar p (series_std sqrt (sub a p)))));
            ("fill", Some (VStr "tonexty")); ("mode", Some (VStr "lines"));
            ("line.color", Some (VStr band_color));
            ("name", Some (VStr "Error Band"))] ∧
    layout f
    = set_props [("title", Some (VStr (title_or title "Actual vs Predicted Values")));
                 ("xaxis.title", Some (VStr "Time"));
                 ("yaxis.title", Some (VStr "Value"));
                 ("showlegend", Some (VBool true))] ∅.
Proof.
  intros Ha Hp. unfold predictions_figure. cbv zeta. rewrite Ha.
  cbn [mbind result_bind rbind]. unfold add_trace at 1.
  cbn [check_cell mbind result_bind rbind]. rewrite Hp.
  cbn [mbind result_bind rbind]. unfold add_trace at 1.
  cbn [check_cell mbind result_bind rbind]. unfold add_trace at 1.
  cbn [check_cell mbind result_bind rbind]. unfold add_trace at 1.
  cbn [check_cell mbind result_bind rbind mret result_ret].
  eexists _, _, _, _, _. split; [reflexivity|].
  unfold update_layout. cbn [grid traces layout new_figure app].
  repeat split; reflexivity.
Qed.

(** X16.  [plot_predictions] needs both columns and asks for the actual one
    first: without it the KeyError names [actual], whether or not
    [predicted] exists; with it and without [predicted] the KeyError names
    [predicted]; in both cases no chart is stored.  With both columns it
    returns a new chart over [data] holding four line traces outside any
    grid, named Actual, Predicted, Error Band and Error Band, under the
    given title or, when the title is left out or empty, the default one. *)
Theorem plot_predictions_needs_both_columns (sqrt : Qc → Qc) (data : DataFrame)
    (actual predicted : string) (title : option string) (h : gmap nat Chart) :
  let run := plot_predictions sqrt data actual predicted title h in
  (actual ∉ column_names data → run = (Raise (KeyError actual), h)) ∧
  (actual ∈ column_names data → predicted ∉ column_names data →
     run = (Raise (KeyError predicted), h)) ∧
  (actual ∈ column_names data → predicted ∈ column_names data →
     ∃ f, run = (Ok (fresh (dom h)), <[fresh (dom h) := mkChart data title (Some f)]> h) ∧
       grid f = None ∧
       (λ tc : Trace * option (nat * nat),
          (kind tc.1, props tc.1 !! "name", props tc.1 !! "mode", tc.2)) <$> traces f
       = [(Scatter, Some (VStr "Actual"), Some (VStr "lines"), None);
          (Scatter, Some (VStr "Predicted"), Some (VStr "lines"), None);
          (Scatter, Some (VStr "Error Band"), Some (VStr "lines"), None);
          (Scatter, Some (VStr "Error Band"), Some (VStr "lines"), None)] ∧
       (∀ t, named title t → layout f !! "title" = Some (VStr t)) ∧
       ((∀ t, ¬ named title t) →
          layout f !! "title" = Some (VStr "Actual vs Predicted Values"))).
Proof.
  intros run. unfold run, plot_predictions. split; [|split].
  - intros Ha. unfold mbind at 1. unfold M_bind at 1. unfold lift at 1.
    unfold predictions_figure. by rewrite (getitem_missing data actual Ha).
  - intros [a Ha]%getitem_present Hp.
    unfold mbind at 1. unfold M_bind at 1. unfold lift at 1.
    unfold predictions_figure. cbv zeta. rewrite Ha.
    cbn [mbind result_bind rbind]. unfold add_trace at 1.
    cbn [check_cell mbind result_bind rbind].
    by rewrite (getitem_missing data predicted Hp).
  - intros [a Ha]%getitem_present [p Hp]%getitem_present.
    destruct (predictions_figure_built sqrt data actual predicted title a p Ha Hp)
      as (f & t1 & t2 & t3 & t4 & Hf & Hgrid & Htraces & -> & -> & -> & -> & Hlayout).
    exists f. split.
    { unfold mbind at 1. unfold M_bind at 1. unfold lift at 1. rewrite Hf.
      apply new_then_set_fig. }
    split; [done|]. split.
    { rewrite Htraces. cbn [fmap list_fmap fst snd kind new_trace props].
      rewrite !set_props_lookup. reflexivity. }
    assert (Htitle : layout f !! "title"
                     = Some (VStr (title_or title "Actual vs Predicted Values"))).
    { rewrite Hlayout, set_props_lookup. reflexivity. }
    rewrite Htitle. unfold title_or, named. split.
    + intros t [-> Ht]. by rewrite decide_False.
    + intros Hn. destruct title as [t|]; [|done].
      destruct (decide (t = "")) as [->|Ht]; [done|]. by destruct (Hn t).
Qed.

Lemma existsb_is_inf (s : Series) :
  existsb is_inf s = true ↔ Exists (λ e, e = PInf ∨ e = NInf) s.
Proof.
  induction s as [|x s IH]; cbn [existsb].
  - split; [done|]. by intros ?%Exists_nil.
  - rewrite Exists_cons, orb_true_iff, IH.
    assert (Hx : is_inf x = true ↔ x = PInf ∨ x = NInf).
    { destruct x; cbn; split; intros H; try done; try (by destruct H); auto. }
    by rewrite Hx.
Qed.

Lemma var_of_sample (obs : list Qc) :
  (2 ≤ length obs)%nat → var_of obs = Num (sample_var obs).
Proof. intros Hn. unfold var_of. cbv zeta. by rewrite decide_False by lia. Qed.

Lemma series_std_cases (sqrt : Qc → Qc) (s : Series) :
  ((Exists (λ e, e = PInf ∨ e = NInf) s ∨ (length (observations s) ≤ 1)%nat) →
     series_std sqrt s = NaN) ∧
  (Forall (λ e, e ≠ PInf ∧ e ≠ NInf) s → (2 ≤ length (observations s))%nat →
     series_std sqrt s = Num (sqrt (sample_var (observations s)))).
Proof.
  unfold series_std. split.
  - intros [Hinf|Hshort].
    + apply existsb_is_inf in Hinf. by rewrite Hinf.
    + destruct (existsb is_inf s); [done|]. by apply std_of_short.
  - intros Hfin Hlen. destruct (existsb is_inf s) eqn:Hinf.
    + apply existsb_is_inf in Hinf. apply Exists_exists in Hinf as (x & Hin & Hx).
      rewrite Forall_forall in Hfin. destruct (Hfin x Hin) as [H1 H2].
      by destruct Hx.
    + unfold std_of. by rewrite var_of_sample.
Qed.

(** X17.  The error band of [plot_predictions] is the predicted series
    moved up and down by one number, the sample standard deviation [sigma]
    of the errors [actual - predicted] (NaN errors left out): both band
    series have one entry per row; wherever both are numbers they lie at
    [predicted + sigma] and [predicted - sigma], so the band has the same
    width at every row.  When an error is infinite, or fewer than two errors
    are numbers, [sigma] is NaN and both bands are NaN at every row. *)
Theorem error_band_around_prediction (sqrt : Qc → Qc) (data : DataFrame)
    (actual predicted : string) (title : option string) (h : gmap nat Chart)
    (a p : Series) :
  getitem data actual = Ok a → getitem data predicted = Ok p →
  ∃ f up lo sigma,
    plot_predictions sqrt data actual predicted title h
    = (Ok (fresh (dom h)), <[fresh (dom h) := mkChart data title (Some f)]> h) ∧
    plotted f = [Some (VSeries a); Some (VSeries p); Some (VSeries up); Some (VSeries lo)] ∧
    length up = length p ∧ length lo = length p ∧
    (∀ i q, p !! i = Some q →
       up !! i = Some (fadd q sigma) ∧ lo !! i = Some (fsub q sigma)) ∧
    (∀ i u l, up !! i = Some (Num u) → lo !! i = Some (Num l) →
       ∃ q s, p !! i = Some (Num q) ∧ sigma = Num s ∧ u = q + s ∧ l = q - s) ∧
    let errors := sub a p in
    ((Exists (λ e, e = PInf ∨ e = NInf) errors ∨ (length (observations errors) ≤ 1)%nat) →
       sigma = NaN ∧ up = replicate (length p) NaN ∧ lo = replicate (length p) NaN) ∧
    (Forall (λ e, e ≠ PInf ∧ e ≠ NInf) errors → (2 ≤ length (observations errors))%nat →
       sigma = Num (sqrt (sample_var (observations errors)))).
Proof.
  intros Ha Hp.
  destruct (predictions_figure_built sqrt data actual predicted title a p Ha Hp)
    as (f & t1 & t2 & t3 & t4 & Hf & Hgrid & Htraces & -> & -> & -> & -> & Hlayout).
  set (sigma := series_std sqrt (sub a p)) in *.
  exists f, (add_scalar p sigma), (sub_scalar p sigma), sigma.
  split.
  { unfold plot_predictions.
    unfold mbind at 1. unfold M_bind at 1. unfold lift at 1. rewrite Hf.
    apply new_then_set_fig. }
  split.
  { unfold plotted. rewrite Htraces. cbn [fmap list_fmap fst new_trace props].
    rewrite !set_props_lookup. reflexivity. }
  unfold add_scalar, sub_scalar. rewrite !length_fmap.
  split; [done|]. split; [done|]. split.
  { intros i q Hq. by rewrite !list_lookup_fmap, Hq. }
  split.
  { intros i u l. rewrite !list_lookup_fmap.
    destruct (p !! i) as [q|]; [|done]. cbn [fmap option_fmap option_map].
    intros [= Hu] [= Hl]. destruct q as [q| | |], sigma as [s| | |]; try done.
    exists q, s. cbn in Hu, Hl. injection Hu as <-. injection Hl as <-. done. }
  cbv zeta. destruct (series_std_cases sqrt (sub a p)) as [Hnan Hnum]. split.
  - intros Hbad. fold sigma in Hnan. rewrite (Hnan Hbad).
    split; [done|]. split; apply list_eq; intros i; rewrite list_lookup_fmap;
      destruct (p !! i) as [q|] eqn:Hq.
    + rewrite lookup_replicate_2 by (by eapply lookup_lt_Some). by destruct q.
    + rewrite (proj1 (lookup_replicate_None _ _ _)); [done|].
      by apply lookup_ge_None.
    + rewrite lookup_replicate_2 by (by eapply lookup_lt_Some). by destruct q.
    + rewrite (proj1 (lookup_replicate_None _ _ _)); [done|].
      by apply lookup_ge_None.
  - intros Hfin Hlen. by apply Hnum.
Qed.

(** *** The example application *)

Lemma candlestick_missing_column (data : DataFrame) (title : option string)
    (volume : bool) (indicators : option (list string)) (h : gmap nat Chart) :
  ¬ Forall (λ c, c ∈ column_names data) ["Open"; "High"; "Low"; "Close"] →
  ∃ c, c ∈ ["Open"; "High"; "Low"; "Close"] ∧ (c ∉ column_names data) ∧
    create_candlestick data title volume indicators h = (Raise (KeyError c), h).
Proof.
  intros Hnot. unfold create_candlestick.
  unfold mbind at 1. unfold M_bind at 1. unfold lift at 1.
  unfold candlestick_figure.
  assert (Hgrid : ∃ f, make_subplots (if volume then 2%nat else 1%nat) 1 true
                         (Qc_of_Z 3 / Qc_of_Z 100)
                         (if volume then [Qc_of_Z 7 / Qc_of_Z 10; Qc_of_Z 3 / Qc_of_Z 10]
                          else [1]) = Ok f).
  { destruct volume; by eexists. }
  destruct Hgrid as [f0 Hf0]. cbv zeta. rewrite Hf0. cbn [mbind result_bind rbind].
  destruct (decide ("Open" ∈ column_names data)) as [[o Ho]%getitem_present|Ho].
  2: { exists "Open". rewrite (getitem_missing _ _ Ho). split; [set_solver|done]. }
  rewrite Ho. cbn [mbind result_bind rbind].
  destruct (decide ("High" ∈ column_names data)) as [[hi Hhi]%getitem_present|Hhi].
  2: { exists "High". rewrite (getitem_missing _ _ Hhi). split; [set_solver|done]. }
  rewrite Hhi. cbn [mbind result_bind rbind].
  destruct (decide ("Low" ∈ column_names data)) as [[lo Hlo]%getitem_present|Hlo].
  2: { exists "Low". rewrite (getitem_missing _ _ Hlo). split; [set_solver|done]. }
  rewrite Hlo. cbn [mbind result_bind rbind].
  destruct (decide ("Close" ∈ column_names data)) as [[cl Hcl]%getitem_present|Hcl].
  2: { exists "Close". rewrite (getitem_missing _ _ Hcl). split; [set_solver|done]. }
  destruct Hnot. repeat constructor; apply getitem_succeeds_iff; eauto.
Qed.

(** X18.  The chart section of the example never gets to show or save a
    chart.  On a frame with the four price columns it builds the candlestick
    chart and then stops in [add_sma] with the NameError for [go], leaving
    in the store the candlestick chart as [create_candlestick] made it, with
    no indicator on it.  On a frame that lacks one of them it stops in
    [create_candlestick] with a KeyError and stores no chart. *)
Theorem example_stops_at_first_indicator (data : DataFrame) (h : gmap nat Chart) :
  let title := Some "Apple Inc. (AAPL) Stock Price" in
  let prices := ["Open"; "High"; "Low"; "Close"] in
  (∀ out h', main_charts data h ≠ (Ok out, h')) ∧
  (Forall (λ c, c ∈ column_names data) prices →
     ∃ f, create_candlestick data title true None h
          = (Ok (fresh (dom h)), <[fresh (dom h) := mkChart data title (Some f)]> h) ∧
          main_charts data h
          = (Raise (NameError "go"), <[fresh (dom h) := mkChart data title (Some f)]> h)) ∧
  (¬ Forall (λ c, c ∈ column_names data) prices →
     ∃ c, c ∈ prices ∧ (c ∉ column_names data) ∧
          main_charts data h = (Raise (KeyError c), h)).
Proof.
  intros title prices.
  assert (Hgood : Forall (λ c, c ∈ column_names data) prices →
     ∃ f, create_candlestick data title true None h
          = (Ok (fresh (dom h)), <[fresh (dom h) := mkChart data title (Some f)]> h) ∧
          main_charts data h
          = (Raise (NameError "go"), <[fresh (dom h) := mkChart data title (Some f)]> h)).
  { intros Hall. unfold prices in Hall.
    apply Forall_cons in Hall as [[o Ho]%getitem_present Hall].
    apply Forall_cons in Hall as [[hi Hhi]%getitem_present Hall].
    apply Forall_cons in Hall as [[lo Hlo]%getitem_present Hall].
    apply Forall_cons in Hall as [[cl Hcl]%getitem_present _].
    destruct (candlestick_on_prices data title true None h o hi lo cl Ho Hhi Hlo Hcl)
      as (f & g & Hmade & _).
    exists f. split; [exact Hmade|]. unfold main_charts. unfold title in Hmade |- *.
    unfold mbind at 1. unfold M_bind at 1. rewrite Hmade.
    unfold mbind at 1. unfold M_bind at 1.
    rewrite (add_sma_with_figure _ _ (mkChart data title (Some f)) f)
      by (by rewrite ?lookup_insert_eq).
    cbn [Base.data]. rewrite (sma_runs data "Close" cl 20 Hcl) by lia. done. }
  assert (Hbad : ¬ Forall (λ c, c ∈ column_names data) prices →
     ∃ c, c ∈ prices ∧ (c ∉ column_names data) ∧
          main_charts data h = (Raise (KeyError c), h)).
  { intros Hnot.
    destruct (candlestick_missing_column data title true None h Hnot)
      as (c & Hc & Hmiss & Hrun).
    exists c. split; [done|]. split; [done|]. unfold main_charts. unfold title in Hrun.
    unfold mbind at 1. unfold M_bind at 1. by rewrite Hrun. }
  split; [|by split].
  intros out h' Hrun.
  destruct (decide (Forall (λ c, c ∈ column_names data) prices)) as [Hall|Hnot].
  - destruct (Hgood Hall) as (f & _ & Hstop). congruence.
  - destruct (Hbad Hnot) as (c & _ & _ & Hstop). congruence.
Qed.

(** *** The interactive features *)

Lemma last_bound_Some_key (k : string) (kw : kwargs) (o : option value) :
  last_bound k kw = Some o → k ∈ keys kw.
Proof.
  intros H. destruct (decide (k ∈ keys kw)) as [|Hout]; [done|].
  apply last_bound_None in Hout. congruence.
Qed.

Lemma last_bound_uniform (k : string) (kw : kwargs) (o : option value) :
  Forall (λ kv, kv.2 = o) kw → k ∈ keys kw → last_bound k kw = Some o.
Proof.
  unfold keys. induction 1 as [|[k' o'] kw Ho _ IH]; cbn [fmap list_fmap fst last_bound].
  - by intros ?%elem_of_nil.
  - intros Hin. cbn in Ho. subst o'.
    destruct (decide (k ∈ kw.*1)) as [Hk|Hk].
    + by rewrite (IH Hk).
    + rewrite (proj2 (last_bound_None k kw) Hk).
      apply elem_of_cons in Hin as [->|Hin]; [|done]. by rewrite decide_True.
Qed.

Lemma set_props_twice (kw : kwargs) (m : gmap string value) :
  set_props kw (set_props kw m) = set_props kw m.
Proof.
  apply map_eq. intros k. rewrite !set_props_lookup.
  by destruct (last_bound k kw).
Qed.

Lemma set_props_swap (kw1 kw2 : kwargs) (m : gmap string value) :
  (∀ k, k ∈ keys kw1 → k ∉ keys kw2) →
  set_props kw1 (set_props kw2 m) = set_props kw2 (set_props kw1 m).
Proof.
  intros Hdisj. apply map_eq. intros k. rewrite !set_props_lookup.
  destruct (last_bound k kw1) as [o1|] eqn:H1; [|done].
  destruct (last_bound k kw2) as [o2|] eqn:H2; [|done].
  apply last_bound_Some_key in H1, H2. by destruct (Hdisj k).
Qed.

(** The keyword arguments [update_xaxes] hands to the layout. *)
Lemma slider_keys (f : Figure) (k : string) :
  k ∈ keys (ax ← xaxes f;
            (λ kv : string * option value, (ax +:+ "." +:+ kv.1, kv.2))
              <$> [("rangeslider.visible", Some (VBool true))])
  ↔ ∃ ax, ax ∈ xaxes f ∧ k = ax +:+ "." +:+ "rangeslider.visible".
Proof.
  unfold keys. rewrite list_elem_of_fmap. split.
  - intros ([k' o] & -> & Hin). apply list_elem_of_bind in Hin as (ax & Hin & Hax).
    apply list_elem_of_fmap in Hin as (kv & [= -> ->] & Hkv).
    apply list_elem_of_singleton in Hkv as ->. by exists ax.
  - intros (ax & Hax & ->).
    exists (ax +:+ "." +:+ "rangeslider.visible", Some (VBool true)).
    split; [reflexivity|].
    apply list_elem_of_bind. exists ax. split; [|done].
    apply list_elem_of_fmap. exists ("rangeslider.visible", Some (VBool true)).
    split; [reflexivity|]. by apply list_elem_of_singleton.
Qed.

Lemma slider_values (f : Figure) :
  Forall (λ kv : string * option value, kv.2 = Some (VBool true))
    (ax ← xaxes f;
     (λ kv : string * option value, (ax +:+ "." +:+ kv.1, kv.2))
       <$> [("rangeslider.visible", Some (VBool true))]).
Proof.
  apply Forall_forall. intros [k o] Hin.
  apply list_elem_of_bind in Hin as (ax & Hin & Hax).
  apply list_elem_of_fmap in Hin as (kv & [= -> ->] & Hkv).
  by apply list_elem_of_singleton in Hkv as ->.
Qed.

Lemma axis_name_starts_with_x (i : nat) : ∃ rest, axis_name i = "x" +:+ rest.
Proof. unfold axis_name. destruct (decide (i = 1)%nat); by eexists. Qed.

Lemma xaxes_start_with_x (f : Figure) (ax : string) :
  ax ∈ xaxes f → ∃ rest, ax = "x" +:+ rest.
Proof.
  unfold xaxes. destruct (grid f) as [g|].
  - intros (i & -> & _)%list_elem_of_fmap. apply axis_name_starts_with_x.
  - intros ->%list_elem_of_singleton. by eexists.
Qed.

Lemma add_range_slider_run (self : nat) (h : gmap nat Chart) (c : Chart) (f : Figure) :
  h !! self = Some c → fig c = Some f →
  add_range_slider self h
  = (Ok self,
     <[self := mkChart (data c) (title c)
                 (Some (update_xaxes f [("rangeslider.visible", Some (VBool true))]))]> h).
Proof.
  intros Hc Hf. unfold add_range_slider.
  unfold mbind at 1. unfold M_bind at 1. unfold load. rewrite Hc, Hf.
  unfold mbind, M_bind, set_fig. by rewrite Hc.
Qed.

Lemma add_zoom_pan_run (self : nat) (h : gmap nat Chart) (c : Chart) (f : Figure) :
  h !! self = Some c → fig c = Some f →
  add_zoom_pan self h
  = (Ok self,
     <[self := mkChart (data c) (title c)
                 (Some (update_layout f
                          [("dragmode", Some (VStr "zoom"));
                           ("modebar.add",
                            Some (VStrs ["zoom"; "pan"; "zoomIn"; "zoomOut"; "resetScale"]))]))]>
       h).
Proof.
  intros Hc Hf. unfold add_zoom_pan.
  unfold mbind at 1. unfold M_bind at 1. unfold load. rewrite Hc, Hf.
  unfold mbind, M_bind, set_fig. by rewrite Hc.
Qed.


Lemma update_xaxes_twice (f : Figure) (kw : kwargs) :
  update_xaxes (update_xaxes f kw) kw = update_xaxes f kw.
Proof.
  unfold update_xaxes, update_layout, xaxes. cbn [grid traces layout shapes].
  by rewrite set_props_twice.
Qed.

Lemma update_layout_twice (f : Figure) (kw : kwargs) :
  update_layout (update_layout f kw) kw = update_layout f kw.
Proof.
  unfold update_layout. cbn [grid traces layout shapes]. by rewrite set_props_twice.
Qed.

Lemma slider_then_zoom (f : Figure) :
  let slider := [("rangeslider.visible", Some (VBool true))] in
  let zoom := [("dragmode", Some (VStr "zoom"));
               ("modebar.add",
                Some (VStrs ["zoom"; "pan"; "zoomIn"; "zoomOut"; "resetScale"]))] in
  update_layout (update_xaxes f slider) zoom = update_xaxes (update_layout f zoom) slider.
Proof.
  intros slider zoom. unfold update_xaxes, update_layout, xaxes.
  cbn [grid traces layout shapes]. f_equal. apply set_props_swap.
  intros k Hz Hs. apply (slider_keys f) in Hs as (ax & Hax & ->).
  apply xaxes_start_with_x in Hax as [rest ->].
  unfold zoom, keys in Hz. cbn in Hz.
  apply elem_of_cons in Hz as [Hz|Hz]; [discriminate Hz|].
  apply elem_of_cons in Hz as [Hz|Hz]; [discriminate Hz|].
  by apply elem_of_nil in Hz.
Qed.

(** X19.  On any store and any chart reference, adding the range slider
    twice is the same as adding it once, and so is enabling zoom and pan
    twice; and the two features can be added in either order: the result
    and the whole store are the same. *)
Theorem slider_and_zoom_commute_and_repeat (self : nat) (h : gmap nat Chart) :
  (add_range_slider self;; add_range_slider self) h = add_range_slider self h ∧
  (add_zoom_pan self;; add_zoom_pan self) h = add_zoom_pan self h ∧
  (add_range_slider self;; add_zoom_pan self) h
  = (add_zoom_pan self;; add_range_slider self) h.
Proof.
  destruct (h !! self) as [c|] eqn:Hc.
  - destruct (fig c) as [f|] eqn:Hf.
    + pose proof (add_range_slider_run self h c f Hc Hf) as Hs.
      pose proof (add_zoom_pan_run self h c f Hc Hf) as Hz.
      set (fs := update_xaxes f _) in Hs. set (fz := update_layout f _) in Hz.
      split; [|split].
      * unfold mbind at 1. unfold M_bind at 1. rewrite Hs.
        rewrite (add_range_slider_run self _ (mkChart (data c) (title c) (Some fs)) fs)
          by (by rewrite ?lookup_insert_eq).
        cbn [data title]. unfold fs. by rewrite insert_insert_eq, update_xaxes_twice.
      * unfold mbind at 1. unfold M_bind at 1. rewrite Hz.
        rewrite (add_zoom_pan_run self _ (mkChart (data c) (title c) (Some fz)) fz)
          by (by rewrite ?lookup_insert_eq).
        cbn [data title]. unfold fz. by rewrite insert_insert_eq, update_layout_twice.
      * unfold mbind at 1 2. unfold M_bind at 1 2. rewrite Hs, Hz.
        rewrite (add_zoom_pan_run self _ (mkChart (data c) (title c) (Some fs)) fs)
          by (by rewrite ?lookup_insert_eq).
        rewrite (add_range_slider_run self _ (mkChart (data c) (title c) (Some fz)) fz)
          by (by rewrite ?lookup_insert_eq).
        cbn [data title]. rewrite !insert_insert_eq.
        pose proof (slider_then_zoom f) as Hswap. cbv zeta in Hswap.
        unfold fs, fz. by rewrite Hswap.
    + assert (Hs : add_range_slider self h = (Ok self, h)).
      { unfold add_range_slider, mbind, M_bind, load. by rewrite Hc, Hf. }
      assert (Hz : add_zoom_pan self h = (Ok self, h)).
      { unfold add_zoom_pan, mbind, M_bind, load. by rewrite Hc, Hf. }
      unfold mbind, M_bind. by rewrite ?Hs, ?Hz, ?Hs, ?Hz.
  - assert (Hs : add_range_slider self h
                 = (Raise (SystemError "dangling reference"), h)).
    { unfold add_range_slider, mbind, M_bind, load. by rewrite Hc. }
    assert (Hz : add_zoom_pan self h
                 = (Raise (SystemError "dangling reference"), h)).
    { unfold add_zoom_pan, mbind, M_bind, load. by rewrite Hc. }
    unfold mbind, M_bind. by rewrite !Hs, !Hz.
Qed.


Lemma range_slider_steps (self : nat) (h : gmap nat Chart) (c : Chart)
    (f : Figure) :
  h !! self = Some c → fig c = Some f →
  ∃ f', add_range_slider self h
        = (Ok self, <[self := mkChart (data c) (title c) (Some f')]> h) ∧
    grid f' = grid f ∧ traces f' = traces f ∧ shapes f' = shapes f ∧
    (∀ ax, ax ∈ xaxes f →
       layout f' !! (ax +:+ "." +:+ "rangeslider.visible") = Some (VBool true)) ∧
    (∀ k, (∀ ax, ax ∈ xaxes f → k ≠ ax +:+ "." +:+ "rangeslider.visible") →
       layout f' !! k = layout f !! k).
Proof.
  intros Hc Hf. eexists. split; [by apply add_range_slider_run|].
  unfold update_xaxes, update_layout. cbn [grid traces shapes layout].
  split; [done|]. split; [done|]. split; [done|]. split.
  - intros ax Hax. rewrite set_props_lookup.
    rewrite (last_bound_uniform _ _ (Some (VBool true))); [done|apply slider_values|].
    apply slider_keys. by exists ax.
  - intros k Hk. rewrite set_props_lookup.
    rewrite (proj2 (last_bound_None _ _)); [done|].
    intros (ax & Hax & ->)%slider_keys. by destruct (Hk ax Hax).
Qed.

(** X20.  On a chart that has a figure, [add_range_slider] returns the
    chart it was given and touches the layout only: the range slider is made
    visible on every x axis of the figure (one per grid cell), every other
    layout property keeps its value, and the grid, the traces, the shapes,
    the data and the title of the chart stay as they were. *)
Theorem range_slider_on_every_axis (self : nat) (h : gmap nat Chart) (c : Chart)
    (f : Figure) :
  h !! self = Some c → fig c = Some f →
  ∃ f', add_range_slider self h
        = (Ok self, <[self := mkChart (data c) (title c) (Some f')]> h) ∧
    grid f' = grid f ∧ traces f' = traces f ∧ shapes f' = shapes f ∧
    (∀ ax, ax ∈ xaxes f →
       layout f' !! (ax +:+ "." +:+ "rangeslider.visible") = Some (VBool true)) ∧
    (∀ k, (∀ ax, ax ∈ xaxes f → k ≠ ax +:+ "." +:+ "rangeslider.visible") →
       layout f' !! k = layout f !! k).
Proof. apply range_slider_steps. Qed.


(** *** Moving averages and bands under a change of unit or level *)

Lemma sum_affine (k c : Qc) (xs : list Qc) :
  sum (affine k c xs) = k * sum xs + Qc_of_nat (length xs) * c.
Proof.
  unfold affine, sum. induction xs as [|x xs IH]; csimpl.
  - rewrite Qc_of_nat_0. ring.
  - rewrite IH, Qc_of_nat_S. ring.
Qed.

Lemma arith_mean_affine (k c : Qc) (xs : list Qc) :
  (0 < length xs)%nat → arith_mean (affine k c xs) = k * arith_mean xs + c.
Proof.
  intros Hn. unfold arith_mean. rewrite sum_affine, affine_length.
  pose proof (Qc_pos_nonzero _ (Qc_of_nat_pos _ Hn)) as Hne.
  set (n := Qc_of_nat (length xs)) in *. by field.
Qed.

Lemma rolling_mean_affine (k c : Qc) (p : nat) (xs : list Qc) (i : nat) :
  (i < length xs)%nat →
  rolling_mean p (affine k c xs) i = moved k c (rolling_mean p xs i).
Proof.
  intros Hi. unfold rolling_mean. case_decide; [|done].
  cbn [moved]. unfold affine at 1. rewrite trailing_window_fmap.
  fold (affine k c (trailing_window p i xs)). rewrite arith_mean_affine; [done|].
  rewrite trailing_window_length; lia.
Qed.

Lemma sample_var_affine (k c : Qc) (xs : list Qc) :
  (0 < length xs)%nat → sample_var (affine k c xs) = k * k * sample_var xs.
Proof.
  intros Hn. unfold sample_var. rewrite arith_mean_affine, affine_length by done.
  set (m := arith_mean xs).
  assert (Hdev : (λ x, (x - (k * m + c)) * (x - (k * m + c))) <$> affine k c xs
                 = Qcmult (k * k) <$> ((λ x, (x - m) * (x - m)) <$> xs)).
  { unfold affine. rewrite <- !list_fmap_compose. apply list_fmap_ext.
    intros _ x _. cbn. ring. }
  rewrite Hdev, sum_scaled. unfold Qcdiv. ring.
Qed.

Lemma rolling_std_shifted (sqrt : Qc → Qc) (c : Qc) (p : nat) (xs : list Qc) (i : nat) :
  (i < length xs)%nat →
  rolling_std sqrt p (affine 1 c xs) i = rolling_std sqrt p xs i.
Proof.
  intros Hi. unfold rolling_std. case_decide; [|done].
  unfold affine at 1. rewrite trailing_window_fmap.
  fold (affine 1 c (trailing_window p i xs)).
  rewrite sample_var_affine by (rewrite trailing_window_length; lia).
  do 2 f_equal. ring.
Qed.

(** X22.  The moving averages follow a change of unit and level of the
    prices: on the column [k * price + c] the SMA is [k * sma + c] wherever
    the SMA of the original column is a number (and NaN where it is NaN),
    and the EMA is [k * ema + c] at every row. *)
Theorem moving_averages_follow_rescaling (data data' : DataFrame) (column : string)
    (qs : list Qc) (k c : Qc) (p : Z) :
  getitem data column = Ok (Num <$> qs) →
  getitem data' column = Ok (Num <$> affine k c qs) →
  (∀ out, sma data p column = Ok out →
     sma data' p column = Ok (moved k c <$> out)) ∧
  (∀ out, ema data p column = Ok out →
     ∃ ms, out = Num <$> ms ∧ ema data' p column = Ok (Num <$> affine k c ms)).
Proof.
  intros Hcol Hcol'. split.
  - intros out Hrun.
    assert (Hp : (0 ≤ p)%Z) by (apply (sma_succeeds_iff data p column); eauto).
    rewrite (sma_runs data column _ p Hcol Hp) in Hrun. injection Hrun as <-.
    rewrite (sma_runs data' column _ p Hcol' Hp). f_equal.
    apply list_eq. intros i. rewrite list_lookup_fmap.
    destruct (decide (i < length qs)%nat) as [Hi|Hi].
    + rewrite !mean_num_lookup by (by rewrite ?affine_length).
      by rewrite rolling_mean_affine.
    + rewrite !(proj2 (lookup_ge_None _ _)); [done| |];
        rewrite mean_length; cbn [obj]; rewrite length_fmap, ?affine_length; lia.
  - intros out Hrun.
    assert (Hp : (1 ≤ p)%Z) by (apply (ema_succeeds_iff data p column); eauto).
    rewrite (ema_num data column qs p Hcol Hp) in Hrun. injection Hrun as <-.
    eexists. split; [done|].
    by rewrite (ema_num data' column _ p Hcol' Hp), EMA_affine.
Qed.

(** X23.  The Bollinger bands do not depend on the price level: on the
    column [price + c] the rolling standard deviation is the same at every
    row, and the moving average and both bands are those of the original
    column moved by [c] (NaN and infinite values staying as they are). *)
Theorem bollinger_bands_follow_shift (sqrt : Qc → Qc) (data data' : DataFrame)
    (column : string) (qs : list Qc) (c : Qc) (p : Z) (std_dev : pyfloat)
    (v : bollinger_locals) :
  getitem data column = Ok (Num <$> qs) →
  getitem data' column = Ok (Num <$> affine 1 c qs) →
  bollinger_compute sqrt data p std_dev column = Ok v →
  ∃ v', bollinger_compute sqrt data' p std_dev column = Ok v' ∧
    ∀ i, (i < length qs)%nat →
      Technical.std v' !! i = Technical.std v !! i ∧
      ma v' !! i = moved 1 c <$> ma v !! i ∧
      upper v' !! i = moved 1 c <$> upper v !! i ∧
      lower v' !! i = moved 1 c <$> lower v !! i.
Proof.
  intros Hcol Hcol' Hrun.
  assert (Hp : (0 ≤ p)%Z)
    by (apply (bollinger_succeeds_iff sqrt data p std_dev column); eauto).
  destruct (bollinger_on_column sqrt data column _ p std_dev Hcol Hp)
    as (v0 & Hv0 & _ & Hall & Hnum).
  rewrite Hrun in Hv0. injection Hv0 as <-.
  destruct (bollinger_on_column sqrt data' column _ p std_dev Hcol' Hp)
    as (v' & Hv' & _ & Hall' & Hnum').
  exists v'. split; [done|]. intros i Hi.
  destruct (Hall i ltac:(by rewrite length_fmap))
    as (m & sg & u & l & Hm & Hs & Hu & Hl & -> & -> & _).
  destruct (Hall' i ltac:(by rewrite length_fmap, affine_length))
    as (m' & sg' & u' & l' & Hm' & Hs' & Hu' & Hl' & -> & -> & _).
  destruct (Hnum qs eq_refl i Hi) as [Hma Hstd].
  destruct (Hnum' (affine 1 c qs) eq_refl i ltac:(by rewrite affine_length))
    as [Hma' Hstd'].
  rewrite rolling_mean_affine in Hma' by done.
  rewrite rolling_std_shifted in Hstd' by done.
  rewrite Hm in Hma. rewrite Hs in Hstd. rewrite Hm' in Hma'. rewrite Hs' in Hstd'.
  injection Hma as ->. injection Hstd as ->. injection Hma' as ->. injection Hstd' as ->.
  rewrite Hs, Hs', Hm, Hm', Hu, Hu', Hl, Hl'. cbn [fmap option_fmap option_map].
  split; [done|]. split; [done|].
  set (t := fmul std_dev (rolling_std sqrt (Z.to_nat p) qs i)).
  unfold rolling_mean. case_decide; [|done].
  set (m := arith_mean _).
  split; destruct t as [t| | |]; cbn; try done; do 2 f_equal; ring.
Qed.

(** *** A series that only falls *)

Lemma mirrored_twice (qs : list Qc) : affine (- (1)) 0 (affine (- (1)) 0 qs) = qs.
Proof.
  unfold affine. rewrite <- list_fmap_compose. rewrite <- (list_fmap_id qs) at 2.
  apply list_fmap_ext. intros _ x _. cbn. ring.
Qed.

Lemma falling_mirrored (qs : list Qc) :
  strictly_decreasing qs → strictly_increasing (affine (- (1)) 0 qs).
Proof.
  intros Hdec i x y. unfold affine. rewrite !list_lookup_fmap.
  destruct (qs !! i) as [a|] eqn:Ha; [|done].
  destruct (qs !! S i) as [b|] eqn:Hb; [|done].
  cbn. intros [= <-] [= <-]. pose proof (Hdec i a b Ha Hb) as Hlt.
  apply Qclt_minus_iff. replace (- (1) * b + 0 + - (- (1) * a + 0)) with (a + - b) by ring.
  by apply (proj1 (Qclt_minus_iff b a)).
Qed.

Lemma minus_one_negative : - (1) < 0.
Proof. by apply Qcopp_neg_iff. Qed.

Lemma falling_up_move (qs : list Qc) (i : nat) :
  strictly_decreasing qs → up_move qs i = 0.
Proof.
  intros Hdec. rewrite <- (mirrored_twice qs).
  rewrite up_move_mirrored by apply minus_one_negative.
  rewrite rising_down_move by (by apply falling_mirrored). ring.
Qed.

Lemma falling_down_move (qs : list Qc) (i : nat) :
  strictly_decreasing qs → (1 ≤ i)%nat → (i < length qs)%nat → 0 < down_move qs i.
Proof.
  intros Hdec H1 Hi. rewrite <- (mirrored_twice qs).
  rewrite down_move_mirrored by apply minus_one_negative.
  replace (- - (1)) with 1 by ring. rewrite Qcmult_1_l.
  apply rising_up_move; [by apply falling_mirrored|done|by rewrite affine_length].
Qed.

(** X24.  On a strictly decreasing column of at least [p + 1] numbers,
    [p >= 1], the average gain is 0 and the average loss positive at every
    row from [p] on, so the relative strength and the RSI are 0 there. *)
Theorem rsi_of_falling_prices (data : DataFrame) (column : string) (qs : list Qc)
    (p : Z) :
  getitem data column = Ok (Num <$> qs) → (1 ≤ p)%Z →
  strictly_decreasing qs → (Z.to_nat p + 1 ≤ length qs)%nat →
  ∃ v, rsi_compute data p column = Ok v ∧
    ∀ i, (Z.to_nat p ≤ i)%nat → (i < length qs)%nat →
      ∃ l, gain v !! i = Some (Num 0) ∧ loss v !! i = Some (Num l) ∧ 0 < l ∧
           rs v !! i = Some (Num 0) ∧ rsi v !! i = Some (Num 0).
Proof.
  intros Hcol Hp Hdec Hlen.
  pose proof (rsi_compute_num data column qs p Hcol ltac:(lia)) as Hrun.
  cbv zeta in Hrun. rewrite Hrun.
  eexists. split; [done|]. cbn [gain loss rs rsi].
  intros i Hpi Hi.
  pose proof (rsi_series_lookup qs (Z.to_nat p) i Hi) as H.
  cbv zeta in H. unfold rolling_mean in H. rewrite !decide_True in H by lia.
  destruct H as (HG & HL & Hrs & Hrsi).
  assert (Hzero : arith_mean (trailing_window (Z.to_nat p) i (up_moves qs)) = 0).
  { apply mean_of_zeros, (moves_Forall _ up_move). intros j. by apply falling_up_move. }
  assert (Hpos : 0 < arith_mean (trailing_window (Z.to_nat p) i (down_moves qs))).
  { unfold arith_mean. apply Qcdiv_pos.
    - apply (sum_pos _ (down_move qs i)).
      + apply trailing_window_Forall, (moves_Forall _ down_move), down_move_nonneg.
      + apply trailing_window_last; [lia|lia|].
        unfold down_moves. rewrite list_lookup_fmap, lookup_seq_lt by done. done.
      + apply falling_down_move; (done || lia).
    - apply Qc_of_nat_pos. rewrite trailing_window_length; try lia.
      by rewrite down_moves_length. }
  rewrite Hzero in HG, Hrs, Hrsi.
  set (l := arith_mean (trailing_window (Z.to_nat p) i (down_moves qs))) in *.
  exists l. rewrite HG, HL, Hrs, Hrsi. split; [done|]. split; [done|]. split; [done|].
  split.
  - rewrite fdiv_numbers by (by apply Qc_pos_nonzero). do 2 f_equal.
    unfold Qcdiv. ring.
  - by rewrite rsi_value_no_gain.
Qed.

(** *** The further properties at sample inputs *)

Lemma closes_within : within (Qc_of_Z 1) (Qc_of_Z 7) closes.
Proof. unfold within. repeat constructor; vm_compute; discriminate. Defined.

Lemma usable_None (data : DataFrame) : usable data None.
Proof. intros c [H _]. discriminate H. Defined.

Lemma close_is_plottable : plottable ohlcv (Some "Close").
Proof.
  split.
  - intros c [[= <-] _]. repeat constructor.
  - intros Hn. destruct (Hn "Close"). split; [reflexivity|discriminate].
Defined.


Lemma falling_is_strictly_decreasing : strictly_decreasing falling.
Proof.
  intros i x y Hx Hy.
  do 4 (destruct i as [|i];
        [vm_compute in Hx, Hy; try discriminate Hy;
         injection Hx as <-; injection Hy as <-; reflexivity|]).
  discriminate Hx.
Defined.

Lemma indicator_series_keep_length_witness :
  let sqrt : Qc → Qc := sqrt_floor in
  let data : DataFrame := ohlcv in
  let column : string := "Close" in
  let s : Series := Num <$> closes in
  (getitem data column = Ok s) ∧
  ((∀ p out, sma data p column = Ok out → length out = length s) ∧
  (∀ p out, ema data p column = Ok out → length out = length s) ∧
  (∀ p v, rsi_compute data p column = Ok v →
     length (delta v) = length s ∧ length (gain v) = length s ∧
     length (loss v) = length s ∧ length (rs v) = length s ∧
     length (rsi v) = length s) ∧
  (∀ fast slow sig v, macd_compute data fast slow sig column = Ok v →
     length (exp1 v) = length s ∧ length (exp2 v) = length s ∧
     length (macd v) = length s ∧ length (signal v) = length s ∧
     length (hist v) = length s) ∧
  (∀ p k v, bollinger_compute sqrt data p k column = Ok v →
     length (ma v) = length s ∧ length (Technical.std v) = length s ∧
     length (upper v) = length s ∧ length (lower v) = length s)).
Proof.
  cbv zeta.
  split; [reflexivity|].
  apply (indicator_series_keep_length sqrt_floor ohlcv "Close" (Num <$> closes));
    [reflexivity].
Defined.

Lemma sma_blank_where_window_has_gap_witness :
  let data : DataFrame := gappy_frame in
  let column : string := "Close" in
  let s : Series := gappy in
  let p : Z := 2%Z in
  (getitem data column = Ok s) ∧
  ((1 ≤ p)%Z) ∧
  (∃ out, sma data p column = Ok out ∧
    ∀ i, (i < length s)%nat →
      (∀ xs, (Z.to_nat p ≤ S i)%nat → window_at (Z.to_nat p) i s = Num <$> xs →
         length xs = Z.to_nat p ∧ out !! i = Some (Num (arith_mean xs))) ∧
      ((S i < Z.to_nat p)%nat → out !! i = Some NaN) ∧
      (∀ x, x ∈ window_at (Z.to_nat p) i s → observation x = None →
         out !! i = Some NaN)).
Proof.
  cbv zeta.
  split; [reflexivity|].
  split; [lia|].
  apply (sma_blank_where_window_has_gap gappy_frame "Close" gappy 2%Z);
    [reflexivity|lia].
Defined.

Lemma short_column_gives_no_values_witness :
  let sqrt : Qc → Qc := sqrt_floor in
  let data : DataFrame := ohlcv in
  let column : string := "Close" in
  let s : Series := Num <$> closes in
  let p : Z := 6%Z in
  let std_dev : pyfloat := of_Z 2 in
  (getitem data column = Ok s) ∧
  ((Z.of_nat (length s) < p)%Z) ∧
  ((∃ out, sma data p column = Ok out ∧ out = replicate (length s) NaN) ∧
  (∃ v, bollinger_compute sqrt data p std_dev column = Ok v ∧
        upper v = replicate (length s) NaN ∧ lower v = replicate (length s) NaN) ∧
  (∃ v, rsi_compute data p column = Ok v ∧ rsi v = replicate (length s) NaN)).
Proof.
  cbv zeta.
  split; [reflexivity|].
  split; [simpl; lia|].
  apply (short_column_gives_no_values sqrt_floor ohlcv "Close" (Num <$> closes) 6%Z (of_Z 2));
    [reflexivity|simpl; lia].
Defined.

Lemma period_one_is_degenerate_witness :
  let sqrt : Qc → Qc := sqrt_floor in
  let data : DataFrame := ohlcv in
  let column : string := "Close" in
  let s : Series := Num <$> closes in
  let std_dev : pyfloat := of_Z 2 in
  (getitem data column = Ok s) ∧
  ((∀ qs, s = Num <$> qs → sma data 1 column = Ok s ∧ ema data 1 column = Ok s) ∧
  (∃ v, bollinger_compute sqrt data 1 std_dev column = Ok v ∧
        upper v = replicate (length s) NaN ∧ lower v = replicate (length s) NaN)).
Proof.
  cbv zeta.
  split; [reflexivity|].
  apply (period_one_is_degenerate sqrt_floor ohlcv "Close" (Num <$> closes) (of_Z 2));
    [reflexivity].
Defined.

Lemma moving_averages_stay_in_range_witness :
  let data : DataFrame := ohlcv in
  let column : string := "Close" in
  let qs : list Qc := closes in
  let lo : Qc := Qc_of_Z 1 in
  let hi : Qc := Qc_of_Z 7 in
  (getitem data column = Ok (Num <$> qs)) ∧
  (within lo hi qs) ∧
  ((∀ p out i x, sma data p column = Ok out → out !! i = Some x →
     x = NaN ∨ ∃ m, x = Num m ∧ lo ≤ m ∧ m ≤ hi) ∧
  (∀ p out i x, ema data p column = Ok out → out !! i = Some x →
     ∃ m, x = Num m ∧ lo ≤ m ∧ m ≤ hi)).
Proof.
  cbv zeta.
  split; [reflexivity|].
  split; [exact closes_within|].
  apply (moving_averages_stay_in_range ohlcv "Close" closes (Qc_of_Z 1) (Qc_of_Z 7));
    [reflexivity|exact closes_within].
Defined.

Lemma macd_scales_and_ignores_level_witness :
  let data : DataFrame := ohlcv in
  let data' : DataFrame := scaled_frame in
  let column : string := "Close" in
  let qs : list Qc := closes in
  let k : Qc := Qc_of_Z 2 in
  let c : Qc := Qc_of_Z 3 in
  let fast : Z := 2%Z in
  let slow : Z := 3%Z in
  let sig : Z := 2%Z in
  let v : macd_locals := macd_sample in
  (getitem data column = Ok (Num <$> qs)) ∧
  (getitem data' column = Ok (Num <$> affine k c qs)) ∧
  (macd_compute data fast slow sig column = Ok v) ∧
  (∃ v' m s h,
    macd_compute data' fast slow sig column = Ok v' ∧
    macd v = Num <$> m ∧ signal v = Num <$> s ∧ hist v = Num <$> h ∧
    macd v' = Num <$> affine k 0 m ∧
    signal v' = Num <$> affine k 0 s ∧
    hist v' = Num <$> affine k 0 h ∧
    (k = 1 → macd v' = macd v ∧ signal v' = signal v ∧ hist v' = hist v)).
Proof.
  cbv zeta.
  split; [reflexivity|].
  split; [reflexivity|].
  split; [vm_compute; reflexivity|].
  apply (macd_scales_and_ignores_level ohlcv scaled_frame "Close" closes (Qc_of_Z 2) (Qc_of_Z 3) 2%Z 3%Z 2%Z macd_sample);
    [reflexivity|reflexivity|vm_compute; reflexivity].
Defined.

Lemma rsi_unchanged_by_rescaling_witness :
  let data : DataFrame := ohlcv in
  let data' : DataFrame := scaled_frame in
  let column : string := "Close" in
  let qs : list Qc := closes in
  let k : Qc := Qc_of_Z 2 in
  let c : Qc := Qc_of_Z 3 in
  let p : Z := 2%Z in
  let v : rsi_locals := rsi_sample in
  (getitem data column = Ok (Num <$> qs)) ∧
  (getitem data' column = Ok (Num <$> affine k c qs)) ∧
  (0 < k) ∧
  (rsi_compute data p column = Ok v) ∧
  (∃ v', rsi_compute data' p column = Ok v' ∧ rs v' = rs v ∧ rsi v' = rsi v).
Proof.
  cbv zeta.
  split; [reflexivity|].
  split; [reflexivity|].
  split; [reflexivity|].
  split; [vm_compute; reflexivity|].
  apply (rsi_unchanged_by_rescaling ohlcv scaled_frame "Close" closes (Qc_of_Z 2) (Qc_of_Z 3) 2%Z rsi_sample);
    [reflexivity|reflexivity|reflexivity|vm_compute; reflexivity].
Defined.

Lemma rsi_is_blank_or_percentage_witness :
  let data : DataFrame := ohlcv in
  let column : string := "Close" in
  let qs : list Qc := closes in
  let p : Z := 2%Z in
  let v : rsi_locals := rsi_sample in
  (getitem data column = Ok (Num <$> qs)) ∧
  (rsi_compute data p column = Ok v) ∧
  (∀ i, (i < length qs)%nat →
    let still := gain v !! i = Some (Num 0) ∧ loss v !! i = Some (Num 0) in
    (rsi v !! i = Some NaN ∧ (p = 0 ∨ Z.of_nat (S i) < p ∨ still)%Z)
    ∨ (∃ r, rsi v !! i = Some (Num r) ∧ 0 ≤ r ∧ r ≤ Qc_of_Z 100
            ∧ (1 ≤ p ≤ Z.of_nat (S i))%Z ∧ ¬ still)).
Proof.
  cbv zeta.
  split; [reflexivity|].
  split; [vm_compute; reflexivity|].
  apply (rsi_is_blank_or_percentage ohlcv "Close" closes 2%Z rsi_sample);
    [reflexivity|vm_compute; reflexivity].
Defined.


Lemma flat_prices_witness :
  let data : DataFrame := flat_frame in
  let column : string := "Close" in
  let n : nat := 4%nat in
  let c : Qc := Qc_of_Z 3 in
  (getitem data column = Ok (replicate n (Num c))) ∧
  ((∀ p out, ema data p column = Ok out → out = replicate n (Num c)) ∧
  (∀ fast slow sig v, macd_compute data fast slow sig column = Ok v →
     macd v = replicate n (Num 0) ∧ signal v = replicate n (Num 0) ∧
     hist v = replicate n (Num 0)) ∧
  (∀ p v, rsi_compute data p column = Ok v → rsi v = replicate n NaN)).
Proof.
  cbv zeta.
  split; [reflexivity|].
  apply (flat_prices flat_frame "Close" 4%nat (Qc_of_Z 3));
    [reflexivity].
Defined.

Lemma bands_bracket_the_average_witness :
  let sqrt : Qc → Qc := sqrt_floor in
  let data : DataFrame := ohlcv in
  let column : string := "Close" in
  let qs : list Qc := closes in
  let p : Z := 2%Z in
  let k : Qc := Qc_of_Z 2 in
  let v : bollinger_locals := bollinger_sample in
  ((∀ q, 0 ≤ sqrt q)) ∧
  (0 ≤ k) ∧
  (getitem data column = Ok (Num <$> qs)) ∧
  (bollinger_compute sqrt data p (Num k) column = Ok v) ∧
  (∀ i, (i < length qs)%nat →
    ((2 ≤ p ≤ Z.of_nat (S i))%Z →
       ∃ m s, ma v !! i = Some (Num m) ∧ Technical.std v !! i = Some (Num s) ∧ 0 ≤ s ∧
         lower v !! i = Some (Num (m - k * s)) ∧ upper v !! i = Some (Num (m + k * s)) ∧
         m - k * s ≤ m ∧ m ≤ m + k * s) ∧
    (¬ (2 ≤ p ≤ Z.of_nat (S i))%Z →
       lower v !! i = Some NaN ∧ upper v !! i = Some NaN)).
Proof.
  cbv zeta.
  split; [exact sqrt_floor_nonneg|].
  split; [vm_compute; discriminate|].
  split; [reflexivity|].
  split; [vm_compute; reflexivity|].
  apply (bands_bracket_the_average sqrt_floor ohlcv "Close" closes 2%Z (Qc_of_Z 2) bollinger_sample);
    [exact sqrt_floor_nonneg|vm_compute; discriminate|reflexivity|vm_compute; reflexivity].
Defined.

Lemma ema_carries_over_gaps_witness :
  let data : DataFrame := gappy_frame in
  let column : string := "Close" in
  let s : Series := gappy in
  let out : Series := ema_sample in
  let p : Z := 3%Z in
  (getitem data column = Ok s) ∧
  (ema data p column = Ok out) ∧
  ((∀ i, out !! i = Some NaN
        ↔ (i < length s)%nat
          ∧ ∀ j x, (j ≤ i)%nat → s !! j = Some x → observation x = None) ∧
  (∀ i x, s !! S i = Some x → observation x = None → out !! S i = out !! i) ∧
  (∀ i y, out !! i = Some y → y = NaN ∨ ∃ q, y = Num q)).
Proof.
  cbv zeta.
  split; [reflexivity|].
  split; [vm_compute; reflexivity|].
  apply (ema_carries_over_gaps gappy_frame "Close" gappy ema_sample 3%Z);
    [reflexivity|vm_compute; reflexivity].
Defined.

Lemma constructed_chart_contents_witness :
  let data : DataFrame := ohlcv in
  let title : option string := Some "Prices" in
  let x : option string := None in
  let y : option string := Some "Close" in
  let h : gmap nat Chart := ∅ in
  (usable data x) ∧
  (plottable data y) ∧
  (∃ (xs : value) (ys : Series) (name : string),
    (∀ c s, named x c → getitem data c = Ok s → xs = VSeries s) ∧
    ((∀ c, ¬ named x c) → xs = VInts (index data)) ∧
    (∀ c, named y c → getitem data c = Ok ys ∧ name = c) ∧
    ((∀ c, ¬ named y c) → ∃ rest, columns data = (name, ys) :: rest) ∧
    let drawn run knd mode fill :=
      ∃ f t,
        run = (Returned (fresh (dom h)),
               <[fresh (dom h) := mkChart data title (Some f)]> h) ∧
        grid f = None ∧ traces f = [(t, None)] ∧ kind t = knd ∧
        props t !! "x" = Some xs ∧ props t !! "y" = Some (VSeries ys) ∧
        props t !! "name" = Some (VStr name) ∧
        props t !! "mode" = VStr <$> mode ∧ props t !! "fill" = VStr <$> fill ∧
        layout f !! "title" = VStr <$> title ∧
        layout f !! "xaxis.title" = VStr <$> x ∧
        layout f !! "yaxis.title" = VStr <$> y in
    drawn (create_line data title x y h) Scatter (Some "lines") None ∧
    drawn (create_bar data title x y h) Bar None None ∧
    drawn (create_area data title x y h) Scatter None (Some "tozeroy") ∧
    drawn (create_scatter data title x y None h) Scatter (Some "markers") None).
Proof.
  cbv zeta.
  split; [exact (usable_None ohlcv)|].
  split; [exact close_is_plottable|].
  apply (constructed_chart_contents ohlcv (Some "Prices") None (Some "Close") ∅);
    [exact (usable_None ohlcv)|exact close_is_plottable].
Defined.

Lemma scatter_color_column_witness :
  let data : DataFrame := ohlcv in
  let title : option string := Some "Prices" in
  let x : option string := None in
  let y : option string := Some "Close" in
  let color : option string := Some "Volume" in
  let h : gmap nat Chart := ∅ in
  (usable data x) ∧
  (plottable data y) ∧
  (let run := create_scatter data title x y color h in
  let drawn col shown :=
    ∃ f t,
      run = (Returned (fresh (dom h)),
             <[fresh (dom h) := mkChart data title (Some f)]> h) ∧
      traces f = [(t, None)] ∧ kind t = Scatter ∧
      props t !! "mode" = Some (VStr "markers") ∧
      props t !! "marker.color" = col ∧
      props t !! "marker.colorscale" = Some (VStr "Viridis") ∧
      props t !! "marker.showscale" = Some (VBool shown) in
  (∀ c, named color c → c ∉ column_names data → run = (Failed (Of (KeyError c)), h)) ∧
  (∀ c s, named color c → getitem data c = Ok s → drawn (Some (VSeries s)) true) ∧
  ((∀ c, ¬ named color c) → drawn None false)).
Proof.
  cbv zeta.
  split; [exact (usable_None ohlcv)|].
  split; [exact close_is_plottable|].
  apply (scatter_color_column ohlcv (Some "Prices") None (Some "Close") (Some "Volume") ∅);
    [exact (usable_None ohlcv)|exact close_is_plottable].
Defined.

Lemma error_band_around_prediction_witness :
  let sqrt : Qc → Qc := sqrt_floor in
  let data : DataFrame := forecast_frame in
  let actual : string := "y" in
  let predicted : string := "yhat" in
  let title : option string := None in
  let h : gmap nat Chart := ∅ in
  let a : Series := observed in
  let p : Series := forecast in
  (getitem data actual = Ok a) ∧
  (getitem data predicted = Ok p) ∧
  (∃ f up lo sigma,
    plot_predictions sqrt data actual predicted title h
    = (Ok (fresh (dom h)), <[fresh (dom h) := mkChart data title (Some f)]> h) ∧
    plotted f = [Some (VSeries a); Some (VSeries p); Some (VSeries up); Some (VSeries lo)] ∧
    length up = length p ∧ length lo = length p ∧
    (∀ i q, p !! i = Some q →
       up !! i = Some (fadd q sigma) ∧ lo !! i = Some (fsub q sigma)) ∧
    (∀ i u l, up !! i = Some (Num u) → lo !! i = Some (Num l) →
       ∃ q s, p !! i = Some (Num q) ∧ sigma = Num s ∧ u = q + s ∧ l = q - s) ∧
    let errors := sub a p in
    ((Exists (λ e, e = PInf ∨ e = NInf) errors ∨ (length (observations errors) ≤ 1)%nat) →
       sigma = NaN ∧ up = replicate (length p) NaN ∧ lo = replicate (length p) NaN) ∧
    (Forall (λ e, e ≠ PInf ∧ e ≠ NInf) errors → (2 ≤ length (observations errors))%nat →
       sigma = Num (sqrt (sample_var (observations errors))))).
Proof.
  cbv zeta.
  split; [reflexivity|].
  split; [reflexivity|].
  apply (error_band_around_prediction sqrt_floor forecast_frame "y" "yhat" None ∅ observed forecast);
    [reflexivity|reflexivity].
Defined.

Lemma range_slider_on_every_axis_witness :
  let self : nat := 0%nat in
  let h : gmap nat Chart := price_store in
  let c : Chart := mkChart ohlcv None (Some new_figure) in
  let f : Figure := new_figure in
  (h !! self = Some c) ∧
  (fig c = Some f) ∧
  (∃ f', add_range_slider self h
        = (Ok self, <[self := mkChart (data c) (title c) (Some f')]> h) ∧
    grid f' = grid f ∧ traces f' = traces f ∧ shapes f' = shapes f ∧
    (∀ ax, ax ∈ xaxes f →
       layout f' !! (ax +:+ "." +:+ "rangeslider.visible") = Some (VBool true)) ∧
    (∀ k, (∀ ax, ax ∈ xaxes f → k ≠ ax +:+ "." +:+ "rangeslider.visible") →
       layout f' !! k = layout f !! k)).
Proof.
  cbv zeta.
  split; [reflexivity|].
  split; [reflexivity|].
  apply (range_slider_on_every_axis 0%nat price_store (mkChart ohlcv None (Some new_figure)) new_figure);
    [reflexivity|reflexivity].
Defined.


Lemma moving_averages_follow_rescaling_witness :
  let data : DataFrame := ohlcv in
  let data' : DataFrame := scaled_frame in
  let column : string := "Close" in
  let qs : list Qc := closes in
  let k : Qc := Qc_of_Z 2 in
  let c : Qc := Qc_of_Z 3 in
  let p : Z := 2%Z in
  (getitem data column = Ok (Num <$> qs)) ∧
  (getitem data' column = Ok (Num <$> affine k c qs)) ∧
  ((∀ out, sma data p column = Ok out →
     sma data' p column = Ok (moved k c <$> out)) ∧
  (∀ out, ema data p column = Ok out →
     ∃ ms, out = Num <$> ms ∧ ema data' p column = Ok (Num <$> affine k c ms))).
Proof.
  cbv zeta.
  split; [reflexivity|].
  split; [reflexivity|].
  apply (moving_averages_follow_rescaling ohlcv scaled_frame "Close" closes (Qc_of_Z 2) (Qc_of_Z 3) 2%Z);
    [reflexivity|reflexivity].
Defined.

Lemma bollinger_bands_follow_shift_witness :
  let sqrt : Qc → Qc := sqrt_floor in
  let data : DataFrame := ohlcv in
  let data' : DataFrame := shifted_frame in
  let column : string := "Close" in
  let qs : list Qc := closes in
  let c : Qc := Qc_of_Z 5 in
  let p : Z := 2%Z in
  let std_dev : pyfloat := of_Z 2 in
  let v : bollinger_locals := bollinger_sample in
  (getitem data column = Ok (Num <$> qs)) ∧
  (getitem data' column = Ok (Num <$> affine 1 c qs)) ∧
  (bollinger_compute sqrt data p std_dev column = Ok v) ∧
  (∃ v', bollinger_compute sqrt data' p std_dev column = Ok v' ∧
    ∀ i, (i < length qs)%nat →
      Technical.std v' !! i = Technical.std v !! i ∧
      ma v' !! i = moved 1 c <$> ma v !! i ∧
      upper v' !! i = moved 1 c <$> upper v !! i ∧
      lower v' !! i = moved 1 c <$> lower v !! i).
Proof.
  cbv zeta.
  split; [reflexivity|].
  split; [reflexivity|].
  split; [vm_compute; reflexivity|].
  apply (bollinger_bands_follow_shift sqrt_floor ohlcv shifted_frame "Close" closes (Qc_of_Z 5) 2%Z (of_Z 2) bollinger_sample);
    [reflexivity|reflexivity|vm_compute; reflexivity].
Defined.

Lemma rsi_of_falling_prices_witness :
  let data : DataFrame := falling_frame in
  let column : string := "Close" in
  let qs : list Qc := falling in
  let p : Z := 2%Z in
  (getitem data column = Ok (Num <$> qs)) ∧
  ((1 ≤ p)%Z) ∧
  (strictly_decreasing qs) ∧
  ((Z.to_nat p + 1 ≤ length qs)%nat) ∧
  (∃ v, rsi_compute data p column = Ok v ∧
    ∀ i, (Z.to_nat p ≤ i)%nat → (i < length qs)%nat →
      ∃ l, gain v !! i = Some (Num 0) ∧ loss v !! i = Some (Num l) ∧ 0 < l ∧
           rs v !! i = Some (Num 0) ∧ rsi v !! i = Some (Num 0)).
Proof.
  cbv zeta.
  split; [reflexivity|].
  split; [lia|].
  split; [exact falling_is_strictly_decreasing|].
  split; [simpl; lia|].
  apply (rsi_of_falling_prices falling_frame "Close" falling 2%Z);
    [reflexivity|lia|exact falling_is_strictly_decreasing|simpl; lia].
Defined.
